(** * DataVic DCAT JSON harvester: a shallow embedding and its properties

    The module [ckanext/datavic_harvester/harvesters/_json.py] converts a DCAT
    dataset description into a CKAN package dict.  Its methods work on Python
    dicts and lists that are shared and updated in place, so the embedding
    keeps a store of objects addressed by location, and every method is a
    computation over that store which may raise a Python exception. *)

From Stdlib Require Import ZArith String Ascii Bool Lia DecimalString.
From stdpp Require Import base tactics option list strings.

Local Open Scope string_scope.
Local Open Scope list_scope.
Set Warnings "-register-all".

(** ** Python values and the object store *)

(** Locations of mutable objects.  A new object is put at the end of the
    store, so its location is the length of the store before. *)
Abbreviation loc := nat (only parsing).

(** Scalars are immutable and carried by value; lists and dicts are objects of
    the store, reached through a reference.  Numbers of JSON documents are
    modelled by integers. *)
Inductive value :=
| VNone
| VBool (b : bool)
| VInt (z : Z)
| VStr (s : string)
| VRef (l : loc).

#[global] Instance value_eq_dec : EqDecision value.
Proof. solve_decision. Defined.

(** A dict keeps its keys in insertion order; the keys of the dicts handled by
    the harvester come from JSON documents or from string literals, so they
    are strings. *)
Inductive obj :=
| OList (xs : list value)
| ODict (kvs : list (string * value)).

(** The content of a JSON document, and of every argument handed to a
    collaborator of the host. *)
Inductive tree :=
| TNone
| TBool (b : bool)
| TInt (z : Z)
| TStr (s : string)
| TList (ts : list tree)
| TDict (kts : list (string * tree)).

Inductive exn :=
| TypeError
| KeyError
| IndexError
| AttributeError
| UnboundLocalError
| RecursionError
| ValueError (msg : string)
| NotFound
| HostError (name : string).

Definition is_ValueError (e : exn) : bool :=
  match e with ValueError _ => true | _ => false end.

Definition is_NotFound (e : exn) : bool :=
  match e with NotFound => true | _ => false end.

(** [except Exception]: every exception of the model derives from it. *)
Definition is_Exception (e : exn) : bool := true.

(** [str(ex)] *)
Definition exn_str (e : exn) : string :=
  match e with
  | TypeError => "TypeError"
  | KeyError => "KeyError"
  | IndexError => "IndexError"
  | AttributeError => "AttributeError"
  | UnboundLocalError => "UnboundLocalError"
  | RecursionError => "maximum recursion depth exceeded"
  | ValueError msg => msg
  | NotFound => "NotFound"
  | HostError name => name
  end.

Inductive outcome (A : Type) :=
| Ok (a : A)
| Raise (e : exn).
Arguments Ok {A} a.
Arguments Raise {A} e.

(** The state threaded through the harvester: the object store and the records
    written with [log.error]. *)
Record state := mkState { heap : list obj; logs : list string }.

(** A computation returns a value or raises; the state it has reached is kept
    in both cases, as an exception does not undo updates. *)
Definition M (A : Type) : Type := state -> outcome A * state.

Definition ret {A} (a : A) : M A := fun s => (Ok a, s).

Definition bind {A B} (m : M A) (f : A -> M B) : M B :=
  fun s => match m s with
           | (Ok a, s') => f a s'
           | (Raise e, s') => (Raise e, s')
           end.

Definition raise {A} (e : exn) : M A := fun s => (Raise e, s).

Notation "x <- m ;; k" := (bind m (fun x => k))
  (at level 100, m at next level, right associativity,
   format "'[v' x  '<-'  m  ';;' '/' k ']'").
Notation "m ;;; k" := (bind m (fun _ => k))
  (at level 100, right associativity).

(** [try: m except E: handler] for the exceptions selected by [catches]. *)
Definition try_except {A} (m : M A) (catches : exn -> bool) (handler : exn -> M A) : M A :=
  fun s => match m s with
           | (Ok a, s') => (Ok a, s')
           | (Raise e, s') => if catches e then handler e s' else (Raise e, s')
           end.

(** The result of a collaborator, as a computation. *)
Definition lift {A} (r : outcome A) : M A := fun s => (r, s).

(** [log.error(msg)] *)
Definition log_error (msg : string) : M unit :=
  fun s => (Ok tt, mkState (heap s) (logs s ++ [msg])).

(** A new object. *)
Definition alloc (o : obj) : M value :=
  fun s => (Ok (VRef (length (heap s))), mkState (heap s ++ [o]) (logs s)).

Fixpoint mapM {A B} (f : A -> M B) (xs : list A) : M (list B) :=
  match xs with
  | [] => ret []
  | x :: r => y <- f x ;; ys <- mapM f r ;; ret (y :: ys)
  end.

(** [[x for x in xs if cond(x)]] *)
Fixpoint filterM {A} (f : A -> M bool) (xs : list A) : M (list A) :=
  match xs with
  | [] => ret []
  | x :: r => b <- f x ;; ys <- filterM f r ;; ret (if b then x :: ys else ys)
  end.

(** [for x in xs: body(x)] *)
Fixpoint forM_ {A} (xs : list A) (body : A -> M unit) : M unit :=
  match xs with
  | [] => ret tt
  | x :: r => body x ;;; forM_ r body
  end.

(** ** Strings *)

(** [needle in hay] *)
Fixpoint str_contains (needle hay : string) : bool :=
  String.prefix needle hay ||
  match hay with
  | EmptyString => false
  | String _ r => str_contains needle r
  end.

(** [s.replace(c, by)] for a one-character [c]. *)
Fixpoint str_replace (c : ascii) (by_ : string) (s : string) : string :=
  match s with
  | EmptyString => EmptyString
  | String a r =>
      if Ascii.eqb a c then by_ ++ str_replace c by_ r
      else String a (str_replace c by_ r)
  end.

(** [s.index(c)] for a one-character [c]; [None] stands for the [ValueError]
    of a missing character. *)
Fixpoint str_index (c : ascii) (s : string) : option nat :=
  match s with
  | EmptyString => None
  | String a r =>
      if Ascii.eqb a c then Some 0 else option_map S (str_index c r)
  end.

(** [s[:n]] *)
Fixpoint str_take (n : nat) (s : string) : string :=
  match n, s with
  | S n', String a r => String a (str_take n' r)
  | _, _ => EmptyString
  end.

Fixpoint str_chars (s : string) : list string :=
  match s with
  | EmptyString => []
  | String a r => String a EmptyString :: str_chars r
  end.

(** ** Dicts as ordered association lists *)

Fixpoint assoc_get {A} (k : string) (kvs : list (string * A)) : option A :=
  match kvs with
  | [] => None
  | (k', v) :: r => if String.eqb k k' then Some v else assoc_get k r
  end.

(** [d[k] = v]: an existing key keeps its place, a new one goes last. *)
Fixpoint assoc_set {A} (k : string) (v : A) (kvs : list (string * A)) : list (string * A) :=
  match kvs with
  | [] => [(k, v)]
  | (k', v') :: r =>
      if String.eqb k k' then (k, v) :: r else (k', v') :: assoc_set k v r
  end.

Definition assoc_mem {A} (k : string) (kvs : list (string * A)) : bool :=
  match assoc_get k kvs with Some _ => true | None => false end.

(** ** Operations of the Python data model *)

(** The interpreter's recursion limit, which bounds deep comparison and
    serialization. *)
Definition recursion_limit : nat := 1000.

Definition bool_Z (b : bool) : Z := if b then 1%Z else 0%Z.

(** [a == b] on scalars; a bool is an int. *)
Definition atom_eqb (a b : value) : bool :=
  match a, b with
  | VNone, VNone => true
  | VBool x, VBool y => Bool.eqb x y
  | VBool x, VInt y | VInt y, VBool x => Z.eqb (bool_Z x) y
  | VInt x, VInt y => Z.eqb x y
  | VStr x, VStr y => String.eqb x y
  | _, _ => false
  end.

(** Elementwise comparison of two sequences of equal length. *)
Fixpoint all2 (eq : value -> value -> option bool) (xs ys : list value) : option bool :=
  match xs, ys with
  | x :: xs', y :: ys' =>
      match eq x y with
      | Some true => all2 eq xs' ys'
      | r => r
      end
  | _, _ => Some true
  end.

(** Every key of the first dict is in the second, with an equal value. *)
Fixpoint dict_sub (eq : value -> value -> option bool)
    (d1 d2 : list (string * value)) : option bool :=
  match d1 with
  | [] => Some true
  | (k, v) :: r =>
      match assoc_get k d2 with
      | None => Some false
      | Some w =>
          match eq v w with
          | Some true => dict_sub eq r d2
          | res => res
          end
      end
  end.

(** [a == b], as the containers compare their items: the same object is equal
    to itself, lists compare by length and then item by item, dicts by size
    and then key by key.  [None] stands for [RecursionError]. *)
Fixpoint py_eq (fuel : nat) (h : list obj) (a b : value) : option bool :=
  match fuel with
  | O => None
  | S n =>
      match a, b with
      | VRef la, VRef lb =>
          if Nat.eqb la lb then Some true
          else match h !! la, h !! lb with
               | Some (OList xs), Some (OList ys) =>
                   if Nat.eqb (length xs) (length ys)
                   then all2 (py_eq n h) xs ys else Some false
               | Some (ODict d1), Some (ODict d2) =>
                   if Nat.eqb (length d1) (length d2)
                   then dict_sub (py_eq n h) d1 d2 else Some false
               | _, _ => Some false
               end
      | VRef _, _ | _, VRef _ => Some false
      | _, _ => Some (atom_eqb a b)
      end
  end.

Definition py_eq_m (a b : value) : M bool :=
  fun s => match py_eq recursion_limit (heap s) a b with
           | Some r => (Ok r, s)
           | None => (Raise RecursionError, s)
           end.

(** [x in xs] for a Python list whose items are [xs]. *)
Fixpoint py_in_list (x : value) (xs : list value) : M bool :=
  match xs with
  | [] => ret false
  | y :: r => b <- py_eq_m x y ;; if b then ret true else py_in_list x r
  end.

(** [bool(v)] *)
Definition truthy (v : value) : M bool :=
  fun s => (Ok match v with
               | VNone => false
               | VBool b => b
               | VInt z => negb (Z.eqb z 0)
               | VStr x => negb (String.eqb x EmptyString)
               | VRef l =>
                   match heap s !! l with
                   | Some (OList []) | Some (ODict []) => false
                   | _ => true
                   end
               end, s).

Definition isinstance_list (v : value) : M bool :=
  fun s => (Ok match v with
               | VRef l => match heap s !! l with Some (OList _) => true | _ => false end
               | _ => false
               end, s).

Definition isinstance_str (v : value) : M bool :=
  ret match v with VStr _ => true | _ => false end.

(** [c[k]] for a string [k] *)
Definition getitem_key (c : value) (k : string) : M value :=
  fun s => match c with
           | VRef l =>
               match heap s !! l with
               | Some (ODict kvs) =>
                   match assoc_get k kvs with
                   | Some v => (Ok v, s)
                   | None => (Raise KeyError, s)
                   end
               | _ => (Raise TypeError, s)
               end
           | _ => (Raise TypeError, s)
           end.

(** [c[0]] *)
Definition getitem_first (c : value) : M value :=
  fun s => match c with
           | VRef l =>
               match heap s !! l with
               | Some (OList (x :: _)) => (Ok x, s)
               | Some (OList []) => (Raise IndexError, s)
               | Some (ODict _) => (Raise KeyError, s)
               | None => (Raise TypeError, s)
               end
           | VStr (String a _) => (Ok (VStr (String a EmptyString)), s)
           | VStr EmptyString => (Raise IndexError, s)
           | _ => (Raise TypeError, s)
           end.

(** [c[k] = v] for a string [k] *)
Definition setitem_key (c : value) (k : string) (v : value) : M unit :=
  fun s => match c with
           | VRef l =>
               match heap s !! l with
               | Some (ODict kvs) =>
                   (Ok tt, mkState (<[l := ODict (assoc_set k v kvs)]> (heap s)) (logs s))
               | _ => (Raise TypeError, s)
               end
           | _ => (Raise TypeError, s)
           end.

(** [c.get(k, default)]; the default is only built when it is needed. *)
Definition py_get (c : value) (k : string) (default : M value) : M value :=
  fun s => match c with
           | VRef l =>
               match heap s !! l with
               | Some (ODict kvs) =>
                   match assoc_get k kvs with
                   | Some v => (Ok v, s)
                   | None => default s
                   end
               | _ => (Raise AttributeError, s)
               end
           | _ => (Raise AttributeError, s)
           end.

(** [k in c] for a string [k]: a key of a dict, an item of a list, a substring
    of a string. *)
Definition str_in (k : string) (c : value) : M bool :=
  fun s => match c with
           | VStr x => (Ok (str_contains k x), s)
           | VRef l =>
               match heap s !! l with
               | Some (ODict kvs) => (Ok (assoc_mem k kvs), s)
               | Some (OList xs) => (Ok (existsb (atom_eqb (VStr k)) xs), s)
               | None => (Raise TypeError, s)
               end
           | _ => (Raise TypeError, s)
           end.

(** The items that [for x in c] visits. *)
Definition py_iter (c : value) : M (list value) :=
  fun s => match c with
           | VStr x => (Ok (map VStr (str_chars x)), s)
           | VRef l =>
               match heap s !! l with
               | Some (OList xs) => (Ok xs, s)
               | Some (ODict kvs) => (Ok (map (fun kv => VStr (fst kv)) kvs), s)
               | None => (Raise TypeError, s)
               end
           | _ => (Raise TypeError, s)
           end.

(** Looking up [c.extend] or [c.append]: only lists have them. *)
Definition list_method (c : value) : M unit :=
  fun s => match c with
           | VRef l =>
               match heap s !! l with
               | Some (OList _) => (Ok tt, s)
               | _ => (Raise AttributeError, s)
               end
           | _ => (Raise AttributeError, s)
           end.

(** [c.extend(items)] *)
Definition list_extend (c : value) (items : list value) : M unit :=
  fun s => match c with
           | VRef l =>
               match heap s !! l with
               | Some (OList xs) =>
                   (Ok tt, mkState (<[l := OList (xs ++ items)]> (heap s)) (logs s))
               | _ => (Raise AttributeError, s)
               end
           | _ => (Raise AttributeError, s)
           end.

(** [c.append(item)] *)
Definition list_append (c : value) (item : value) : M unit :=
  list_extend c [item].

(** [v.replace('&', 'and')] *)
Definition py_replace (v : value) (c : ascii) (by_ : string) : M value :=
  match v with
  | VStr x => ret (VStr (str_replace c by_ x))
  | _ => raise AttributeError
  end.

(** ** JSON documents in the store *)

(** The objects of a parsed document: children first, then the container. *)
Fixpoint alloc_tree (t : tree) : M value :=
  match t with
  | TNone => ret VNone
  | TBool b => ret (VBool b)
  | TInt z => ret (VInt z)
  | TStr x => ret (VStr x)
  | TList ts =>
      vs <- (fix go (ts : list tree) : M (list value) :=
               match ts with
               | [] => ret []
               | t' :: r => v <- alloc_tree t' ;; vs <- go r ;; ret (v :: vs)
               end) ts ;;
      alloc (OList vs)
  | TDict kts =>
      kvs <- (fix go (kts : list (string * tree)) : M (list (string * value)) :=
                match kts with
                | [] => ret []
                | (k, t') :: r => v <- alloc_tree t' ;; kvs <- go r ;; ret ((k, v) :: kvs)
                end) kts ;;
      alloc (ODict kvs)
  end.

(** The content of a value, read down to the recursion limit (which a
    circular structure always exceeds). *)
Fixpoint tree_of_aux (fuel : nat) (h : list obj) (v : value) : outcome tree :=
  match v with
  | VNone => Ok TNone
  | VBool b => Ok (TBool b)
  | VInt z => Ok (TInt z)
  | VStr x => Ok (TStr x)
  | VRef l =>
      match fuel with
      | O => Raise RecursionError
      | S n =>
          match h !! l with
          | Some (OList xs) =>
              match (fix go (xs : list value) : outcome (list tree) :=
                       match xs with
                       | [] => Ok []
                       | x :: r =>
                           match tree_of_aux n h x with
                           | Ok t => match go r with
                                     | Ok ts => Ok (t :: ts)
                                     | Raise e => Raise e
                                     end
                           | Raise e => Raise e
                           end
                       end) xs with
              | Ok ts => Ok (TList ts)
              | Raise e => Raise e
              end
          | Some (ODict kvs) =>
              match (fix go (kvs : list (string * value)) : outcome (list (string * tree)) :=
                       match kvs with
                       | [] => Ok []
                       | (k, x) :: r =>
                           match tree_of_aux n h x with
                           | Ok t => match go r with
                                     | Ok kts => Ok ((k, t) :: kts)
                                     | Raise e => Raise e
                                     end
                           | Raise e => Raise e
                           end
                       end) kvs with
              | Ok kts => Ok (TDict kts)
              | Raise e => Raise e
              end
          | None => Raise TypeError
          end
      end
  end.

Definition tree_of (v : value) : M tree :=
  fun s => (tree_of_aux recursion_limit (heap s) v, s).

(** The content of an argument or of a structure to serialize. *)
Definition content_of (v : value) : M tree := tree_of v.

(** ** The collaborators of the harvester

    The host application, the standard library and the HTML helpers of the
    extension are outside the file; the harvester is written against their
    interface.  A collaborator gets the content of its arguments and gives
    back the content of its result, which the harvester then holds as new
    objects. *)

Record harvest_source := { source_config : option string }.

Record harvest_object := { content : string; harvest_source_id : string }.

Class Host := {
  (** the parsed description, a [BeautifulSoup] object *)
  Soup : Type;
  (** [json.loads]: [None] stands for the [ValueError] of a malformed text *)
  json_loads : string -> option tree;
  (** [json.dumps(obj, indent=1)] *)
  json_dumps : tree -> string;
  (** [get_action('group_show')(context, {'id': id})] *)
  group_show : tree -> outcome tree;
  (** [converters.dcat_to_ckan] *)
  dcat_to_ckan : tree -> outcome tree;
  (** [HarvestSource.get] *)
  HarvestSource_get : string -> option harvest_source;
  (** [BeautifulSoup(markup, 'html.parser')] *)
  BeautifulSoup : tree -> outcome Soup;
  (** [soup.get_text()] *)
  get_text : Soup -> outcome string;
  (** [str(soup)] *)
  soup_str : Soup -> string;
  (** the helpers of [bs4_helpers]; those that clean the description work on
      the soup in place, so they give back the soup they leave *)
  _remove_all_attrs_except_saving : Soup -> outcome Soup;
  _unwrap_all_except : Soup -> list string -> outcome (tree * Soup);
  _extract_metadata_url : Soup -> tree -> outcome tree;
  _fetch_update_frequency : tree -> outcome tree;
  (** [helpers.convert_date_to_isoformat] *)
  convert_date_to_isoformat : tree -> outcome tree
}.

(** ** The harvester *)

Section Harvester.

Context `{host : Host}.

(** [json.loads(v)]: the objects of the document are new. *)
Definition py_json_loads (v : value) : M value :=
  match v with
  | VStr text =>
      match json_loads text with
      | Some t => alloc_tree t
      | None => raise (ValueError "No JSON object could be decoded")
      end
  | _ => raise TypeError
  end.

(** [json.dumps(v, indent=1)] *)
Definition py_json_dumps (v : value) : M value :=
  t <- content_of v ;; ret (VStr (json_dumps t)).

(** A call of a collaborator on [arg], and the objects of its result. *)
Definition call (f : tree -> outcome tree) (arg : value) : M value :=
  t <- content_of arg ;; r <- lift (f t) ;; alloc_tree r.

Definition validate_config (config : value) : M value :=
  given <- truthy config ;;
  if negb given then ret config
  else
    try_except
      (config_obj <- py_json_loads config ;;
       has_groups <- str_in "default_groups" config_obj ;;
       if has_groups then
         groups <- getitem_key config_obj "default_groups" ;;
         is_list <- isinstance_list groups ;;
         if negb is_list then
           raise (ValueError "default_groups must be a *list* of group names/ids")
         else
           groups <- getitem_key config_obj "default_groups" ;;
           some <- truthy groups ;;
           bad_first <- (if some then
                           groups <- getitem_key config_obj "default_groups" ;;
                           first <- getitem_first groups ;;
                           is_str <- isinstance_str first ;;
                           ret (negb is_str)
                         else ret false) ;;
           if bad_first then
             raise (ValueError "default_groups must be a list of group names/ids (i.e. strings)")
           else
             (* Check if default groups exist *)
             empty <- alloc (OList []) ;;
             setitem_key config_obj "default_group_dicts" empty ;;;
             groups <- getitem_key config_obj "default_groups" ;;
             names <- py_iter groups ;;
             forM_ names (fun group_name_or_id =>
               try_except
                 (group <- call group_show group_name_or_id ;;
                  dicts <- getitem_key config_obj "default_group_dicts" ;;
                  list_method dicts ;;;
                  group_id <- getitem_key group "id" ;;
                  group_name <- getitem_key group "name" ;;
                  entry <- alloc (ODict [("id", group_id); ("name", group_name)]) ;;
                  list_append dicts entry)
                 is_NotFound
                 (fun _ => raise (ValueError "Default group not found"))) ;;;
             py_json_dumps config_obj
       else ret config)
      is_ValueError
      (fun e => raise e).

(** Replace ampersands with "and" in tags. *)
Definition fix_erroneous_tags (package_dict : value) : M unit :=
  tags <- getitem_key package_dict "tags" ;;
  some <- truthy tags ;;
  if some then
    tags <- getitem_key package_dict "tags" ;;
    items <- py_iter tags ;;
    forM_ items (fun tag =>
      has_name <- str_in "name" tag ;;
      has_amp <- (if has_name then
                    name <- getitem_key tag "name" ;; str_in "&" name
                  else ret false) ;;
      if has_amp then
        name <- getitem_key tag "name" ;;
        fixed <- py_replace name "&"%char "and" ;;
        setitem_key tag "name" fixed
      else ret tt)
  else ret tt.

(** The first sentence of the text of the description.  The local [notes] is
    bound by the first statement of the [try] block: when [get_text] raises,
    the [return] after the handler finds it unbound. *)
Definition generate_extract (soup : Soup) : M value :=
  match get_text soup with
  | Ok notes =>
      match str_index "."%char notes with
      | Some index => ret (VStr (str_take (index + 1) notes))
      | None =>
          log_error ("Generate extract error for: " ++ soup_str soup) ;;;
          log_error "substring not found" ;;;
          ret (VStr notes)
      end
  | Raise ex =>
      log_error ("Generate extract error for: " ++ soup_str soup) ;;;
      log_error (exn_str ex) ;;;
      raise UnboundLocalError
  end.

Definition set_description_and_extract (package_dict : value) (soup : Soup) : M Soup :=
  notes <- getitem_key package_dict "notes" ;;
  is_default <- str_in "default.description" notes ;;
  if is_default then
    setitem_key package_dict "notes"
      (VStr "No description has been entered for this dataset.") ;;;
    setitem_key package_dict "extract"
      (VStr "No abstract has been entered for this dataset.") ;;;
    ret soup
  else
    soup <- lift (_remove_all_attrs_except_saving soup) ;;
    cleaned <- lift (_unwrap_all_except soup ["a"; "br"]) ;;
    notes <- alloc_tree (fst cleaned) ;;
    setitem_key package_dict "notes" notes ;;;
    extract <- generate_extract (snd cleaned) ;;
    setitem_key package_dict "extract" extract ;;;
    ret (snd cleaned).

(** [[extra for extra in package_dict['extras'] if extra['key'] == key]] *)
Definition extras_with_key (package_dict : value) (key : string) : M (list value) :=
  extras <- getitem_key package_dict "extras" ;;
  items <- py_iter extras ;;
  filterM (fun extra => k <- getitem_key extra "key" ;; py_eq_m k (VStr key)) items.

Definition is_empty {A} (xs : list A) : bool :=
  match xs with [] => true | _ => false end.

Definition set_full_metadata_url_and_update_frequency
    (harvest_config package_dict : value) (soup : Soup) : M unit :=
  found <- extras_with_key package_dict "full_metadata_url" ;;
  full_metadata_url <- alloc (OList found) ;;
  full_metadata_url <-
    (if is_empty found then
       (* Set the default if it has been added to the harvest source config *)
       has_default <- str_in "default_full_metadata_url" harvest_config ;;
       full_metadata_url <-
         (if has_default then getitem_key harvest_config "default_full_metadata_url"
          else ret full_metadata_url) ;;
       (* Try and extract a full metadata url from the description *)
       has_pattern <- str_in "full_metadata_url_pattern" harvest_config ;;
       if has_pattern then
         pattern <- getitem_key harvest_config "full_metadata_url_pattern" ;;
         desc_full_metadata_url <- call (_extract_metadata_url soup) pattern ;;
         some <- truthy desc_full_metadata_url ;;
         if some then
           frequency <- call _fetch_update_frequency desc_full_metadata_url ;;
           setitem_key package_dict "update_frequency" frequency ;;;
           ret desc_full_metadata_url
         else ret full_metadata_url
       else ret full_metadata_url
     else ret full_metadata_url) ;;
  some <- truthy full_metadata_url ;;
  if some then setitem_key package_dict "full_metadata_url" full_metadata_url
  else ret tt.

(** Set the default group from config. *)
Definition set_default_group (harvest_config package_dict : value) : M unit :=
  default_group_dicts <- py_get harvest_config "default_group_dicts" (alloc (OList [])) ;;
  some <- truthy default_group_dicts ;;
  is_list <- (if some then isinstance_list default_group_dicts else ret false) ;;
  if is_list then
    some <- truthy default_group_dicts ;;
    category <- (if some then getitem_first default_group_dicts else ret VNone) ;;
    has_category <- truthy category ;;
    (if has_category then
       category_id <- py_get category "id" (ret VNone) ;;
       setitem_key package_dict "category" category_id
     else ret tt) ;;;
    has_groups <- str_in "groups" package_dict ;;
    (if negb has_groups then
       empty <- alloc (OList []) ;;
       setitem_key package_dict "groups" empty
     else ret tt) ;;;
    groups <- getitem_key package_dict "groups" ;;
    items <- py_iter groups ;;
    existing_group_ids <- mapM (fun g => getitem_key g "id") items ;;
    groups <- getitem_key package_dict "groups" ;;
    list_method groups ;;;
    defaults <- py_iter default_group_dicts ;;
    missing <- filterM (fun g =>
                 group_id <- getitem_key g "id" ;;
                 known <- py_in_list group_id existing_group_ids ;;
                 ret (negb known)) defaults ;;
    list_extend groups missing
  else ret tt.

(** [if not package_dict['extras'] has key: package_dict[key] = default] *)
Definition default_unless_extra (package_dict : value) (key default : string) : M unit :=
  found <- extras_with_key package_dict key ;;
  if is_empty found then setitem_key package_dict key (VStr default) else ret tt.

(** [value = dcat_dict.get(source)] and, when it is set and no extra has
    [key], [package_dict[key] = helpers.convert_date_to_isoformat(value)] *)
Definition date_unless_extra (dcat_dict package_dict : value) (source key : string) : M unit :=
  date <- py_get dcat_dict source (ret VNone) ;;
  found <- extras_with_key package_dict key ;;
  some <- truthy date ;;
  if some && is_empty found then
    iso <- call convert_date_to_isoformat date ;;
    setitem_key package_dict key iso
  else ret tt.

Definition set_required_fields_defaults
    (harvest_config dcat_dict package_dict : value) : M unit :=
  default_unless_extra package_dict "personal_information" "no" ;;;
  default_unless_extra package_dict "access" "yes" ;;;
  default_unless_extra package_dict "protective_marking" "official" ;;;
  default_unless_extra package_dict "update_frequency" "unknown" ;;;
  default_unless_extra package_dict "organization_visibility" "current" ;;;
  default_unless_extra package_dict "workflow_status" "draft" ;;;
  date_unless_extra dcat_dict package_dict "issued" "date_created_data_asset" ;;;
  date_unless_extra dcat_dict package_dict "modified" "date_modified_data_asset" ;;;
  landing_page <- py_get dcat_dict "landingPage" (ret VNone) ;;
  full_metadata_url <- extras_with_key package_dict "full_metadata_url" ;;
  some <- truthy landing_page ;;
  (if some && is_empty full_metadata_url then
     setitem_key package_dict "full_metadata_url" landing_page
   else ret tt) ;;;
  license_id <- py_get package_dict "license_id" (ret VNone) ;;
  has_license <- truthy license_id ;;
  use_default <- (if negb has_license then str_in "default_license" harvest_config
                  else ret false) ;;
  (if use_default then
     default_license <- py_get harvest_config "default_license" (ret VNone) ;;
     some <- truthy default_license ;;
     if some then
       default_license_id <- py_get default_license "id" (ret VNone) ;;
       default_license_title <- py_get default_license "title" (ret VNone) ;;
       has_id <- truthy default_license_id ;;
       (if has_id then setitem_key package_dict "license_id" default_license_id
        else ret tt) ;;;
       has_title <- truthy default_license_title ;;
       if has_title then
         setitem_key package_dict "custom_licence_text" default_license_title
       else ret tt
     else ret tt
   else ret tt) ;;;
  keywords <- py_get dcat_dict "keyword" (ret VNone) ;;
  some <- truthy keywords ;;
  tag_string <- (if some then ret keywords else alloc (OList [])) ;;
  setitem_key package_dict "tag_string" tag_string.

(** The harvest source configuration of the harvest object, or [None] when
    the source or its configuration cannot be read. *)
Definition load_harvest_config (harvest_object : harvest_object) : M value :=
  try_except
    (match HarvestSource_get (harvest_source_id harvest_object) with
     | Some harvest_source =>
         match source_config harvest_source with
         | Some config => py_json_loads (VStr config)
         | None => raise TypeError
         end
     | None => raise AttributeError
     end)
    is_Exception
    (fun _ => ret VNone).

(** The Data.Vic specific steps of the conversion, in the order of the
    source. *)
Definition datavic_conversion
    (harvest_config dcat_dict package_dict : value) (soup : Soup) : M unit :=
  soup <- set_description_and_extract package_dict soup ;;
  set_full_metadata_url_and_update_frequency harvest_config package_dict soup ;;;
  fix_erroneous_tags package_dict ;;;
  set_default_group harvest_config package_dict ;;;
  set_required_fields_defaults harvest_config dcat_dict package_dict.

(** What [_get_package_dict] has at hand before the Data.Vic steps: the parsed
    record, the package dict of the generic converter, the configuration and
    the parsed description. *)
Definition load_harvest_object (harvest_object : harvest_object)
    : M (value * value * value * Soup) :=
  dcat_dict <- py_json_loads (VStr (content harvest_object)) ;;
  package_dict <- call dcat_to_ckan dcat_dict ;;
  harvest_config <- load_harvest_config harvest_object ;;
  notes <- getitem_key package_dict "notes" ;;
  markup <- content_of notes ;;
  soup <- lift (BeautifulSoup markup) ;;
  ret (dcat_dict, package_dict, harvest_config, soup).

(** Converts a DCAT dataset into a CKAN dataset and performs some Data.Vic
    specific conversion of the data. *)
Definition _get_package_dict (harvest_object : harvest_object) : M (value * value) :=
  loaded <- load_harvest_object harvest_object ;;
  let '(dcat_dict, package_dict, harvest_config, soup) := loaded in
  datavic_conversion harvest_config dcat_dict package_dict soup ;;;
  ret (package_dict, dcat_dict).

End Harvester.

(** ** A reference host

    A small host to run the harvester on concrete documents: a reader and a
    writer for JSON documents without escapes and with integer numbers, plain
    text descriptions, and a catalogue with two groups and three harvest
    sources. *)

Module Reference.

Definition is_space (a : ascii) : bool :=
  Ascii.eqb a " " || Ascii.eqb a "010" || Ascii.eqb a "009" || Ascii.eqb a "013".

Definition is_digit (a : ascii) : bool :=
  let n := nat_of_ascii a in Nat.leb 48 n && Nat.leb n 57.

Fixpoint skip_space (s : string) : string :=
  match s with
  | String a r => if is_space a then skip_space r else s
  | EmptyString => s
  end.

(** The characters up to the closing quote, and the rest after it. *)
Fixpoint read_string (s : string) : option (string * string) :=
  match s with
  | EmptyString => None
  | String a r =>
      if Ascii.eqb a "034" then Some (EmptyString, r)
      else if Ascii.eqb a "\" then None
      else match read_string r with
           | Some (x, rest) => Some (String a x, rest)
           | None => None
           end
  end.

Fixpoint read_digits (s : string) : string * string :=
  match s with
  | String a r =>
      if is_digit a then let '(d, rest) := read_digits r in (String a d, rest)
      else (EmptyString, s)
  | EmptyString => (EmptyString, EmptyString)
  end.

Definition read_literal (lit : string) (t : tree) (s : string) : option (tree * string) :=
  if String.prefix lit s
  then Some (t, String.substring (String.length lit) (String.length s - String.length lit) s)
  else None.

Definition read_number (s : string) : option (tree * string) :=
  let '(sign, body) := match s with
                       | String "-" r => ("-", r)
                       | _ => (EmptyString, s)
                       end in
  let '(digits, rest) := read_digits body in
  match digits with
  | EmptyString => None
  | _ => match NilZero.int_of_string (sign ++ digits) with
         | Some i => Some (TInt (Z.of_int i), rest)
         | None => None
         end
  end.

Fixpoint read_value (fuel : nat) (s : string) : option (tree * string) :=
  match fuel with
  | O => None
  | S n =>
      match skip_space s with
      | String "n" _ as w => read_literal "null" TNone w
      | String "t" _ as w => read_literal "true" (TBool true) w
      | String "f" _ as w => read_literal "false" (TBool false) w
      | String "034" r =>
          match read_string r with
          | Some (x, rest) => Some (TStr x, rest)
          | None => None
          end
      | String "[" r =>
          match skip_space r with
          | String "]" rest => Some (TList [], rest)
          | _ =>
              match (fix items (k : nat) (s : string) : option (list tree * string) :=
                       match k with
                       | O => None
                       | S k' =>
                           match read_value n s with
                           | Some (t, rest) =>
                               match skip_space rest with
                               | String "," rest' =>
                                   match items k' rest' with
                                   | Some (ts, rest'') => Some (t :: ts, rest'')
                                   | None => None
                                   end
                               | String "]" rest' => Some ([t], rest')
                               | _ => None
                               end
                           | None => None
                           end
                       end) n r with
              | Some (ts, rest) => Some (TList ts, rest)
              | None => None
              end
          end
      | String "{" r =>
          match skip_space r with
          | String "}" rest => Some (TDict [], rest)
          | _ =>
              match (fix members (k : nat) (s : string)
                       : option (list (string * tree) * string) :=
                       match k with
                       | O => None
                       | S k' =>
                           match skip_space s with
                           | String "034" s1 =>
                               match read_string s1 with
                               | Some (key, s2) =>
                                   match skip_space s2 with
                                   | String ":" s3 =>
                                       match read_value n s3 with
                                       | Some (t, rest) =>
                                           match skip_space rest with
                                           | String "," rest' =>
                                               match members k' rest' with
                                               | Some (kts, rest'') =>
                                                   Some ((key, t) :: kts, rest'')
                                               | None => None
                                               end
                                           | String "}" rest' => Some ([(key, t)], rest')
                                           | _ => None
                                           end
                                       | None => None
                                       end
                                   | _ => None
                                   end
                               | None => None
                               end
                           | _ => None
                           end
                       end) n r with
              | Some (kts, rest) =>
                  (* a repeated key keeps its first place and its last value *)
                  Some (TDict (fold_left (fun d kt => assoc_set (fst kt) (snd kt) d) kts []),
                        rest)
              | None => None
              end
          end
      | w => read_number w
      end
  end.

Definition loads (s : string) : option tree :=
  match read_value (S (String.length s)) s with
  | Some (t, rest) =>
      match skip_space rest with
      | EmptyString => Some t
      | _ => None
      end
  | None => None
  end.

Definition newline : string := String "010" EmptyString.

Fixpoint spaces (n : nat) : string :=
  match n with
  | O => EmptyString
  | S n' => String " " (spaces n')
  end.

Definition quote : string := String "034" EmptyString.

Definition quoted (s : string) : string := (quote ++ s ++ quote)%string.

Fixpoint join (sep : string) (xs : list string) : string :=
  match xs with
  | [] => EmptyString
  | [x] => x
  | x :: r => (x ++ sep ++ join sep r)%string
  end.

(** The layout of [json.dumps(obj, indent=1)]. *)
Fixpoint write_value (level : nat) (t : tree) : string :=
  match t with
  | TNone => "null"
  | TBool true => "true"
  | TBool false => "false"
  | TInt z => NilZero.string_of_int (Z.to_int z)
  | TStr x => quoted x
  | TList [] => "[]"
  | TList ts =>
      ("[" ++ newline ++ spaces (S level)
       ++ join ("," ++ newline ++ spaces (S level)) (map (write_value (S level)) ts)
       ++ newline ++ spaces level ++ "]")%string
  | TDict [] => "{}"
  | TDict kts =>
      ("{" ++ newline ++ spaces (S level)
       ++ join ("," ++ newline ++ spaces (S level))
            (map (fun kt : string * tree =>
                    quoted (fst kt) ++ ": " ++ write_value (S level) (snd kt)) kts)
       ++ newline ++ spaces level ++ "}")%string
  end.

Definition dumps (t : tree) : string := write_value 0 t.

(** The examples write a JSON text with ['] for its double quotes. *)
Definition json_text (s : string) : string := str_replace "'" quote s.

Definition tree_get (k : string) (t : tree) : tree :=
  match t with
  | TDict kts => match assoc_get k kts with Some v => v | None => TNone end
  | _ => TNone
  end.

(** The groups of the catalogue, by name or id. *)
Definition show_group (id : tree) : outcome tree :=
  match id with
  | TStr "spatial-data" | TStr "g1" =>
      Ok (TDict [("id", TStr "g1"); ("name", TStr "spatial-data");
                 ("title", TStr "Spatial Data")])
  | TStr "transport" | TStr "g2" =>
      Ok (TDict [("id", TStr "g2"); ("name", TStr "transport");
                 ("title", TStr "Transport")])
  | _ => Raise NotFound
  end.

(** The generic converter, for the fields the harvester looks at: title,
    description, landing page, one tag per keyword, and the extras of the
    dates, the identifier and the language. *)
Definition to_ckan (dcat : tree) : outcome tree :=
  match dcat with
  | TDict _ =>
      match tree_get "keyword" dcat with
      | TList keywords =>
          Ok (TDict [("title", tree_get "title" dcat);
                     ("notes", tree_get "description" dcat);
                     ("url", tree_get "landingPage" dcat);
                     ("tags", TList (map (fun k => TDict [("name", k)]) keywords));
                     ("extras", TList [TDict [("key", TStr "dcat_issued");
                                              ("value", tree_get "issued" dcat)];
                                       TDict [("key", TStr "dcat_modified");
                                              ("value", tree_get "modified" dcat)];
                                       TDict [("key", TStr "guid");
                                              ("value", tree_get "identifier" dcat)]]);
                     ("resources", TList [])])
      | TNone =>
          Ok (TDict [("title", tree_get "title" dcat);
                     ("notes", tree_get "description" dcat);
                     ("url", tree_get "landingPage" dcat);
                     ("tags", TList []);
                     ("extras", TList [TDict [("key", TStr "dcat_issued");
                                              ("value", tree_get "issued" dcat)];
                                       TDict [("key", TStr "dcat_modified");
                                              ("value", tree_get "modified" dcat)];
                                       TDict [("key", TStr "guid");
                                              ("value", tree_get "identifier" dcat)]]);
                     ("resources", TList [])])
      | _ => Raise TypeError
      end
  | _ => Raise AttributeError
  end.

Definition get_source (id : string) : option harvest_source :=
  if String.eqb id "source-plain" then Some {| source_config := Some "{}" |}
  else if String.eqb id "source-groups" then
    Some {| source_config :=
      Some (json_text "{'default_group_dicts': [{'id': 'g1', 'name': 'spatial-data'}, {'id': 'g2', 'name': 'transport'}], 'default_license': {'id': 'cc-by', 'title': 'CC BY 4.0'}}") |}
  else if String.eqb id "source-unset" then Some {| source_config := None |}
  else None.

(** A description is a plain text: it is its own text, it has nothing to
    clean and no link to extract. *)
Definition parse_description (markup : tree) : outcome string :=
  match markup with
  | TStr text => Ok text
  | _ => Raise TypeError
  end.

Definition to_isoformat (date : tree) : outcome tree :=
  match date with
  | TStr _ => Ok date
  | _ => Raise AttributeError
  end.

#[export] Instance host : Host := {|
  Soup := string;
  json_loads := loads;
  json_dumps := dumps;
  group_show := show_group;
  dcat_to_ckan := to_ckan;
  HarvestSource_get := get_source;
  BeautifulSoup := parse_description;
  get_text := fun soup => Ok soup;
  soup_str := fun soup => soup;
  _remove_all_attrs_except_saving := fun soup => Ok soup;
  _unwrap_all_except := fun soup _ => Ok (TStr soup, soup);
  _extract_metadata_url := fun _ _ => Ok TNone;
  _fetch_update_frequency := fun _ => Ok (TStr "unknown");
  convert_date_to_isoformat := to_isoformat
|}.

(** The state before anything is allocated or logged. *)
Definition start : state := mkState [] [].

End Reference.

(** ** Vocabulary of the specifications *)

(** The values an object holds. *)
Definition obj_values (o : obj) : list value :=
  match o with
  | OList xs => xs
  | ODict kvs => map snd kvs
  end.

(** [repr h v t]: in the store [h], the value [v] has the content [t]. *)
Inductive repr (h : list obj) : value -> tree -> Prop :=
| repr_none : repr h VNone TNone
| repr_bool b : repr h (VBool b) (TBool b)
| repr_int z : repr h (VInt z) (TInt z)
| repr_str x : repr h (VStr x) (TStr x)
| repr_list l xs ts :
    h !! l = Some (OList xs) -> Forall2 (repr h) xs ts -> repr h (VRef l) (TList ts)
| repr_dict l kvs kts :
    h !! l = Some (ODict kvs) ->
    Forall2 (fun kv kt => fst kv = fst kt /\ repr h (snd kv) (snd kt)) kvs kts ->
    repr h (VRef l) (TDict kts).

(** A reference in [v] points into [lo, hi). *)
Definition val_in (lo hi : nat) (v : value) : Prop :=
  forall l, v = VRef l -> lo <= l < hi.

(** The objects [ext] put at [n] only refer to objects put at [n] or later,
    and before themselves. *)
Definition closed (n : nat) (ext : list obj) : Prop :=
  forall i o l, ext !! i = Some o -> VRef l ∈ obj_values o -> n <= l < n + i.

(** The store [h] has the objects [ext] at [n]. *)
Definition agrees (h : list obj) (n : nat) (ext : list obj) : Prop :=
  forall i o, ext !! i = Some o -> h !! (n + i) = Some o.

(** A computation that returns and only adds objects. *)
Definition allocates {X} (m : M X) (R : nat -> X -> list obj -> Prop) : Prop :=
  forall s, exists x ext,
    m s = (Ok x, mkState (heap s ++ ext) (logs s)) /\ R (length (heap s)) x ext.

(** What the new objects of a document [t] look like. *)
Definition good (t : tree) (n : nat) (v : value) (ext : list obj) : Prop :=
  val_in n (n + length ext) v /\ closed n ext /\ forall h, agrees h n ext -> repr h v t.

(** The objects of the items of a list, and of the values of a dict. *)
Definition goods (ts : list tree) (n : nat) (vs : list value) (ext : list obj) : Prop :=
  Forall (val_in n (n + length ext)) vs /\ closed n ext /\
  forall h, agrees h n ext -> Forall2 (repr h) vs ts.

Definition good_pairs (kts : list (string * tree)) (n : nat)
    (kvs : list (string * value)) (ext : list obj) : Prop :=
  Forall (val_in n (n + length ext)) (map snd kvs) /\ closed n ext /\
  forall h, agrees h n ext ->
    Forall2 (fun kv kt => fst kv = fst kt /\ repr h (snd kv) (snd kt)) kvs kts.

(** A computation that leaves the state as it is. *)
Definition reads {X} (m : M X) : Prop := forall s, snd (m s) = s.

(** [fp A K s s']: from [s] to [s'] the store has only grown, and an object of
    [s] is the same in [s'] unless it is a dict at a location of [A], which
    then has kept the entries of the keys selected by [K]. *)
Definition fp (A : loc -> Prop) (K : string -> bool) (s s' : state) : Prop :=
  length (heap s) <= length (heap s') /\
  forall l, l < length (heap s) ->
    heap s' !! l = heap s !! l \/
    (A l /\ exists d d', heap s !! l = Some (ODict d) /\ heap s' !! l = Some (ODict d') /\
                      forall k, K k = true -> assoc_get k d' = assoc_get k d).

Definition writer (A : loc -> Prop) (K : string -> bool) {X} (m : M X) : Prop :=
  forall s, fp A K s (snd (m s)).

(** [changed_only A s s']: the objects of [s] outside [A] are the same in [s']. *)
Definition changed_only (A : loc -> Prop) (s s' : state) : Prop :=
  length (heap s) <= length (heap s') /\
  forall l, l < length (heap s) -> ~ A l -> heap s' !! l = heap s !! l.

(** What [fix_erroneous_tags] does to the entries of one tag. *)
Definition fix_tag (kvs : list (string * value)) : list (string * value) :=
  match assoc_get "name" kvs with
  | Some (VStr x) =>
      if str_contains "&" x then assoc_set "name" (VStr (str_replace "&"%char "and" x)) kvs
      else kvs
  | _ => kvs
  end.

Definition name_is_str (kvs : list (string * value)) : Prop :=
  forall v, assoc_get "name" kvs = Some v -> exists x, v = VStr x.

(** A tag as the package dict has them: a dict whose name, if any, is a
    string. *)
Definition tag_ok (h : list obj) (t : value) : Prop :=
  exists e kvs, t = VRef e /\ h !! e = Some (ODict kvs) /\ name_is_str kvs.

Definition fix_obj (o : obj) : obj :=
  match o with
  | ODict kvs => ODict (fix_tag kvs)
  | OList xs => OList xs
  end.

(** The nesting of a document. *)
Fixpoint depth (t : tree) : nat :=
  match t with
  | TList ts => S (fold_right (fun t' d => Nat.max (depth t') d) 0 ts)
  | TDict kts => S (fold_right (fun kt d => Nat.max (depth (snd kt)) d) 0 kts)
  | _ => 0
  end.

(** ['default_groups' in config_obj] is false for the document. *)
Definition no_default_groups (t : tree) : Prop :=
  match t with
  | TDict kts => assoc_mem "default_groups" kts = false
  | TList ts =>
      existsb (fun t' => match t' with
                         | TStr x => String.eqb "default_groups" x
                         | _ => false
                         end) ts = false
  | TStr x => str_contains "default_groups" x = false
  | _ => False
  end.

(** [has_extra h pkg f]: one of the extras of the package dict has the key
    [f]. *)
Definition has_extra (h : list obj) (pkg : value) (f : string) : Prop :=
  exists p d le xs e de,
    pkg = VRef p /\ h !! p = Some (ODict d) /\ assoc_get "extras" d = Some (VRef le) /\
    h !! le = Some (OList xs) /\ VRef e ∈ xs /\ h !! e = Some (ODict de) /\
    assoc_get "key" de = Some (VStr f).

(** [has_field h pkg f v]: the package dict has the value [v] under [f]. *)
Definition has_field (h : list obj) (pkg : value) (f : string) (v : value) : Prop :=
  exists p d, pkg = VRef p /\ h !! p = Some (ODict d) /\ assoc_get f d = Some v.

(** The organizational fields a dataset must have, with their defaults. *)
Definition required_defaults : list (string * string) :=
  [("organization_visibility", "current"); ("access", "yes");
   ("workflow_status", "draft"); ("personal_information", "no");
   ("protective_marking", "official"); ("update_frequency", "unknown")].

(** The keys a footprint has to keep for the field [f] to stay as it is. *)
Definition keeps_field (f : string) (k : string) : bool :=
  String.eqb k "extras" || String.eqb k "key" || String.eqb k f.

Definition anywhere (l : loc) : Prop := True.

Definition is_str_value (v : value) : Prop := exists x, v = VStr x.

(** The keys of the package dict that lead to objects the later steps update. *)
Definition tags_groups (k : string) : bool :=
  String.eqb k "tags" || String.eqb k "groups".

(** *** Runs from different stores

    A run only refers to the objects it has made: started in a store that
    already holds [h0], it makes the same objects, [length h0] places
    further. *)

Definition shift_val (k : nat) (v : value) : value :=
  match v with
  | VRef l => VRef (k + l)
  | _ => v
  end.

Definition shift_kvs (k : nat) (kvs : list (string * value)) : list (string * value) :=
  map (fun kv => (fst kv, shift_val k (snd kv))) kvs.

Definition shift_obj (k : nat) (o : obj) : obj :=
  match o with
  | OList xs => OList (map (shift_val k) xs)
  | ODict kvs => ODict (shift_kvs k kvs)
  end.

(** The state [s] of a run, seen from a run that started with the store [h0]
    and the log [lg0]. *)
Definition embed (h0 : list obj) (lg0 : list string) (s : state) : state :=
  mkState (h0 ++ map (shift_obj (length h0)) (heap s)) (lg0 ++ logs s).

Definition shift_outcome {X} (sh : X -> X) (r : outcome X) : outcome X :=
  match r with
  | Ok x => Ok (sh x)
  | Raise e => Raise e
  end.

(** [related h0 lg0 sh m1 m2]: the computation [m1], in a store that starts
    with [h0], does what [m2] does without it. *)
Definition related {X} (h0 : list obj) (lg0 : list string) (sh : X -> X)
    (m1 m2 : M X) : Prop :=
  forall s, m1 (embed h0 lg0 s)
            = (shift_outcome sh (fst (m2 s)), embed h0 lg0 (snd (m2 s))).

Definition shift_pair (h0 : list obj) (x : value * value) : value * value :=
  (shift_val (length h0) (fst x), shift_val (length h0) (snd x)).

(** What a caller can see of the result of [_get_package_dict]: the content
    of the two dicts, read with the bound [fuel], or the exception. *)
Definition view (fuel : nat) (r : outcome (value * value) * state)
    : outcome (outcome tree * outcome tree) :=
  match fst r with
  | Ok (package_dict, dcat_dict) =>
      Ok (tree_of_aux fuel (heap (snd r)) package_dict,
          tree_of_aux fuel (heap (snd r)) dcat_dict)
  | Raise e => Raise e
  end.

Section FrameVocabulary.

Context (A : loc -> Prop) (n : nat) (p : loc).

(** The group list of the package dict, if it has one, may be updated. *)
Definition groups_in (s : state) : Prop :=
  forall d t, heap s !! p = Some (ODict d) -> assoc_get "groups" d = Some (VRef t) -> A t.

(** The tags of the package dict may be updated, and their list is not new. *)
Definition tags_in (s : state) : Prop :=
  forall d lt, heap s !! p = Some (ODict d) -> assoc_get "tags" d = Some (VRef lt) ->
    lt < n /\ forall xs e, heap s !! lt = Some (OList xs) -> VRef e ∈ xs -> A e.

Definition placed (s : state) : Prop := p < length (heap s) /\ n <= length (heap s).

(** A step that keeps the package dict in place and its group list up to
    date. *)
Definition group_step {X} (m : M X) : Prop :=
  forall s, placed s -> groups_in s ->
    changed_only A s (snd (m s)) /\
    forall x s1, m s = (Ok x, s1) -> placed s1 /\ groups_in s1.

End FrameVocabulary.

(** [has_id h v i]: the value [v] is a group dict of [h] with the id [i]. *)
Definition has_id (h : list obj) (v : value) (i : string) : Prop :=
  exists l kvs, v = VRef l /\ h !! l = Some (ODict kvs) /\ assoc_get "id" kvs = Some (VStr i).

(** The default groups to add to a package: those whose id is not among the
    ids of the groups the package has. *)
Definition missing_groups (ids : list string) (defaults : list value) (dids : list string)
    : list value :=
  map fst (filter (fun gi => negb (existsb (String.eqb (snd gi)) ids)) (zip defaults dids)).

Section HostVocabulary.

Context `{host : Host}.

(** The host knows the group [x]: its lookup gives a group dict with an id and
    a name. *)
Definition group_found (x : string) : Prop :=
  exists gk i nm, group_show (TStr x) = Ok (TDict gk) /\
    assoc_get "id" gk = Some (TStr i) /\ assoc_get "name" gk = Some (TStr nm).

(** An entry of [default_group_dicts]. *)
Definition group_entry (h : list obj) (v : value) : Prop :=
  exists e i nm, v = VRef e /\ h !! e = Some (ODict [("id", VStr i); ("name", VStr nm)]).

(** A configuration that passes the validation: a JSON object whose
    [default_groups], if any, is a list of names or ids of groups of the
    host. *)
Definition valid_config (t : tree) : Prop :=
  match t with
  | TDict kts =>
      match assoc_get "default_groups" kts with
      | None => True
      | Some (TList gts) => exists names, gts = map TStr names /\ Forall group_found names
      | Some _ => False
      end
  | _ => False
  end.


(** The extract of a text: its first sentence, or all of it when it has no
    full stop. *)
Definition extract_of (text : string) : string :=
  match str_index "."%char text with
  | Some index => str_take (index + 1) text
  | None => text
  end.

(** The records logged while the extract of [text] is taken. *)
Definition extract_logs (soup : Soup) (text : string) : list string :=
  match str_index "."%char text with
  | Some _ => []
  | None => [("Generate extract error for: " ++ soup_str soup)%string;
             "substring not found"]
  end.

Definition shift_loaded (h0 : list obj) (x : value * value * value * Soup)
    : value * value * value * Soup :=
  let '(dcat_dict, package_dict, harvest_config, soup) := x in
  (shift_val (length h0) dcat_dict, shift_val (length h0) package_dict,
   shift_val (length h0) harvest_config, soup).

End HostVocabulary.

(** ** Concrete documents *)

Module Examples.

Import Reference.

(** A record with a description, two keywords and a date, harvested from a
    source whose configuration has two default groups and a license. *)
Definition record : harvest_object :=
  {| content := json_text "{'title': 'Trees', 'description': 'Street trees. Surveyed & mapped', 'keyword': ['parks & gardens', 'trees'], 'issued': '2020-01-01', 'landingPage': 'http://example.org/trees'}";
     harvest_source_id := "source-groups" |}.

(** A package dict with a description without a full stop. *)
Definition undescribed : state :=
  mkState [ODict [("notes", VStr "Population by suburb")]] [].

(** A package dict with two tags, one of them without a name. *)
Definition tagged : state :=
  mkState [ODict [("name", VStr "parks & gardens"); ("vocabulary_id", VNone)];
           ODict [("display_name", VStr "trees")];
           OList [VRef 0; VRef 1];
           ODict [("tags", VRef 2)]] [].

(** A configuration with the default groups [g1] and [g2], and a package dict
    that is in the group [g2]. *)
Definition grouped : state :=
  mkState [ODict [("id", VStr "g1"); ("name", VStr "spatial-data")];
           ODict [("id", VStr "g2"); ("name", VStr "transport")];
           OList [VRef 0; VRef 1];
           ODict [("default_group_dicts", VRef 2)];
           ODict [("id", VStr "g2")];
           OList [VRef 4];
           ODict [("groups", VRef 5)]] [].

(** A configuration that lists the default group [g1] twice, and a package
    dict without groups. *)
Definition doubled : state :=
  mkState [ODict [("id", VStr "g1"); ("name", VStr "spatial-data")];
           ODict [("id", VStr "g1"); ("name", VStr "spatial-data")];
           OList [VRef 0; VRef 1];
           ODict [("default_group_dicts", VRef 2)];
           ODict []] [].

End Examples.


(** ** The lookup of an existing dataset

    [_get_existing_dataset] is written against the harvester it inherits from
    and against the host: the query for the datasets with a guid, the name of
    the user that harvests, and the [package_show] action. *)

Class Catalogue := {
  (** [self._read_datasets_from_db(guid)]: the rows of the query, each with
      the id of a dataset *)
  _read_datasets_from_db : string -> outcome tree;
  (** [self._get_user_name()] *)
  _get_user_name : outcome tree;
  (** [toolkit.get_action('package_show')(context, data_dict)] *)
  package_show : tree -> tree -> outcome tree
}.

(** [len(c)] *)
Definition py_len (c : value) : M nat :=
  fun s => match c with
           | VStr x => (Ok (String.length x), s)
           | VRef l =>
               match heap s !! l with
               | Some (OList xs) => (Ok (length xs), s)
               | Some (ODict kvs) => (Ok (length kvs), s)
               | None => (Raise TypeError, s)
               end
           | _ => (Raise TypeError, s)
           end.

Section ExistingDataset.

Context `{catalogue : Catalogue}.

(** Checks if a dataset with a certain guid extra already exists; returns a
    dict as the ones returned by [package_show]. *)
Definition _get_existing_dataset (guid : string) : M value :=
  rows <- lift (_read_datasets_from_db guid) ;;
  datasets <- alloc_tree rows ;;
  some <- truthy datasets ;;
  if negb some then ret VNone
  else
    n <- py_len datasets ;;
    (if Nat.ltb 1 n then
       log_error ("Found more than one dataset with the same guid: " ++ guid)
     else ret tt) ;;;
    user <- (name <- lift _get_user_name ;; alloc_tree name) ;;
    context <- alloc (ODict [("user", user); ("ignore_auth", VBool true)]) ;;
    first <- getitem_first datasets ;;
    id <- getitem_first first ;;
    data_dict <- alloc (ODict [("id", id)]) ;;
    context_content <- content_of context ;;
    data_content <- content_of data_dict ;;
    shown <- lift (package_show context_content data_content) ;;
    alloc_tree shown.

End ExistingDataset.

(** ** The harvester and the harvest object as objects of the host

    A call of [_get_package_dict] is given the harvester and a harvest object.
    Both are objects of the host that are there before the call and after it,
    so the store holds them: an instance is held by the dict of its
    attributes. *)

(** [o.name] *)
Definition getattr (o : value) (name : string) : M value :=
  fun s => match o with
           | VRef l =>
               match heap s !! l with
               | Some (ODict attrs) =>
                   match assoc_get name attrs with
                   | Some v => (Ok v, s)
                   | None => (Raise AttributeError, s)
                   end
               | _ => (Raise AttributeError, s)
               end
           | _ => (Raise AttributeError, s)
           end.

Module Stored.

Section Methods.

Context `{host : Host}.

(** The harvest source configuration of the harvest object, or [None] when
    the source or its configuration cannot be read: the handler takes every
    exception of the two statements, also the one for a harvest object
    without a source id or with one that is no string. *)
Definition load_harvest_config (harvest_object : value) : M value :=
  try_except
    (harvest_source_id <- getattr harvest_object "harvest_source_id" ;;
     match harvest_source_id with
     | VStr id =>
         match HarvestSource_get id with
         | Some harvest_source =>
             match source_config harvest_source with
             | Some config => py_json_loads (VStr config)
             | None => raise TypeError
             end
         | None => raise AttributeError
         end
     | _ => raise AttributeError
     end)
    is_Exception
    (fun _ => ret VNone).

Definition load_harvest_object (harvest_object : value)
    : M (value * value * value * Soup) :=
  content <- getattr harvest_object "content" ;;
  dcat_dict <- py_json_loads content ;;
  package_dict <- call dcat_to_ckan dcat_dict ;;
  harvest_config <- load_harvest_config harvest_object ;;
  notes <- getitem_key package_dict "notes" ;;
  markup <- content_of notes ;;
  soup <- lift (BeautifulSoup markup) ;;
  ret (dcat_dict, package_dict, harvest_config, soup).

(** [_get_package_dict(self, harvest_object)]: no statement of the method, or
    of the methods it calls, reads or assigns an attribute of [self]. *)
Definition _get_package_dict (self harvest_object : value) : M (value * value) :=
  loaded <- load_harvest_object harvest_object ;;
  let '(dcat_dict, package_dict, harvest_config, soup) := loaded in
  datavic_conversion harvest_config dcat_dict package_dict soup ;;;
  ret (package_dict, dcat_dict).

End Methods.

End Stored.

Section StoredVocabulary.

Context `{host : Host}.

(** [harvest_object_at h o ho]: the value [o] is a harvest object of the
    store, with the content and the harvest source id of [ho]. *)
Definition harvest_object_at (h : list obj) (o : value) (ho : harvest_object) : Prop :=
  exists l attrs, o = VRef l /\ h !! l = Some (ODict attrs) /\
    assoc_get "content" attrs = Some (VStr (content ho)) /\
    assoc_get "harvest_source_id" attrs = Some (VStr (harvest_source_id ho)).

(** The configuration of the harvest source with the id [id], when the host
    has the source and the source has a configuration. *)
Definition configuration_of (id : string) : option string :=
  match HarvestSource_get id with
  | Some harvest_source => source_config harvest_source
  | None => None
  end.

End StoredVocabulary.

(** ** Vocabulary of the further properties *)

(** The records logged for the rows of a guid, after the first. *)
Definition duplicate_logs (guid : string) (others : list tree) : list string :=
  match others with
  | [] => []
  | _ :: _ => [("Found more than one dataset with the same guid: " ++ guid)%string]
  end.

Definition is_list_tree (t : tree) : bool :=
  match t with TList _ => true | _ => false end.

Definition is_str_tree (t : tree) : bool :=
  match t with TStr _ => true | _ => false end.

Definition is_dict_tree (t : tree) : bool :=
  match t with TDict _ => true | _ => false end.

(** A value that is neither a string nor an object: [None], a boolean or a
    number. *)
Definition is_scalar (v : value) : bool :=
  match v with
  | VNone | VBool _ | VInt _ => true
  | VStr _ | VRef _ => false
  end.

(** The key of an extra of the package dict, when it is a dict with a
    ['key']. *)
Definition extra_key (h : list obj) (v : value) : option value :=
  match v with
  | VRef e =>
      match h !! e with
      | Some (ODict de) => assoc_get "key" de
      | _ => None
      end
  | _ => None
  end.

(** The extras with the key [key], in their order. *)
Definition extras_for (h : list obj) (key : string) (xs : list value) : list value :=
  filter (fun v => extra_key h v = Some (VStr key)) xs.

(** [package_has_extras h p d xs]: the package dict at [p] has the entries
    [d], and its extras are the dicts [xs], each with a key. *)
Definition package_has_extras (h : list obj) (p : loc) (d : list (string * value))
    (xs : list value) : Prop :=
  h !! p = Some (ODict d) /\
  exists le, assoc_get "extras" d = Some (VRef le) /\ h !! le = Some (OList xs) /\
    Forall (fun v => is_Some (extra_key h v)) xs.

(** [default_group_dicts and isinstance(default_group_dicts, list)] *)
Definition is_nonempty_list (h : list obj) (v : value) : bool :=
  match v with
  | VRef l => match h !! l with Some (OList (_ :: _)) => true | _ => false end
  | _ => false
  end.

(** The ids of the default groups that [missing_groups] selects. *)
Definition missing_ids (ids dids : list string) : list string :=
  filter (fun i => negb (existsb (String.eqb i) ids)) dids.

(** The dates that [set_required_fields_defaults] takes from the record: the
    key of the record and the key of the package dict. *)
Definition record_dates : list (string * string) :=
  [("issued", "date_created_data_asset"); ("modified", "date_modified_data_asset")].

(** The keys that [set_required_fields_defaults] only sets when no extra has
    them. *)
Definition guarded_fields : list string :=
  map fst required_defaults
  ++ ["date_created_data_asset"; "date_modified_data_asset"; "full_metadata_url"].

(** The keys a footprint has to keep for the license of the package dict and
    the default license of the configuration to stay as they are. *)
Definition keeps_license (k : string) : bool :=
  String.eqb k "license_id" || String.eqb k "custom_licence_text"
  || String.eqb k "default_license" || String.eqb k "id" || String.eqb k "title".

(** No key is kept: a footprint that only tells which objects stay lists. *)
Definition no_key (k : string) : bool := false.

Section MoreHostVocabulary.

Context `{host : Host}.

(** The entry that [validate_config] keeps of the group [x]: the id and the
    name that the host gives for it. *)
Definition group_dict (x : string) : tree :=
  match group_show (TStr x) with
  | Ok (TDict gk) =>
      match assoc_get "id" gk, assoc_get "name" gk with
      | Some i, Some nm => TDict [("id", i); ("name", nm)]
      | _, _ => TNone
      end
  | _ => TNone
  end.

(** The id that the host gives for the group [x]. *)
Definition group_id (x : string) : string :=
  match group_dict x with
  | TDict (("id", TStr i) :: _) => i
  | _ => EmptyString
  end.

(** The document that [validate_config] serializes for a configuration with
    the entries [kts] and the default groups [names]. *)
Definition validated (kts : list (string * tree)) (names : list string) : tree :=
  TDict (assoc_set "default_group_dicts" (TList (map group_dict names)) kts).

(** [entry_for h v x]: the value [v] is the entry of the group [x]. *)
Definition entry_for (h : list obj) (v : value) (x : string) : Prop :=
  exists e i nm, v = VRef e /\ h !! e = Some (ODict [("id", VStr i); ("name", VStr nm)]) /\
    group_dict x = TDict [("id", TStr i); ("name", TStr nm)].

(** The body of the loop of [validate_config] over the default groups. *)
Definition store_group (config_obj group_name_or_id : value) : M unit :=
  try_except
    (group <- call group_show group_name_or_id ;;
     dicts <- getitem_key config_obj "default_group_dicts" ;;
     list_method dicts ;;;
     group_id <- getitem_key group "id" ;;
     group_name <- getitem_key group "name" ;;
     entry <- alloc (ODict [("id", group_id); ("name", group_name)]) ;;
     list_append dicts entry)
    is_NotFound
    (fun _ => raise (ValueError "Default group not found")).

(** The harvest source of the harvest object has a configuration that is a
    JSON object. *)
Definition config_is_object (harvest_object : harvest_object) : Prop :=
  exists harvest_source config kts,
    HarvestSource_get (harvest_source_id harvest_object) = Some harvest_source /\
    source_config harvest_source = Some config /\
    json_loads config = Some (TDict kts).

End MoreHostVocabulary.

(** ** Variants of the reference host, and a reference catalogue *)

Module Variants.

Import Reference.

(** The reference host with another reading of the descriptions: the text of
    a description, the link found in it, and the update frequency behind a
    link. *)
Definition host_with (text : string -> outcome string)
    (link : string -> tree -> outcome tree) (frequency : tree -> outcome tree) : Host :=
  {| Soup := string;
     json_loads := loads;
     json_dumps := dumps;
     group_show := show_group;
     dcat_to_ckan := to_ckan;
     HarvestSource_get := get_source;
     BeautifulSoup := parse_description;
     get_text := text;
     soup_str := fun soup => soup;
     _remove_all_attrs_except_saving := fun soup => Ok soup;
     _unwrap_all_except := fun soup _ => Ok (TStr soup, soup);
     _extract_metadata_url := link;
     _fetch_update_frequency := frequency;
     convert_date_to_isoformat := to_isoformat |}.

(** A host whose descriptions have no text to take. *)
Definition textless : Host :=
  host_with (fun _ => Raise (HostError "get_text")) (fun _ _ => Ok TNone)
    (fun _ => Ok (TStr "unknown")).

(** A host that finds a link to the metadata in every description. *)
Definition linked : Host :=
  host_with (fun soup => Ok soup) (fun _ _ => Ok (TStr "http://example.org/metadata/trees"))
    (fun _ => Ok (TStr "monthly")).

(** A catalogue with one dataset for the guid [trees], two for the guid
    [parks] and none for the others. *)
Definition read_datasets (guid : string) : outcome tree :=
  if String.eqb guid "trees" then Ok (TList [TList [TStr "dataset-1"]])
  else if String.eqb guid "parks" then
    Ok (TList [TList [TStr "dataset-2"]; TList [TStr "dataset-3"]])
  else Ok (TList []).

Definition show_package (context data_dict : tree) : outcome tree :=
  match tree_get "ignore_auth" context, tree_get "id" data_dict with
  | TBool true, TStr id => Ok (TDict [("id", TStr id); ("type", TStr "dataset")])
  | _, _ => Raise NotFound
  end.

#[export] Instance catalogue : Catalogue := {|
  _read_datasets_from_db := read_datasets;
  _get_user_name := Ok (TStr "harvest");
  package_show := show_package
|}.

End Variants.

(** ** More concrete documents *)

Module Cases.

(** A package dict with two tags, the second of them with a number for its
    name. *)
Definition numbered : state :=
  mkState [ODict [("name", VStr "parks & gardens")];
           ODict [("name", VInt 2020)];
           OList [VRef 0; VRef 1];
           ODict [("tags", VRef 2)]] [].

(** A package dict with the default description. *)
Definition defaulted : state :=
  mkState [ODict [("notes", VStr "default.description"); ("title", VStr "Trees")]] [].

(** A package dict with a description that ends without a full stop. *)
Definition described : state :=
  mkState [ODict [("notes", VStr "Street trees")]] [].

(** A package dict with an extra for the full metadata url. *)
Definition with_extra : state :=
  mkState [ODict [("key", VStr "full_metadata_url");
                  ("value", VStr "http://example.org/metadata")];
           ODict [("key", VStr "guid"); ("value", VStr "trees")];
           OList [VRef 1; VRef 0];
           ODict [("extras", VRef 2)]] [].

(** A package dict with an extra for the guid, and three configurations: an
    empty one, one with a default for the full metadata url, and one with a
    pattern for the links to the metadata. *)
Definition configured : state :=
  mkState [ODict [("key", VStr "guid"); ("value", VStr "trees")];
           OList [VRef 0];
           ODict [("extras", VRef 1)];
           ODict [];
           ODict [("default_full_metadata_url", VStr "http://example.org/default")];
           ODict [("default_full_metadata_url", VStr "http://example.org/default");
                  ("full_metadata_url_pattern", VStr "example.org/metadata")]] [].

(** A package dict that has its own [access] and an extra for it, a record
    and a configuration. *)
Definition restricted : state :=
  mkState [ODict [("key", VStr "access"); ("value", VStr "no")];
           OList [VRef 0];
           ODict [("extras", VRef 1); ("access", VStr "restricted")];
           ODict [];
           ODict []] [].

(** A configuration with a default license, a package dict without a license
    and one with a license, and a record. *)
Definition licensed : state :=
  mkState [ODict [("id", VStr "cc-by"); ("title", VStr "CC BY 4.0")];
           ODict [("default_license", VRef 0)];
           OList [];
           ODict [("extras", VRef 2)];
           ODict [("extras", VRef 2); ("license_id", VStr "odc-by")];
           ODict []] [].


(** A configuration as entered in the form, and a package dict without
    groups. *)
Definition entered : string :=
  Reference.json_text "{'default_groups': ['spatial-data', 'g2']}".

Definition ungrouped : state := mkState [ODict [("title", VStr "Trees")]] [].

(** A package dict with two tags, the first of them with a number for its
    name. *)
Definition misnamed : state :=
  mkState [ODict [("name", VInt 2020)];
           ODict [("name", VStr "parks & gardens")];
           OList [VRef 0; VRef 1];
           ODict [("tags", VRef 2)]] [].

(** A harvester without attributes of its own, and two harvest objects for
    the record [Examples.record]. *)
Definition harvesting : state :=
  mkState [ODict [];
           ODict [("guid", VStr "trees");
                  ("content", VStr (content Examples.record));
                  ("harvest_source_id", VStr "source-groups")];
           ODict [("guid", VStr "trees-again");
                  ("content", VStr (content Examples.record));
                  ("harvest_source_id", VStr "source-groups")]] [].

End Cases.

(** ** Properties *)

(** *** The monad *)

Lemma state_eta s : mkState (heap s) (logs s) = s.
Proof. by destruct s. Qed.

Lemma bind_ok {A B} (m : M A) (f : A -> M B) s a s' :
  m s = (Ok a, s') -> bind m f s = f a s'.
Proof. intros E. unfold bind. by rewrite E. Qed.

Lemma bind_raise {A B} (m : M A) (f : A -> M B) s e s' :
  m s = (Raise e, s') -> bind m f s = (Raise e, s').
Proof. intros E. unfold bind. by rewrite E. Qed.

Lemma bind_inv {A B} (m : M A) (f : A -> M B) s b s'' :
  bind m f s = (Ok b, s'') -> exists a s', m s = (Ok a, s') /\ f a s' = (Ok b, s'').
Proof.
  unfold bind. destruct (m s) as [[a|e] s'] eqn:E; intros H; [eauto | discriminate].
Qed.

(** *** Strings and association lists *)

Lemma str_contains_amp_replace x :
  str_contains "&" (str_replace "&"%char "and" x) = false.
Proof.
  induction x as [|a r IH]; [reflexivity|].
  cbn [str_replace]. destruct (Ascii.eqb a "&") eqn:E.
  - cbn. exact IH.
  - cbn [append str_contains String.prefix]. rewrite IH.
    destruct (Ascii.ascii_dec "&" a) as [e|n].
    + subst a. rewrite Ascii.eqb_refl in E. discriminate.
    + reflexivity.
Qed.

Lemma assoc_get_set_eq {A} k (v : A) kvs : assoc_get k (assoc_set k v kvs) = Some v.
Proof.
  induction kvs as [|[k' v'] r IH]; cbn.
  - by rewrite String.eqb_refl.
  - destruct (String.eqb k k') eqn:E; cbn; rewrite ?String.eqb_refl, ?E; auto.
Qed.

Lemma assoc_get_set_ne {A} k k' (v : A) kvs :
  k' <> k -> assoc_get k' (assoc_set k v kvs) = assoc_get k' kvs.
Proof.
  intros Hne. induction kvs as [|[k2 v2] r IH]; cbn.
  - destruct (String.eqb_spec k' k); [done|reflexivity].
  - destruct (String.eqb_spec k k2) as [->|]; cbn.
    + destruct (String.eqb_spec k' k2); [done|reflexivity].
    + by rewrite IH.
Qed.

Lemma assoc_set_keys_mem {A} k (v : A) kvs :
  assoc_mem k kvs = true -> map fst (assoc_set k v kvs) = map fst kvs.
Proof.
  unfold assoc_mem. induction kvs as [|[k2 v2] r IH]; cbn; [done|].
  destruct (String.eqb_spec k k2) as [->|]; cbn; [done|]. intros H. by rewrite IH.
Qed.

Lemma fix_tag_idem kvs : fix_tag (fix_tag kvs) = fix_tag kvs.
Proof.
  unfold fix_tag at 2. destruct (assoc_get "name" kvs) as [[| | |x|]|] eqn:E;
    try (unfold fix_tag; by rewrite E).
  destruct (str_contains "&" x) eqn:C.
  - unfold fix_tag. by rewrite assoc_get_set_eq, str_contains_amp_replace, E, C.
  - unfold fix_tag. by rewrite E, C.
Qed.

Lemma fix_tag_name_is_str kvs : name_is_str kvs -> name_is_str (fix_tag kvs).
Proof.
  intros H. unfold fix_tag. destruct (assoc_get "name" kvs) as [[| | |x|]|] eqn:E; try done.
  destruct (str_contains "&" x); [|done].
  intros v. rewrite assoc_get_set_eq. intros [= <-]. eauto.
Qed.

(** *** Footprints *)

Section FP.
Context (A : loc -> Prop) (K : string -> bool).

Lemma fp_refl s : fp A K s s.
Proof. split; [lia | auto]. Qed.

Lemma fp_trans s1 s2 s3 : fp A K s1 s2 -> fp A K s2 s3 -> fp A K s1 s3.
Proof.
  intros [L1 H1] [L2 H2]. split; [lia|]. intros l Hl.
  destruct (H1 l Hl) as [E1|(Ha & d & d' & E1 & E1' & Hk1)];
    (destruct (H2 l ltac:(lia)) as [E2|(Ha2 & d2 & d2' & E2 & E2' & Hk2)]).
  - left. congruence.
  - right. split; [done|]. exists d2, d2'. rewrite <- E1. split_and!; auto.
  - right. split; [done|]. exists d, d'. rewrite E2. split_and!; auto.
  - right. split; [done|]. exists d, d2'. split_and!; auto.
    intros k Hk. rewrite Hk2 by done. rewrite E1' in E2. injection E2 as <-. auto.
Qed.

Lemma writer_ret {X} (x : X) : writer A K (ret x).
Proof. intros s. apply fp_refl. Qed.

Lemma writer_raise {X} e : writer A K (@raise X e).
Proof. intros s. apply fp_refl. Qed.

Lemma writer_lift {X} (r : outcome X) : writer A K (lift r).
Proof. intros s. apply fp_refl. Qed.

Lemma writer_bind {X Y} (m : M X) (f : X -> M Y) :
  writer A K m -> (forall x, writer A K (f x)) -> writer A K (bind m f).
Proof.
  intros Hm Hf s. unfold bind. specialize (Hm s).
  destruct (m s) as [[x|e] s1]; cbn in *; [|done].
  eapply fp_trans; [exact Hm | apply Hf].
Qed.

Lemma writer_try_except {X} (m : M X) c h :
  writer A K m -> (forall e, writer A K (h e)) -> writer A K (try_except m c h).
Proof.
  intros Hm Hh s. unfold try_except. specialize (Hm s).
  destruct (m s) as [[x|e] s1]; cbn in *; [done|].
  destruct (c e); [|done]. eapply fp_trans; [exact Hm | apply Hh].
Qed.

Lemma writer_reads {X} (m : M X) : reads m -> writer A K m.
Proof. intros H s. rewrite H. apply fp_refl. Qed.

Lemma fp_extend s ext lg : fp A K s (mkState (heap s ++ ext) lg).
Proof.
  split; cbn; [rewrite length_app; lia|].
  intros l Hl. left. by rewrite lookup_app_l.
Qed.

Lemma writer_alloc o : writer A K (alloc o).
Proof. intros s. apply fp_extend. Qed.

Lemma writer_log msg : writer A K (log_error msg).
Proof. intros s. cbn. split; [done|auto]. Qed.

Lemma writer_setitem_key c k v :
  (forall l, c = VRef l -> A l) -> K k = false -> writer A K (setitem_key c k v).
Proof.
  intros Hc Hk s. unfold setitem_key. destruct c as [| | | |l]; try apply fp_refl.
  destruct (heap s !! l) as [[xs|d]|] eqn:E; try apply fp_refl.
  split; cbn; [by rewrite length_insert|].
  intros l' Hl'. destruct (decide (l' = l)) as [->|Hne].
  - right. split; [auto|]. exists d, (assoc_set k v d). split; [done|].
    split; [by rewrite list_lookup_insert_eq|].
    intros k' Hk'. apply assoc_get_set_ne. congruence.
  - left. by rewrite list_lookup_insert_ne.
Qed.

Lemma writer_if {X} (b : bool) (m1 m2 : M X) :
  writer A K m1 -> writer A K m2 -> writer A K (if b then m1 else m2).
Proof. by destruct b. Qed.

Lemma writer_mapM {X Y} (f : X -> M Y) xs :
  (forall x, x ∈ xs -> writer A K (f x)) -> writer A K (mapM f xs).
Proof.
  induction xs as [|x r IH]; intros H; cbn; [apply writer_ret|].
  apply writer_bind; [apply H; left|]. intros y.
  apply writer_bind; [apply IH; intros; apply H; by right|]. intros; apply writer_ret.
Qed.

Lemma writer_filterM {X} (f : X -> M bool) xs :
  (forall x, x ∈ xs -> writer A K (f x)) -> writer A K (filterM f xs).
Proof.
  induction xs as [|x r IH]; intros H; cbn; [apply writer_ret|].
  apply writer_bind; [apply H; left|]. intros y.
  apply writer_bind; [apply IH; intros; apply H; by right|]. intros; apply writer_ret.
Qed.

Lemma writer_forM_ {X} (f : X -> M unit) xs :
  (forall x, x ∈ xs -> writer A K (f x)) -> writer A K (forM_ xs f).
Proof.
  induction xs as [|x r IH]; intros H; cbn; [apply writer_ret|].
  apply writer_bind; [apply H; left|]. intros y. apply IH; intros; apply H; by right.
Qed.

End FP.

(** *** Computations that only read *)

Lemma reads_truthy v : reads (truthy v). Proof. done. Qed.
Lemma reads_isinstance_list v : reads (isinstance_list v). Proof. done. Qed.
Lemma reads_isinstance_str v : reads (isinstance_str v). Proof. done. Qed.
Lemma reads_getitem_key c k : reads (getitem_key c k).
Proof. intros s. unfold getitem_key. repeat case_match; done. Qed.
Lemma reads_getitem_first c : reads (getitem_first c).
Proof. intros s. unfold getitem_first. repeat case_match; done. Qed.
Lemma reads_str_in k c : reads (str_in k c).
Proof. intros s. unfold str_in. repeat case_match; done. Qed.
Lemma reads_py_iter c : reads (py_iter c).
Proof. intros s. unfold py_iter. repeat case_match; done. Qed.
Lemma reads_list_method c : reads (list_method c).
Proof. intros s. unfold list_method. repeat case_match; done. Qed.
Lemma reads_py_eq_m a b : reads (py_eq_m a b).
Proof. intros s. unfold py_eq_m. repeat case_match; done. Qed.
Lemma reads_tree_of v : reads (tree_of v). Proof. done. Qed.
Lemma reads_py_replace v c b : reads (py_replace v c b).
Proof. intros s. unfold py_replace. repeat case_match; done. Qed.
Lemma reads_ret {X} (x : X) : reads (ret x). Proof. done. Qed.
Lemma reads_raise {X} e : reads (@raise X e). Proof. done. Qed.
Lemma reads_lift {X} (r : outcome X) : reads (lift r). Proof. done. Qed.
Lemma reads_bind {X Y} (m : M X) (f : X -> M Y) :
  reads m -> (forall x, reads (f x)) -> reads (bind m f).
Proof.
  intros Hm Hf s. unfold bind. specialize (Hm s).
  destruct (m s) as [[x|e] s1]; cbn in *; subst; [apply Hf|done].
Qed.
Lemma reads_if {X} (b : bool) (m1 m2 : M X) : reads m1 -> reads m2 -> reads (if b then m1 else m2).
Proof. by destruct b. Qed.
Lemma reads_py_get c k d : reads d -> reads (py_get c k d).
Proof. intros H s. unfold py_get. repeat case_match; try done; apply H. Qed.
Lemma reads_py_in_list x xs : reads (py_in_list x xs).
Proof.
  induction xs as [|y r IH]; [done|]. cbn. apply reads_bind; [apply reads_py_eq_m|].
  intros []; [done|apply IH].
Qed.
Lemma reads_mapM {X Y} (f : X -> M Y) xs : (forall x, reads (f x)) -> reads (mapM f xs).
Proof.
  intros H. induction xs as [|x r IH]; cbn; [done|].
  apply reads_bind; [done|]. intros y. by apply reads_bind.
Qed.
Lemma reads_filterM {X} (f : X -> M bool) xs : (forall x, reads (f x)) -> reads (filterM f xs).
Proof.
  intros H. induction xs as [|x r IH]; cbn; [done|].
  apply reads_bind; [done|]. intros y. by apply reads_bind.
Qed.

(** *** The objects of a document *)

Lemma tree_ind' (P : tree -> Prop) :
  P TNone -> (forall b, P (TBool b)) -> (forall z, P (TInt z)) -> (forall x, P (TStr x)) ->
  (forall ts, Forall P ts -> P (TList ts)) ->
  (forall kts, Forall (fun kt => P (snd kt)) kts -> P (TDict kts)) ->
  forall t, P t.
Proof.
  intros Hn Hb Hi Hs Hl Hd. fix IH 1.
  intros [| b | z | x | ts | kts];
    [apply Hn | apply Hb | apply Hi | apply Hs | apply Hl | apply Hd].
  - induction ts as [|t r IHr]; constructor; [apply IH | exact IHr].
  - induction kts as [|[k t] r IHr]; constructor; [apply IH | exact IHr].
Qed.

Lemma closed_app n e1 e2 : closed n e1 -> closed (n + length e1) e2 -> closed n (e1 ++ e2).
Proof.
  intros H1 H2 i o l Hi Hl. apply lookup_app_Some in Hi as [Hi|[Hlen Hi]].
  - eapply H1; eauto.
  - specialize (H2 _ _ _ Hi Hl). lia.
Qed.

Lemma closed_snoc n ext o :
  closed n ext -> (forall l, VRef l ∈ obj_values o -> n <= l < n + length ext) ->
  closed n (ext ++ [o]).
Proof.
  intros H1 H2 i o' l Hi Hl. apply lookup_app_Some in Hi as [Hi|[Hlen Hi]].
  - eapply H1; eauto.
  - apply list_lookup_singleton_Some in Hi as [Hi <-]. specialize (H2 _ Hl). lia.
Qed.

Lemma agrees_app h n e1 e2 : agrees h n (e1 ++ e2) -> agrees h n e1 /\ agrees h (n + length e1) e2.
Proof.
  intros H. split; intros i o Hi.
  - apply H. by apply lookup_app_l_Some.
  - replace (n + length e1 + i) with (n + (length e1 + i)) by lia. apply H.
    rewrite lookup_app_r by lia. by replace (length e1 + i - length e1) with i by lia.
Qed.

Lemma val_in_weaken lo hi hi' v : val_in lo hi v -> hi <= hi' -> val_in lo hi' v.
Proof. intros H Hle l E. specialize (H l E). lia. Qed.

Lemma alloc_items_good ts :
  Forall (fun t => allocates (alloc_tree t) (good t)) ts ->
  allocates
    ((fix go (ts : list tree) : M (list value) :=
        match ts with
        | [] => ret []
        | t' :: r => v <- alloc_tree t';; vs <- go r;; ret (v :: vs)
        end) ts)
    (goods ts).
Proof.
  induction 1 as [|t r Ht _ IHr]; intros s.
  - exists [], []. unfold goods, good_pairs. cbn. rewrite app_nil_r, state_eta.
    split_and!; try done; by intros i o l [=].
  - destruct (Ht s) as (v & e1 & Ev & Hv & Hc1 & Hr1).
    destruct (IHr (mkState (heap s ++ e1) (logs s))) as (vs & e2 & Evs & Hvs & Hc2 & Hr2).
    cbn [heap logs] in *. rewrite length_app in *.
    exists (v :: vs), (e1 ++ e2). unfold bind at 1. rewrite Ev.
    unfold bind at 1. rewrite Evs. unfold goods, good_pairs. cbn.
    rewrite app_assoc, length_app. split_and!; try done.
    + constructor.
      * eapply val_in_weaken; [done|lia].
      * eapply Forall_impl; [done|]. intros w Hw l E. specialize (Hw l E). cbn in Hw. lia.
    + by apply closed_app.
    + intros h Hh. apply agrees_app in Hh as [Hh1 Hh2]. constructor; auto.
Qed.

Lemma alloc_pairs_good kts :
  Forall (fun kt => allocates (alloc_tree (snd kt)) (good (snd kt))) kts ->
  allocates
    ((fix go (kts : list (string * tree)) : M (list (string * value)) :=
        match kts with
        | [] => ret []
        | (k, t') :: r => v <- alloc_tree t';; kvs <- go r;; ret ((k, v) :: kvs)
        end) kts)
    (good_pairs kts).
Proof.
  induction 1 as [|[k t] r Ht _ IHr]; intros s.
  - exists [], []. unfold goods, good_pairs. cbn. rewrite app_nil_r, state_eta.
    split_and!; try done; by intros i o l [=].
  - destruct (Ht s) as (v & e1 & Ev & Hv & Hc1 & Hr1).
    destruct (IHr (mkState (heap s ++ e1) (logs s))) as (vs & e2 & Evs & Hvs & Hc2 & Hr2).
    cbn [heap logs snd] in *. rewrite length_app in *.
    exists ((k, v) :: vs), (e1 ++ e2). unfold bind at 1. rewrite Ev.
    unfold bind at 1. rewrite Evs. unfold goods, good_pairs. cbn.
    rewrite app_assoc, length_app. split_and!; try done.
    + constructor.
      * eapply val_in_weaken; [done|lia].
      * eapply Forall_impl; [done|]. intros w Hw l E. specialize (Hw l E). cbn in Hw. lia.
    + by apply closed_app.
    + intros h Hh. apply agrees_app in Hh as [Hh1 Hh2]. constructor; auto.
Qed.

(** The objects of a list: those of its items, then the list. *)
Lemma alloc_list_of ts s :
  Forall (fun t => allocates (alloc_tree t) (good t)) ts ->
  exists vs ext,
    alloc_tree (TList ts) s
    = (Ok (VRef (length (heap s) + length ext)),
       mkState (heap s ++ ext ++ [OList vs]) (logs s)) /\
    goods ts (length (heap s)) vs ext.
Proof.
  intros H. destruct (alloc_items_good ts H s) as (vs & ext & E & Hg).
  exists vs, ext. split; [|done]. cbn [alloc_tree].
  unfold bind at 1. rewrite E. unfold alloc. cbn [heap logs].
  by rewrite length_app, <- app_assoc.
Qed.

(** The objects of a dict: those of its values, then the dict. *)
Lemma alloc_dict_of kts s :
  Forall (fun kt => allocates (alloc_tree (snd kt)) (good (snd kt))) kts ->
  exists kvs ext,
    alloc_tree (TDict kts) s
    = (Ok (VRef (length (heap s) + length ext)),
       mkState (heap s ++ ext ++ [ODict kvs]) (logs s)) /\
    good_pairs kts (length (heap s)) kvs ext.
Proof.
  intros H. destruct (alloc_pairs_good kts H s) as (kvs & ext & E & Hg).
  exists kvs, ext. split; [|done]. cbn [alloc_tree].
  unfold bind at 1. rewrite E. unfold alloc. cbn [heap logs].
  by rewrite length_app, <- app_assoc.
Qed.

Lemma alloc_tree_good t : allocates (alloc_tree t) (good t).
Proof.
  induction t as [| b | z | x | ts IH | kts IH] using tree_ind'.
  1-4: intros s; eexists _, []; cbn; rewrite app_nil_r, state_eta; split; [done|];
       (split; [by intros l [=]|]); (split; [by intros i o l [=]|]); intros; constructor.
  - intros s. destruct (alloc_list_of ts s IH) as (vs & ext & E & Hvs & Hc & Hr).
    eexists _, _. split; [exact E|].
    split; [intros l [= <-]; rewrite ?length_app; cbn; lia|].
    split.
    + apply closed_snoc; [done|]. intros l Hl. cbn in Hl.
      rewrite Forall_forall in Hvs. exact (Hvs _ Hl l eq_refl).
    + intros h Hh. apply agrees_app in Hh as [Hh1 Hh2].
      econstructor; [|by apply Hr].
      specialize (Hh2 0 _ eq_refl). by rewrite Nat.add_0_r in Hh2.
  - intros s. destruct (alloc_dict_of kts s IH) as (kvs & ext & E & Hvs & Hc & Hr).
    eexists _, _. split; [exact E|].
    split; [intros l [= <-]; rewrite ?length_app; cbn; lia|].
    split.
    + apply closed_snoc; [done|]. intros l Hl. cbn in Hl.
      rewrite Forall_forall in Hvs. exact (Hvs _ Hl l eq_refl).
    + intros h Hh. apply agrees_app in Hh as [Hh1 Hh2].
      econstructor; [|by apply Hr].
      specialize (Hh2 0 _ eq_refl). by rewrite Nat.add_0_r in Hh2.
Qed.

Lemma alloc_tree_dict kts s :
  exists kvs ext,
    alloc_tree (TDict kts) s
    = (Ok (VRef (length (heap s) + length ext)),
       mkState (heap s ++ ext ++ [ODict kvs]) (logs s)) /\
    good_pairs kts (length (heap s)) kvs ext.
Proof. apply alloc_dict_of, Forall_forall. intros; apply alloc_tree_good. Qed.

(** *** Tags *)

Lemma str_replace_absent x :
  str_contains "&" x = false -> str_replace "&"%char "and" x = x.
Proof.
  induction x as [|a r IH]; [done|]. cbn [str_contains str_replace String.prefix].
  destruct (Ascii.ascii_dec "&" a) as [e|n].
  - by destruct r.
  - cbn. intros H. rewrite IH by done.
    destruct (Ascii.eqb_spec a "&"); [congruence|done].
Qed.

Lemma fix_tag_keys kvs : map fst (fix_tag kvs) = map fst kvs.
Proof.
  unfold fix_tag. destruct (assoc_get "name" kvs) as [[| | |x|]|] eqn:E; try done.
  destruct (str_contains "&" x); [|done].
  apply assoc_set_keys_mem. unfold assoc_mem. by rewrite E.
Qed.

Lemma fix_tag_other kvs k : k <> "name" -> assoc_get k (fix_tag kvs) = assoc_get k kvs.
Proof.
  intros Hk. unfold fix_tag. destruct (assoc_get "name" kvs) as [[| | |x|]|] eqn:E; try done.
  destruct (str_contains "&" x); [|done]. by apply assoc_get_set_ne.
Qed.

Lemma fix_tag_name kvs x :
  assoc_get "name" kvs = Some (VStr x) ->
  assoc_get "name" (fix_tag kvs) = Some (VStr (str_replace "&"%char "and" x)).
Proof.
  intros E. unfold fix_tag. rewrite E. destruct (str_contains "&" x) eqn:C.
  - apply assoc_get_set_eq.
  - by rewrite str_replace_absent.
Qed.

Lemma fix_tag_absent kvs : assoc_get "name" kvs = None -> fix_tag kvs = kvs.
Proof. intros E. unfold fix_tag. by rewrite E. Qed.

Lemma fix_one_run (body : value -> M unit) :
  body = (fun tag =>
      has_name <- str_in "name" tag ;;
      has_amp <- (if has_name then
                    name <- getitem_key tag "name" ;; str_in "&" name
                  else ret false) ;;
      if has_amp then
        name <- getitem_key tag "name" ;;
        fixed <- py_replace name "&"%char "and" ;;
        setitem_key tag "name" fixed
      else ret tt) ->
  forall s e kvs,
  heap s !! e = Some (ODict kvs) -> name_is_str kvs ->
  body (VRef e) s = (Ok tt, mkState (<[e := ODict (fix_tag kvs)]> (heap s)) (logs s)).
Proof.
  intros -> s e kvs He Hn. unfold bind, str_in, getitem_key, fix_tag, assoc_mem. rewrite He.
  destruct (assoc_get "name" kvs) as [v|] eqn:E.
  - destruct (Hn v E) as [x ->]. rewrite ?He. cbn. rewrite ?He, ?E. cbn.
    destruct (str_contains "&" x); cbn.
    + by rewrite ?He, ?E; cbn; rewrite ?He.
    + by rewrite list_insert_id, state_eta.
  - cbn. by rewrite list_insert_id, state_eta.
Qed.

Lemma fix_loop (body : value -> M unit) :
  (forall s e kvs, heap s !! e = Some (ODict kvs) -> name_is_str kvs ->
     body (VRef e) s = (Ok tt, mkState (<[e := ODict (fix_tag kvs)]> (heap s)) (logs s))) ->
  forall items s, Forall (tag_ok (heap s)) items ->
  exists s', forM_ items body s = (Ok tt, s') /\ logs s' = logs s /\
    length (heap s') = length (heap s) /\
    (forall l, VRef l ∈ items -> heap s' !! l = fix_obj <$> heap s !! l) /\
    (forall l, VRef l ∉ items -> heap s' !! l = heap s !! l).
Proof.
  intros Hbody items. induction items as [|t r IH]; intros s Hok.
  - exists s. split_and!; try done. intros l Hl. by apply elem_of_nil in Hl.
  - apply Forall_cons in Hok as [(e & kvs & -> & He & Hn) Hr].
    set (s1 := mkState (<[e := ODict (fix_tag kvs)]> (heap s)) (logs s)).
    assert (He1 : heap s1 !! e = Some (ODict (fix_tag kvs))).
    { cbn. apply list_lookup_insert_eq. by eapply lookup_lt_Some. }
    assert (Hne1 : forall l, l <> e -> heap s1 !! l = heap s !! l).
    { intros l Hl. cbn. by apply list_lookup_insert_ne. }
    destruct (IH s1) as (s' & Erun & Hlogs & Hlen & Hin & Hout).
    { eapply Forall_impl; [exact Hr|]. intros t (e' & kvs' & -> & He' & Hn').
      destruct (decide (e' = e)) as [->|Hne].
      - exists e, (fix_tag kvs). split_and!; [done|done|].
        by apply fix_tag_name_is_str.
      - exists e', kvs'. rewrite Hne1 by done. done. }
    exists s'. cbn [forM_]. unfold bind. rewrite (Hbody s e kvs He Hn). fold s1.
    split; [done|]. split; [done|]. split; [by rewrite Hlen; cbn; rewrite length_insert|].
    split.
    + intros l Hl. destruct (decide (VRef l ∈ r)) as [Hlr|Hlr].
      * rewrite (Hin l Hlr). destruct (decide (l = e)) as [->|Hne].
        -- rewrite He1, He. cbn. by rewrite fix_tag_idem.
        -- by rewrite Hne1.
      * rewrite (Hout l Hlr). apply elem_of_cons in Hl as [[= ->]|Hl]; [|done].
        by rewrite He1, He.
    + intros l Hl. apply not_elem_of_cons in Hl as [Hne Hl].
      rewrite (Hout l Hl). apply Hne1. congruence.
Qed.

Section Tags.
Context `{host : Host}.

(** C8, amended: [fix_erroneous_tags] on a package dict whose tags are dicts
    with a string name returns, keeps the list of tags as it is, and leaves
    every tag with the same keys, the same values under the keys other than
    ['name'], and a name in which every ['&'] is replaced by ['and'], so that
    no name contains ['&']; a tag without a name is left as it is.  (A name
    that is no string makes the call raise, with the tags after it as they
    were.) *)
Theorem fix_erroneous_tags_replaces_ampersands s p d lt tags :
  heap s !! p = Some (ODict d) ->
  assoc_get "tags" d = Some (VRef lt) ->
  heap s !! lt = Some (OList tags) ->
  Forall (tag_ok (heap s)) tags ->
  exists s',
    fix_erroneous_tags (VRef p) s = (Ok tt, s') /\
    logs s' = logs s /\
    heap s' !! lt = Some (OList tags) /\
    Forall (fun t => exists e kvs kvs',
      t = VRef e /\ heap s !! e = Some (ODict kvs) /\ heap s' !! e = Some (ODict kvs') /\
      map fst kvs' = map fst kvs /\
      (forall k, k <> "name" -> assoc_get k kvs' = assoc_get k kvs) /\
      (forall x, assoc_get "name" kvs = Some (VStr x) ->
         assoc_get "name" kvs' = Some (VStr (str_replace "&"%char "and" x))) /\
      (forall v, assoc_get "name" kvs' = Some v ->
         exists x, v = VStr x /\ str_contains "&" x = false) /\
      (assoc_get "name" kvs = None -> kvs' = kvs)) tags.
Proof.
  intros Hp Htags Hlt Hok. unfold fix_erroneous_tags.
  rewrite (bind_ok _ _ s (VRef lt) s) by (unfold getitem_key; by rewrite Hp, Htags).
  unfold bind at 1, truthy at 1. cbn [heap]. rewrite Hlt.
  destruct tags as [|t0 tags0] eqn:Etags.
  { exists s. split_and!; done. }
  rewrite <- Etags in *. clear Etags t0 tags0.
  rewrite (bind_ok _ _ s (VRef lt) s) by (unfold getitem_key; by rewrite Hp, Htags).
  rewrite (bind_ok _ _ s tags s) by (unfold py_iter; by rewrite Hlt).
  destruct (fix_loop _ (fix_one_run _ eq_refl) tags s Hok) as (s' & Erun & Hlogs & Hlen & Hin & Hout).
  exists s'. split; [exact Erun|]. split; [done|].
  assert (Hlist : forall l xs, heap s !! l = Some (OList xs) -> heap s' !! l = Some (OList xs)).
  { intros l xs El. destruct (decide (VRef l ∈ tags)) as [Hl|Hl].
    - by rewrite (Hin l Hl), El.
    - by rewrite (Hout l Hl). }
  split; [by apply Hlist|].
  apply Forall_forall. intros t Ht.
  rewrite Forall_forall in Hok. destruct (Hok t Ht) as (e & kvs & -> & He & Hn).
  exists e, kvs, (fix_tag kvs). split; [done|]. split; [done|].
  split; [by rewrite (Hin e Ht), He|].
  split; [apply fix_tag_keys|]. split; [intros; by apply fix_tag_other|].
  split; [apply fix_tag_name|]. split; [|apply fix_tag_absent].
  intros v Ev. destruct (assoc_get "name" kvs) as [w|] eqn:E.
  - destruct (Hn w E) as [x ->]. rewrite (fix_tag_name _ _ E) in Ev. injection Ev as <-.
    eexists. split; [done|]. apply str_contains_amp_replace.
  - rewrite fix_tag_absent in Ev by done. congruence.
Qed.
End Tags.

(** *** Runs of the operations on known objects *)

Lemma getitem_key_run s l kvs k v :
  heap s !! l = Some (ODict kvs) -> assoc_get k kvs = Some v ->
  getitem_key (VRef l) k s = (Ok v, s).
Proof. intros H1 H2. unfold getitem_key. by rewrite H1, H2. Qed.

Lemma str_in_dict_run s l kvs k :
  heap s !! l = Some (ODict kvs) -> str_in k (VRef l) s = (Ok (assoc_mem k kvs), s).
Proof. intros H1. unfold str_in. by rewrite H1. Qed.

Lemma isinstance_list_run s l xs :
  heap s !! l = Some (OList xs) -> isinstance_list (VRef l) s = (Ok true, s).
Proof. intros H1. unfold isinstance_list. by rewrite H1. Qed.

Lemma truthy_list_run s l xs :
  heap s !! l = Some (OList xs) -> truthy (VRef l) s = (Ok (negb (is_empty xs)), s).
Proof. intros H1. unfold truthy. rewrite H1. by destruct xs. Qed.

Lemma truthy_dict_run s l kvs :
  heap s !! l = Some (ODict kvs) -> truthy (VRef l) s = (Ok (negb (is_empty kvs)), s).
Proof. intros H1. unfold truthy. rewrite H1. by destruct kvs. Qed.

Lemma getitem_first_run s l x xs :
  heap s !! l = Some (OList (x :: xs)) -> getitem_first (VRef l) s = (Ok x, s).
Proof. intros H1. unfold getitem_first. by rewrite H1. Qed.

Lemma py_iter_list_run s l xs :
  heap s !! l = Some (OList xs) -> py_iter (VRef l) s = (Ok xs, s).
Proof. intros H1. unfold py_iter. by rewrite H1. Qed.

Lemma list_method_run s l xs :
  heap s !! l = Some (OList xs) -> list_method (VRef l) s = (Ok tt, s).
Proof. intros H1. unfold list_method. by rewrite H1. Qed.

Lemma setitem_key_run s l kvs k v :
  heap s !! l = Some (ODict kvs) ->
  setitem_key (VRef l) k v s
  = (Ok tt, mkState (<[l := ODict (assoc_set k v kvs)]> (heap s)) (logs s)).
Proof. intros H1. unfold setitem_key. by rewrite H1. Qed.

Lemma list_extend_run s l xs items :
  heap s !! l = Some (OList xs) ->
  list_extend (VRef l) items s
  = (Ok tt, mkState (<[l := OList (xs ++ items)]> (heap s)) (logs s)).
Proof. intros H1. unfold list_extend. by rewrite H1. Qed.

Lemma py_get_run s l kvs k d :
  heap s !! l = Some (ODict kvs) ->
  py_get (VRef l) k d s = match assoc_get k kvs with Some v => (Ok v, s) | None => d s end.
Proof. intros H1. unfold py_get. by rewrite H1. Qed.

Lemma lookup_app_at {A} (h ext : list A) (o : A) rest :
  (h ++ ext ++ o :: rest) !! (length h + length ext) = Some o.
Proof.
  rewrite app_assoc, lookup_app_r by (rewrite length_app; lia).
  by rewrite length_app, Nat.sub_diag.
Qed.

Lemma agrees_app_self h ext rest : agrees (h ++ ext ++ rest) (length h) ext.
Proof.
  intros i o Hi. rewrite lookup_app_r, Nat.add_sub' by lia. by apply lookup_app_l_Some.
Qed.

Lemma repr_str_inv h v x : repr h v (TStr x) -> v = VStr x.
Proof. by inversion 1. Qed.

Lemma assoc_get_Forall2 {A B} (P : A -> B -> Prop) k (kvs : list (string * A))
    (kts : list (string * B)) t :
  Forall2 (fun kv kt => fst kv = fst kt /\ P (snd kv) (snd kt)) kvs kts ->
  assoc_get k kts = Some t -> exists v, assoc_get k kvs = Some v /\ P v t.
Proof.
  induction 1 as [|[k1 v1] [k2 t2] r1 r2 [Hk Hp] _ IH]; cbn in *; [done|]. subst k2.
  destruct (String.eqb k k1); [intros [= <-]; eauto | done].
Qed.

Lemma Forall2_assoc_set {A B} (P : A -> B -> Prop) k v t
    (kvs : list (string * A)) (kts : list (string * B)) :
  Forall2 (fun kv kt => fst kv = fst kt /\ P (snd kv) (snd kt)) kvs kts -> P v t ->
  Forall2 (fun kv kt => fst kv = fst kt /\ P (snd kv) (snd kt))
    (assoc_set k v kvs) (assoc_set k t kts).
Proof.
  intros H Hp. induction H as [|[k1 v1] [k2 t2] r1 r2 [Hk Hq] Hr IH]; cbn in *.
  - by constructor.
  - subst k2. destruct (String.eqb k k1); constructor; auto.
Qed.

Lemma tree_of_repr fuel h v t :
  repr h v t -> depth t <= fuel -> tree_of_aux fuel h v = Ok t.
Proof.
  revert v t. induction fuel as [|n IH]; intros v t Hr Hd.
  - destruct Hr; try done; cbn [depth] in Hd; lia.
  - destruct Hr as [| | | | l xs ts Hl Hxs | l kvs kts Hl Hkvs]; try done.
    + cbn [tree_of_aux]. rewrite Hl. cbn [depth] in Hd. apply le_S_n in Hd.
      enough ((fix go (xs : list value) : outcome (list tree) :=
                 match xs with
                 | [] => Ok []
                 | x :: r =>
                     match tree_of_aux n h x with
                     | Ok t => match go r with
                               | Ok ts => Ok (t :: ts)
                               | Raise e => Raise e
                               end
                     | Raise e => Raise e
                     end
                 end) xs = Ok ts) as -> by done.
      clear Hl. induction Hxs as [|x t xs ts Hx _ IHxs]; [done|]. cbn [fold_right] in Hd. cbv beta in Hd.
      rewrite (IH x t Hx) by lia. rewrite IHxs by lia. done.
    + cbn [tree_of_aux]. rewrite Hl. cbn [depth] in Hd. apply le_S_n in Hd.
      enough ((fix go (kvs : list (string * value)) : outcome (list (string * tree)) :=
                 match kvs with
                 | [] => Ok []
                 | (k, x) :: r =>
                     match tree_of_aux n h x with
                     | Ok t => match go r with
                               | Ok kts => Ok ((k, t) :: kts)
                               | Raise e => Raise e
                               end
                     | Raise e => Raise e
                     end
                 end) kvs = Ok kts) as -> by done.
      clear Hl. induction Hkvs as [|[k x] [k' t] xs ts [Hk Hx] _ IHxs]; [done|].
      cbn [fold_right snd fst] in *. cbv beta in Hd. subst k'.
      rewrite (IH x t Hx) by lia. rewrite IHxs by lia. done.
Qed.

Lemma depth_assoc_set k t kts :
  depth (TDict (assoc_set k t kts)) <= Nat.max (depth (TDict kts)) (S (depth t)).
Proof.
  cbn [depth]. induction kts as [|[k1 t1] r IH]; cbn [assoc_set fold_right snd]; [lia|].
  destruct (String.eqb k k1); cbn [fold_right snd]; lia.
Qed.

(** *** Validation of the configuration *)

Lemma assoc_mem_keys {A B} k (kvs : list (string * A)) (kts : list (string * B)) :
  map fst kvs = map fst kts -> assoc_mem k kvs = assoc_mem k kts.
Proof.
  unfold assoc_mem. revert kts. induction kvs as [|[k1 v1] r IH]; intros [|[k2 t2] r2] [=]; [done|].
  subst. cbn. destruct (String.eqb k k2); [done|]. by apply IH.
Qed.

Lemma Forall2_fst_keys {A B} (P : A -> B -> Prop) (kvs : list (string * A)) (kts : list (string * B)) :
  Forall2 (fun kv kt => fst kv = fst kt /\ P (snd kv) (snd kt)) kvs kts ->
  map fst kvs = map fst kts.
Proof. induction 1 as [|[] [] ? ? [? ?]]; cbn in *; congruence. Qed.

Lemma repr_atom_eqb h k x t :
  repr h x t ->
  atom_eqb (VStr k) x = match t with TStr y => String.eqb k y | _ => false end.
Proof. by destruct 1. Qed.


Section Validation.
Context `{host : Host}.

Lemma py_json_loads_run text t s :
  json_loads text = Some t ->
  exists v ext, py_json_loads (VStr text) s = (Ok v, mkState (heap s ++ ext) (logs s)) /\
    good t (length (heap s)) v ext.
Proof. intros E. unfold py_json_loads. rewrite E. apply alloc_tree_good. Qed.

Lemma truthy_nonempty text s : text <> EmptyString -> truthy (VStr text) s = (Ok true, s).
Proof. intros H. unfold truthy. by destruct text. Qed.

Lemma tree_of_atom_str fuel h x : tree_of_aux fuel h (VStr x) = Ok (TStr x).
Proof. by destruct fuel. Qed.

Lemma group_step_found (body : value -> M unit) c :
  body = (fun group_name_or_id =>
               try_except
                 (group <- call group_show group_name_or_id ;;
                  dicts <- getitem_key c "default_group_dicts" ;;
                  list_method dicts ;;;
                  group_id <- getitem_key group "id" ;;
                  group_name <- getitem_key group "name" ;;
                  entry <- alloc (ODict [("id", group_id); ("name", group_name)]) ;;
                  list_append dicts entry)
                 is_NotFound
                 (fun _ => raise (ValueError "Default group not found"))) ->
  forall s lc kvs g es x,
  c = VRef lc ->
  heap s !! lc = Some (ODict kvs) -> assoc_get "default_group_dicts" kvs = Some (VRef g) ->
  heap s !! g = Some (OList es) -> group_found x ->
  exists s' e,
    body (VStr x) s = (Ok tt, s') /\
    heap s' !! g = Some (OList (es ++ [VRef e])) /\
    group_entry (heap s') (VRef e) /\
    length (heap s) <= e < length (heap s') /\
    (forall l, l < length (heap s) -> l <> g -> heap s' !! l = heap s !! l).
Proof.
  intros -> s lc kvs g es x -> Hc Hk Hg (gk & i & nm & Hshow & Hi & Hn).
  destruct (alloc_tree_dict gk s) as (gkv & ext & Ealloc & Hvals & Hclosed & Hrepr).
  set (s1 := mkState (heap s ++ ext ++ [ODict gkv]) (logs s)) in *.
  assert (Hlt : forall l o, heap s !! l = Some o -> heap s1 !! l = Some o).
  { intros l o Hl. cbn. by apply lookup_app_l_Some. }
  specialize (Hrepr (heap s1) (agrees_app_self _ _ _)).
  destruct (assoc_get_Forall2 _ _ _ _ _ Hrepr Hi) as (vi & Evi & Hvi).
  destruct (assoc_get_Forall2 _ _ _ _ _ Hrepr Hn) as (vn & Evn & Hvn).
  apply repr_str_inv in Hvi as ->. apply repr_str_inv in Hvn as ->.
  assert (Hgl : heap s1 !! (length (heap s) + length ext) = Some (ODict gkv))
    by apply lookup_app_at.
  set (entry := ODict [("id", VStr i); ("name", VStr nm)]).
  set (s2 := mkState (heap s1 ++ [entry]) (logs s1)).
  exists (mkState (<[g := OList (es ++ [VRef (length (heap s1))])]> (heap s2)) (logs s2)),
    (length (heap s1)).
  assert (Hg2 : heap s2 !! g = Some (OList es)).
  { cbn. apply lookup_app_l_Some. by apply Hlt. }
  split.
  - unfold try_except.
    assert (call group_show (VStr x) s = (Ok (VRef (length (heap s) + length ext)), s1)) as Ecall.
    { unfold call, content_of, tree_of. unfold bind at 1. rewrite tree_of_atom_str.
      unfold bind at 1, lift. by rewrite Hshow. }
    rewrite (bind_ok _ _ _ _ _ Ecall).
    rewrite (bind_ok _ _ _ _ _ (getitem_key_run _ _ _ _ _ (Hlt _ _ Hc) Hk)).
    rewrite (bind_ok _ _ _ _ _ (list_method_run _ _ _ (Hlt _ _ Hg))).
    rewrite (bind_ok _ _ _ _ _ (getitem_key_run _ _ _ _ _ Hgl Evi)).
    rewrite (bind_ok _ _ _ _ _ (getitem_key_run _ _ _ _ _ Hgl Evn)).
    unfold bind, alloc. fold entry. fold s2. unfold list_append.
    by rewrite (list_extend_run _ _ _ _ Hg2).
  - cbn [heap]. split; [apply list_lookup_insert_eq; by eapply lookup_lt_Some|].
    split.
    + exists (length (heap s1)), i, nm. split; [done|].
      rewrite list_lookup_insert_ne.
      * subst s2. cbn [heap]. rewrite lookup_app_r, Nat.sub_diag by lia. done.
      * apply lookup_lt_Some in Hg. subst s1. cbn [heap]. rewrite length_app. lia.
    + split.
      * rewrite length_insert. subst s2 s1. cbn [heap]. rewrite !length_app. cbn. lia.
      * intros l Hl Hlg. rewrite list_lookup_insert_ne by done. subst s2 s1. cbn [heap].
        rewrite <- !app_assoc. by rewrite lookup_app_l.
Qed.

Lemma group_step_missing (body : value -> M unit) c :
  body = (fun group_name_or_id =>
               try_except
                 (group <- call group_show group_name_or_id ;;
                  dicts <- getitem_key c "default_group_dicts" ;;
                  list_method dicts ;;;
                  group_id <- getitem_key group "id" ;;
                  group_name <- getitem_key group "name" ;;
                  entry <- alloc (ODict [("id", group_id); ("name", group_name)]) ;;
                  list_append dicts entry)
                 is_NotFound
                 (fun _ => raise (ValueError "Default group not found"))) ->
  forall s x, group_show (TStr x) = Raise NotFound ->
  body (VStr x) s = (Raise (ValueError "Default group not found"), s).
Proof.
  intros -> s x Hshow. unfold try_except, call, content_of, tree_of, bind, lift.
  by rewrite tree_of_atom_str, Hshow.
Qed.

Lemma group_loop (body : value -> M unit) lc g :
  (forall s kvs es x,
     heap s !! lc = Some (ODict kvs) -> assoc_get "default_group_dicts" kvs = Some (VRef g) ->
     heap s !! g = Some (OList es) -> group_found x ->
     exists s' e,
       body (VStr x) s = (Ok tt, s') /\
       heap s' !! g = Some (OList (es ++ [VRef e])) /\
       group_entry (heap s') (VRef e) /\
       length (heap s) <= e < length (heap s') /\
       (forall l, l < length (heap s) -> l <> g -> heap s' !! l = heap s !! l)) ->
  (forall s x, group_show (TStr x) = Raise NotFound ->
     body (VStr x) s = (Raise (ValueError "Default group not found"), s)) ->
  forall names s kvs es,
  heap s !! lc = Some (ODict kvs) -> assoc_get "default_group_dicts" kvs = Some (VRef g) ->
  heap s !! g = Some (OList es) -> lc <> g ->
  Forall (group_entry (heap s)) es ->
  Forall (fun x => group_found x \/ group_show (TStr x) = Raise NotFound) names ->
  (Exists (fun x => group_show (TStr x) = Raise NotFound) names ->
   exists s', forM_ (map VStr names) body s
              = (Raise (ValueError "Default group not found"), s')) /\
  (Forall group_found names ->
   exists s' es',
     forM_ (map VStr names) body s = (Ok tt, s') /\
     heap s' !! g = Some (OList es') /\ Forall (group_entry (heap s')) es' /\
     length (heap s) <= length (heap s') /\
     (forall l, l < length (heap s) -> l <> g -> heap s' !! l = heap s !! l)).
Proof.
  intros Hfound Hmissing names.
  induction names as [|x r IH]; intros s kvs es Hc Hk Hg Hne Hes Hall.
  - split; [by intros ?%Exists_nil|]. intros _. exists s, es. split_and!; try done.
  - apply Forall_cons in Hall as [Hx Hr]. cbn [map forM_].
    destruct Hx as [Hx|Hx].
    + destruct (Hfound s kvs es x Hc Hk Hg Hx) as (s1 & e & Erun & Hg1 & He & Hlen & Hframe).
      assert (Hc1 : heap s1 !! lc = Some (ODict kvs)).
      { rewrite Hframe; [done| by eapply lookup_lt_Some |done]. }
      assert (Hes1 : Forall (group_entry (heap s1)) (es ++ [VRef e])).
      { apply Forall_app. split; [|by constructor].
        eapply Forall_impl; [exact Hes|]. intros v (e' & i & nm & -> & He').
        exists e', i, nm. split; [done|]. rewrite Hframe; [done| by eapply lookup_lt_Some |].
        intros ->. congruence. }
      destruct (IH s1 kvs _ Hc1 Hk Hg1 Hne Hes1 Hr) as [IHm IHf].
      rewrite (bind_ok _ _ _ _ _ Erun). split.
      * intros Hex. apply Exists_cons in Hex as [Hex|Hex]; [|by apply IHm].
        destruct Hx as (? & ? & ? & Hx & _). congruence.
      * intros Hf. apply Forall_cons in Hf as [_ Hf].
        destruct (IHf Hf) as (s' & es' & Erun' & Hg' & Hes' & Hlen' & Hframe').
        exists s', es'. split_and!; try done; [lia|].
        intros l Hl Hlg. rewrite Hframe' by (done || lia). by apply Hframe.
    + rewrite (bind_raise _ _ _ _ _ (Hmissing s x Hx)). split; [eauto|].
      intros Hf. apply Forall_cons in Hf as [(? & ? & ? & Hf & _) _]. congruence.
Qed.

Lemma agrees_app_self' h ext : agrees (h ++ ext) (length h) ext.
Proof. intros i o Hi. by rewrite lookup_app_r, Nat.add_sub' by lia. Qed.

Lemma str_in_repr h lg v t :
  repr h v t -> no_default_groups t ->
  str_in "default_groups" v (mkState h lg) = (Ok false, mkState h lg).
Proof.
  intros Hr Hn. destruct Hr as [| | | x | l xs ts Hl Hxs | l kvs kts Hl Hkvs]; try done.
  - unfold no_default_groups in Hn. unfold str_in. by rewrite Hn.
  - unfold str_in. cbn [heap]. rewrite Hl. unfold no_default_groups in Hn.
    do 2 f_equal. etransitivity; [|exact Hn].
    clear Hl Hn. induction Hxs as [|x t xs ts Hx _ IH]; [done|]. cbn [existsb].
    by rewrite IH, (repr_atom_eqb _ _ _ _ Hx).
  - unfold str_in. cbn [heap]. rewrite Hl. unfold no_default_groups in Hn.
    do 2 f_equal. etransitivity; [|exact Hn].
    apply assoc_mem_keys. by eapply Forall2_fst_keys.
Qed.


Lemma validate_config_falsy config s :
  fst (truthy config s) = Ok false -> validate_config config s = (Ok config, s).
Proof.
  intros H. unfold validate_config, bind.
  destruct (truthy config s) as [r s1] eqn:E. cbn in H. subst r.
  assert (s1 = s) as -> by (pose proof (reads_truthy config s) as Hs; by rewrite E in Hs).
  done.
Qed.

Lemma validate_config_without_groups text t s :
  text <> EmptyString -> json_loads text = Some t -> no_default_groups t ->
  exists s', validate_config (VStr text) s = (Ok (VStr text), s').
Proof.
  intros Hne Ht Hn. unfold validate_config.
  rewrite (bind_ok _ _ _ _ _ (truthy_nonempty _ _ Hne)). cbn [negb].
  destruct (py_json_loads_run text t s Ht) as (v & ext & Erun & Hv & Hc & Hr).
  eexists. unfold try_except. rewrite (bind_ok _ _ _ _ _ Erun).
  rewrite (bind_ok _ _ _ _ _ (str_in_repr _ _ _ _ (Hr _ (agrees_app_self' _ _)) Hn)).
  reflexivity.
Qed.

(** C10, amended: [validate_config] gives back a falsy configuration as it
    is, and gives back the original string of every configuration that parses
    to a JSON object, array or string for which ['default_groups' in
    config_obj] is false.  (For a document that is a number, a boolean or
    [null] the membership test raises a [TypeError].) *)
Theorem validate_config_identity :
  (forall config s, fst (truthy config s) = Ok false ->
     validate_config config s = (Ok config, s)) /\
  (forall text t s, text <> EmptyString -> json_loads text = Some t -> no_default_groups t ->
     exists s', validate_config (VStr text) s = (Ok (VStr text), s')).
Proof. split; [apply validate_config_falsy | apply validate_config_without_groups]. Qed.

Lemma repr_strs h gvs names : Forall2 (repr h) gvs (map TStr names) -> gvs = map VStr names.
Proof.
  revert gvs. induction names as [|x r IH]; intros gvs H.
  - by apply Forall2_nil_inv_r in H.
  - apply Forall2_cons_inv_r in H as (v & vs & Hv & Hvs & ->).
    apply repr_str_inv in Hv as ->. cbn. f_equal. by apply IH.
Qed.

Lemma group_entries_repr h es :
  Forall (group_entry h) es ->
  exists ets, Forall2 (repr h) es ets /\ depth (TList ets) <= 2.
Proof.
  induction 1 as [|v r (e & i & nm & -> & He) _ (ets & Hets & Hd)].
  - exists []. split; [constructor | cbn; lia].
  - exists (TDict [("id", TStr i); ("name", TStr nm)] :: ets). split.
    + constructor; [|done]. econstructor; [exact He|].
      repeat constructor.
    + cbn [depth fold_right snd] in *. lia.
Qed.

(** The run of [validate_config] up to the loop over the groups, for a
    configuration with a list of group names. *)
Lemma validate_config_to_loop text kts names s :
  text <> EmptyString ->
  json_loads text = Some (TDict kts) ->
  assoc_get "default_groups" kts = Some (TList (map TStr names)) ->
  exists (body : value -> M unit) s3 lc g kvs ext,
    validate_config (VStr text) s
    = try_except (forM_ (map VStr names) body ;;; py_json_dumps (VRef lc))
        is_ValueError (fun e => raise e) s3 /\
    (forall s kvs es x,
       heap s !! lc = Some (ODict kvs) ->
       assoc_get "default_group_dicts" kvs = Some (VRef g) ->
       heap s !! g = Some (OList es) -> group_found x ->
       exists s' e,
         body (VStr x) s = (Ok tt, s') /\
         heap s' !! g = Some (OList (es ++ [VRef e])) /\
         group_entry (heap s') (VRef e) /\
         length (heap s) <= e < length (heap s') /\
         (forall l, l < length (heap s) -> l <> g -> heap s' !! l = heap s !! l)) /\
    (forall s x, group_show (TStr x) = Raise NotFound ->
       body (VStr x) s = (Raise (ValueError "Default group not found"), s)) /\
    heap s3 !! lc
    = Some (ODict (assoc_set "default_group_dicts" (VRef g) kvs)) /\
    heap s3 !! g = Some (OList []) /\ lc <> g /\
    lc = length (heap s) + length ext /\ g = S lc /\ length (heap s3) = S g /\
    agrees (heap s3) (length (heap s)) ext /\
    good_pairs kts (length (heap s)) kvs ext.
Proof.
  intros Hne Hloads Hgroups.
  destruct (alloc_tree_dict kts s) as (kvs & ext & Ealloc & Hgood).
  pose proof Hgood as (Hvals & Hclosed & Hrepr).
  set (lc := length (heap s) + length ext) in *.
  set (s1 := mkState (heap s ++ ext ++ [ODict kvs]) (logs s)) in *.
  set (g := S lc).
  assert (Hlen1 : length (heap s1) = g).
  { subst s1 g lc. cbn [heap]. rewrite !length_app. cbn. lia. }
  assert (Hc1 : heap s1 !! lc = Some (ODict kvs)) by apply lookup_app_at.
  pose proof (Hrepr (heap s1) (agrees_app_self _ _ _)) as Hr1.
  destruct (assoc_get_Forall2 _ _ _ _ _ Hr1 Hgroups) as (vg & Evg & Hvg).
  inversion Hvg as [| | | | lg gvs ts Hlg Hgvs |]; subst.
  apply repr_strs in Hgvs as ->.
  assert (Hlgc : lg <> lc) by (intros ->; congruence).
  set (kvs' := assoc_set "default_group_dicts" (VRef g) kvs).
  set (s2 := mkState (heap s1 ++ [OList []]) (logs s1)).
  set (s3 := mkState (<[lc := ODict kvs']> (heap s2)) (logs s2)).
  assert (Hc2 : heap s2 !! lc = Some (ODict kvs)) by (by apply lookup_app_l_Some).
  assert (Hlg2 : heap s2 !! lg = Some (OList (map VStr names))) by (by apply lookup_app_l_Some).
  assert (Hc3 : heap s3 !! lc = Some (ODict kvs')).
  { cbn [heap s3]. apply list_lookup_insert_eq. by eapply lookup_lt_Some. }
  assert (Hlg3 : heap s3 !! lg = Some (OList (map VStr names))).
  { cbn [heap s3]. by rewrite list_lookup_insert_ne. }
  assert (Hk3 : assoc_get "default_groups" kvs' = Some (VRef lg)).
  { unfold kvs'. by rewrite assoc_get_set_ne. }
  eexists _, s3, lc, g, kvs, ext. split.
  { unfold validate_config.
    rewrite (bind_ok _ _ _ _ _ (truthy_nonempty _ _ Hne)). cbn [negb].
    unfold try_except at 1. unfold try_except at 2.
    unfold py_json_loads. rewrite Hloads.
    rewrite (bind_ok _ _ _ _ _ Ealloc). fold lc. fold s1.
    rewrite (bind_ok _ _ _ _ _ (str_in_dict_run _ _ _ _ Hc1)).
    replace (assoc_mem "default_groups" kvs) with true
      by (unfold assoc_mem; by rewrite Evg).
    rewrite (bind_ok _ _ _ _ _ (getitem_key_run _ _ _ _ _ Hc1 Evg)).
    rewrite (bind_ok _ _ _ _ _ (isinstance_list_run _ _ _ Hlg)). cbn [negb].
    rewrite (bind_ok _ _ _ _ _ (getitem_key_run _ _ _ _ _ Hc1 Evg)).
    rewrite (bind_ok _ _ _ _ _ (truthy_list_run _ _ _ Hlg)).
    assert ((if negb (is_empty (map VStr names))
             then groups <- getitem_key (VRef lc) "default_groups" ;;
                  first <- getitem_first groups ;;
                  is_str <- isinstance_str first ;;
                  ret (negb is_str)
             else ret false) s1 = (Ok false, s1)) as Ebad.
    { destruct names as [|x r]; [done|]. cbn [map is_empty negb].
      rewrite (bind_ok _ _ _ _ _ (getitem_key_run _ _ _ _ _ Hc1 Evg)).
      by rewrite (bind_ok _ _ _ _ _ (getitem_first_run _ _ _ _ Hlg)). }
    rewrite (bind_ok _ _ _ _ _ Ebad).
    unfold bind at 1, alloc at 1. rewrite Hlen1. fold s2.
    rewrite (bind_ok _ _ _ _ _ (setitem_key_run _ _ _ _ _ Hc2)). fold kvs'. fold s3.
    rewrite (bind_ok _ _ _ _ _ (getitem_key_run _ _ _ _ _ Hc3 Hk3)).
    rewrite (bind_ok _ _ _ _ _ (py_iter_list_run _ _ _ Hlg3)).
    reflexivity. }
  split.
  { intros s0 kvs0 es x. by apply (group_step_found _ _ eq_refl). }
  split; [apply (group_step_missing _ _ eq_refl)|].
  split; [done|]. split.
  { cbn [heap s3]. rewrite list_lookup_insert_ne by (subst g; lia).
    subst s2. cbn [heap]. rewrite lookup_app_r by lia. by rewrite Hlen1, Nat.sub_diag. }
  split; [subst g; lia|]. split; [done|]. split; [done|]. split.
  { cbn [heap s3]. rewrite length_insert. subst s2. cbn [heap]. rewrite length_app, Hlen1. cbn [length]. lia. }
  split; [|done].
  intros i o Hi. cbn [heap s3]. apply lookup_lt_Some in Hi as Hlt.
  rewrite list_lookup_insert_ne by (subst lc; lia).
  subst s2 s1. cbn [heap]. rewrite <- !app_assoc.
  rewrite lookup_app_r, Nat.add_sub' by lia. by apply lookup_app_l_Some.
Qed.


(** C3: for a non-empty configuration string that is not valid JSON,
    [validate_config] raises a [ValueError] and returns nothing; for a valid
    configuration (the empty string, or a JSON object whose [default_groups],
    if any, is a list of names or ids of groups the host knows, nested no
    deeper than the recursion limit) it returns a string. *)
Theorem validate_config_result text s :
  (text <> EmptyString -> json_loads text = None ->
   exists msg, validate_config (VStr text) s = (Raise (ValueError msg), s)) /\
  (text = EmptyString \/
   (exists t, json_loads text = Some t /\ valid_config t /\ depth t <= recursion_limit) ->
   exists out s', validate_config (VStr text) s = (Ok (VStr out), s')).
Proof.
  split.
  { intros Hne Ht. unfold validate_config.
    rewrite (bind_ok _ _ _ _ _ (truthy_nonempty _ _ Hne)). cbn [negb].
    unfold try_except, bind, py_json_loads. rewrite Ht. cbn. eauto. }
  intros [->|(t & Hloads & Hvalid & Hdepth)].
  { exists EmptyString, s. by apply validate_config_falsy. }
  destruct (String.string_dec text EmptyString) as [->|Hne].
  { exists EmptyString, s. by apply validate_config_falsy. }
  destruct t as [| | | | |kts]; try done.
  unfold valid_config in Hvalid.
  destruct (assoc_get "default_groups" kts) as [tg|] eqn:Hgroups.
  2:{ destruct (validate_config_without_groups text (TDict kts) s Hne Hloads)
        as (s' & Erun); [|eauto].
      unfold no_default_groups, assoc_mem. by rewrite Hgroups. }
  destruct tg as [| | | |gts|]; try done. destruct Hvalid as (names & -> & Hall).
  destruct (validate_config_to_loop text kts names s Hne Hloads Hgroups)
    as (body & s3 & lc & g & kvs & ext & -> & Hfound & Hmissing & Hc & Hg & Hcg
        & Elc & Eg & Hlen3 & Hagree & Hvals & Hclosed & Hrepr).
  destruct (group_loop body lc g Hfound Hmissing names s3 _ [] Hc
              (assoc_get_set_eq _ _ _) Hg Hcg (Forall_nil_2 _)) as [_ Hf].
  { eapply Forall_impl; [exact Hall|]. auto. }
  destruct (Hf Hall) as (s4 & es & Erun & Hg4 & Hes & Hlen4 & Hframe).
  destruct (group_entries_repr _ _ Hes) as (ets & Hets & Hdets).
  assert (Hc4 : heap s4 !! lc = Some (ODict (assoc_set "default_group_dicts" (VRef g) kvs))).
  { rewrite Hframe; [done|lia|done]. }
  assert (Hagree4 : agrees (heap s4) (length (heap s)) ext).
  { intros i o Hi. apply lookup_lt_Some in Hi as Hlt.
    rewrite Hframe by lia. by apply Hagree. }
  assert (Hr4 : repr (heap s4) (VRef lc)
                  (TDict (assoc_set "default_group_dicts" (TList ets) kts))).
  { econstructor; [exact Hc4|]. apply Forall2_assoc_set; [by apply Hrepr|].
    by econstructor. }
  eexists _, s4. unfold try_except. rewrite (bind_ok _ _ _ _ _ Erun).
  unfold py_json_dumps, content_of, tree_of, bind.
  rewrite (tree_of_repr _ _ _ _ Hr4); [done|].
  etransitivity; [apply depth_assoc_set|].
  assert (3 <= recursion_limit) by (unfold recursion_limit; lia). lia.
Qed.
End Validation.

(** *** Default groups *)

Lemma py_eq_m_str a b s : py_eq_m (VStr a) (VStr b) s = (Ok (String.eqb a b), s).
Proof. reflexivity. Qed.

Lemma py_in_list_strs i ids s :
  py_in_list (VStr i) (map VStr ids) s = (Ok (existsb (String.eqb i) ids), s).
Proof.
  induction ids as [|a r IH]; [done|]. cbn [map py_in_list existsb].
  rewrite (bind_ok _ _ _ _ _ (py_eq_m_str _ _ _)).
  destruct (String.eqb i a); [done|]. exact IH.
Qed.

Lemma mapM_ids s gs ids :
  Forall2 (has_id (heap s)) gs ids ->
  mapM (fun g => getitem_key g "id") gs s = (Ok (map VStr ids), s).
Proof.
  induction 1 as [|g i gs ids (l & kvs & -> & Hl & Hi) _ IH]; [done|].
  cbn [mapM map]. rewrite (bind_ok _ _ _ _ _ (getitem_key_run _ _ _ _ _ Hl Hi)).
  by rewrite (bind_ok _ _ _ _ _ IH).
Qed.

Lemma filterM_missing s ids dgs dids :
  Forall2 (has_id (heap s)) dgs dids ->
  filterM (fun g =>
             group_id <- getitem_key g "id" ;;
             known <- py_in_list group_id (map VStr ids) ;;
             ret (negb known)) dgs s
  = (Ok (missing_groups ids dgs dids), s).
Proof.
  unfold missing_groups.
  induction 1 as [|g i gs is' (l & kvs & -> & Hl & Hi) _ IH]; [done|].
  cbn [filterM]. 
  rewrite (bind_ok _ _ s (negb (existsb (String.eqb i) ids)) s).
  2:{ rewrite (bind_ok _ _ _ _ _ (getitem_key_run _ _ _ _ _ Hl Hi)).
      by rewrite (bind_ok _ _ _ _ _ (py_in_list_strs _ _ _)). }
  rewrite (bind_ok _ _ _ _ _ IH). cbn [zip zip_with]. rewrite filter_cons. cbn [snd].
  unfold ret. by destruct (existsb (String.eqb i) ids).
Qed.

Lemma has_id_extend h ext v i : has_id h v i -> has_id (h ++ ext) v i.
Proof.
  intros (l & kvs & -> & Hl & Hi). exists l, kvs. split_and!; try done.
  by apply lookup_app_l_Some.
Qed.

Lemma has_id_setitem h p d k w v i :
  h !! p = Some (ODict d) -> k <> "id" ->
  has_id h v i -> has_id (<[p := ODict (assoc_set k w d)]> h) v i.
Proof.
  intros Hp Hk (l & kvs & -> & Hl & Hi). destruct (decide (l = p)) as [->|Hne].
  - exists p, (assoc_set k w d). split; [done|].
    split; [apply list_lookup_insert_eq; by eapply lookup_lt_Some|].
    rewrite assoc_get_set_ne by done. congruence.
  - exists l, kvs. split_and!; try done. by rewrite list_lookup_insert_ne.
Qed.

Lemma assoc_mem_set_ne {A} k k' (v : A) kvs :
  k' <> k -> assoc_mem k' (assoc_set k v kvs) = assoc_mem k' kvs.
Proof. intros H. unfold assoc_mem. by rewrite assoc_get_set_ne. Qed.

Section Groups.
Context `{host : Host}.

(** C9, amended: for a non-empty list of default groups, [set_default_group]
    returns; the groups of the package dict are then the groups it had, in
    their order, followed by the default groups, in their order, whose id is
    not the id of one of the groups it had (a default group listed twice is
    added twice); and ['category'] is the id of the first default group. *)
Theorem set_default_group_appends_missing s lh dh ld dgs dids p d gs ids :
  heap s !! lh = Some (ODict dh) ->
  assoc_get "default_group_dicts" dh = Some (VRef ld) ->
  heap s !! ld = Some (OList dgs) ->
  dgs <> [] ->
  Forall2 (has_id (heap s)) dgs dids ->
  heap s !! p = Some (ODict d) ->
  match assoc_get "groups" d with
  | Some v => exists lgs, v = VRef lgs /\ heap s !! lgs = Some (OList gs)
  | None => gs = []
  end ->
  Forall2 (has_id (heap s)) gs ids ->
  exists s' d' lgs',
    set_default_group (VRef lh) (VRef p) s = (Ok tt, s') /\
    heap s' !! p = Some (ODict d') /\
    assoc_get "category" d' = Some (VStr (hd EmptyString dids)) /\
    assoc_get "groups" d' = Some (VRef lgs') /\
    heap s' !! lgs' = Some (OList (gs ++ missing_groups ids dgs dids)) /\
    Forall2 (has_id (heap s')) gs ids /\
    Forall2 (has_id (heap s')) dgs dids.
Proof.
  intros Hh Hdgd Hld Hne Hdgs Hp Hgroups Hgs.
  destruct Hdgs as [|g0 i0 dgs0 dids0 Hg0 Hdgs0]; [done|].
  set (dgs := g0 :: dgs0) in *. set (dids := i0 :: dids0) in *.
  assert (Hdgs : Forall2 (has_id (heap s)) dgs dids) by (by constructor).
  destruct Hg0 as (e0 & kvs0 & -> & He0 & Hi0).
  set (d1 := assoc_set "category" (VStr i0) d).
  set (s1 := mkState (<[p := ODict d1]> (heap s)) (logs s)).
  assert (Hlist1 : forall l xs, heap s !! l = Some (OList xs) -> heap s1 !! l = Some (OList xs)).
  { intros l xs Hl. cbn [heap s1]. rewrite list_lookup_insert_ne; [done|]. intros ->. congruence. }
  assert (Hp1 : heap s1 !! p = Some (ODict d1)).
  { cbn [heap s1]. apply list_lookup_insert_eq. by eapply lookup_lt_Some. }
  assert (Hid1 : forall v i, has_id (heap s) v i -> has_id (heap s1) v i).
  { intros v i. by apply has_id_setitem. }
  unfold set_default_group.
  rewrite (bind_ok _ _ s (VRef ld) s) by (by rewrite (py_get_run _ _ _ _ _ Hh), Hdgd).
  rewrite (bind_ok _ _ _ _ _ (truthy_list_run _ _ _ Hld)). cbn [dgs is_empty negb].
  rewrite (bind_ok _ _ _ _ _ (isinstance_list_run _ _ _ Hld)).
  rewrite (bind_ok _ _ _ _ _ (truthy_list_run _ _ _ Hld)). cbn [dgs is_empty negb].
  rewrite (bind_ok _ _ _ _ _ (getitem_first_run _ _ _ _ Hld)).
  rewrite (bind_ok _ _ s true s).
  2:{ rewrite (truthy_dict_run _ _ _ He0). by destruct kvs0. }
  rewrite (bind_ok _ _ s tt s1).
  2:{ rewrite (bind_ok _ _ s (VStr i0) s) by (by rewrite (py_get_run _ _ _ _ _ He0), Hi0).
      apply (setitem_key_run _ _ _ _ _ Hp). }
  rewrite (bind_ok _ _ _ _ _ (str_in_dict_run _ _ _ _ Hp1)).
  unfold d1 at 1. rewrite assoc_mem_set_ne by done.
  destruct (assoc_get "groups" d) as [vg|] eqn:Eg.
  - destruct Hgroups as (lgs & -> & Hlgs).
    assert (Eg1 : assoc_get "groups" d1 = Some (VRef lgs)).
    { unfold d1. by rewrite assoc_get_set_ne. }
    replace (assoc_mem "groups" d) with true by (unfold assoc_mem; by rewrite Eg).
    cbn [negb]. rewrite (bind_ok _ _ s1 tt s1) by done.
    rewrite (bind_ok _ _ _ _ _ (getitem_key_run _ _ _ _ _ Hp1 Eg1)).
    rewrite (bind_ok _ _ _ _ _ (py_iter_list_run _ _ _ (Hlist1 _ _ Hlgs))).
    rewrite (bind_ok _ _ _ _ _ (mapM_ids s1 gs ids ltac:(eapply Forall2_impl; eauto))).
    rewrite (bind_ok _ _ _ _ _ (getitem_key_run _ _ _ _ _ Hp1 Eg1)).
    rewrite (bind_ok _ _ _ _ _ (list_method_run _ _ _ (Hlist1 _ _ Hlgs))).
    rewrite (bind_ok _ _ _ _ _ (py_iter_list_run _ _ _ (Hlist1 _ _ Hld))).
    rewrite (bind_ok _ _ _ _ _
               (filterM_missing s1 ids dgs dids ltac:(eapply Forall2_impl; eauto))).
    rewrite (list_extend_run _ _ _ _ (Hlist1 _ _ Hlgs)).
    eexists _, d1, lgs. split; [reflexivity|]. cbn [heap].
    assert (Hplgs : p <> lgs) by (intros ->; congruence).
    split; [by rewrite list_lookup_insert_ne|].
    split; [apply assoc_get_set_eq|]. split; [done|].
    split; [apply list_lookup_insert_eq; eapply lookup_lt_Some; by apply Hlist1|].
    assert (Hid2 : forall v i, has_id (heap s) v i ->
              has_id (<[lgs := OList (gs ++ missing_groups ids dgs dids)]> (heap s1)) v i).
    { intros v i Hv. apply Hid1 in Hv as (l & kvs & -> & Hl & Hi).
      exists l, kvs. split_and!; try done. rewrite list_lookup_insert_ne; [done|].
      intros ->. rewrite (Hlist1 _ _ Hlgs) in Hl. congruence. }
    split; eapply Forall2_impl; eauto.
  - subst gs. apply Forall2_nil_inv_l in Hgs as ->.
    replace (assoc_mem "groups" d) with false by (unfold assoc_mem; by rewrite Eg).
    cbn [negb].
    set (g := length (heap s1)).
    set (s2 := mkState (heap s1 ++ [OList []]) (logs s1)).
    set (d3 := assoc_set "groups" (VRef g) d1).
    set (s3 := mkState (<[p := ODict d3]> (heap s2)) (logs s2)).
    assert (Hp2 : heap s2 !! p = Some (ODict d1)) by (by apply lookup_app_l_Some).
    assert (Hp3 : heap s3 !! p = Some (ODict d3)).
    { cbn [heap s3]. apply list_lookup_insert_eq. by eapply lookup_lt_Some. }
    assert (Hpg : p <> g).
    { apply lookup_lt_Some in Hp1. unfold g. lia. }
    assert (Hg3 : heap s3 !! g = Some (OList [])).
    { cbn [heap s3]. rewrite list_lookup_insert_ne by done. cbn [heap s2].
      by rewrite lookup_app_r, Nat.sub_diag by (unfold g; lia). }
    assert (Hlist3 : forall l xs, heap s !! l = Some (OList xs) -> heap s3 !! l = Some (OList xs)).
    { intros l xs Hl. cbn [heap s3]. rewrite list_lookup_insert_ne by (intros ->; congruence).
      cbn [heap s2]. apply lookup_app_l_Some. by apply Hlist1. }
    assert (Hid3 : forall v i, has_id (heap s) v i -> has_id (heap s3) v i).
    { intros v i Hv. cbn [heap s3]. eapply has_id_setitem; [exact Hp2|done|].
      cbn [heap s2]. apply has_id_extend. by apply Hid1. }
    assert (Eg3 : assoc_get "groups" d3 = Some (VRef g)) by apply assoc_get_set_eq.
    rewrite (bind_ok _ _ s1 tt s3).
    2:{ unfold bind at 1, alloc. fold g. fold s2. apply (setitem_key_run _ _ _ _ _ Hp2). }
    rewrite (bind_ok _ _ _ _ _ (getitem_key_run _ _ _ _ _ Hp3 Eg3)).
    rewrite (bind_ok _ _ _ _ _ (py_iter_list_run _ _ _ Hg3)).
    rewrite (bind_ok _ _ s3 [] s3) by done.
    rewrite (bind_ok _ _ _ _ _ (getitem_key_run _ _ _ _ _ Hp3 Eg3)).
    rewrite (bind_ok _ _ _ _ _ (list_method_run _ _ _ Hg3)).
    rewrite (bind_ok _ _ _ _ _ (py_iter_list_run _ _ _ (Hlist3 _ _ Hld))).
    rewrite (bind_ok _ _ _ _ _
               (filterM_missing s3 [] dgs dids ltac:(eapply Forall2_impl; eauto))).
    rewrite (list_extend_run _ _ _ _ Hg3).
    eexists _, d3, g. split; [reflexivity|]. cbn [heap].
    split; [by rewrite list_lookup_insert_ne|].
    split; [unfold d3; rewrite assoc_get_set_ne by done; apply assoc_get_set_eq|].
    split; [done|].
    split; [apply list_lookup_insert_eq; by eapply lookup_lt_Some|].
    split; [constructor|].
    eapply Forall2_impl; [exact Hdgs|]. intros v i Hv.
    apply Hid3 in Hv as (l & kvs & -> & Hl & Hi).
    exists l, kvs. split_and!; try done. rewrite list_lookup_insert_ne; [done|].
    intros ->. congruence.
Qed.
End Groups.

(** *** Description and extract *)

Section Description.
Context `{host : Host}.

Lemma generate_extract_run soup text s :
  get_text soup = Ok text ->
  generate_extract soup s
  = (Ok (VStr (extract_of text)), mkState (heap s) (logs s ++ extract_logs soup text)).
Proof.
  intros Ht. unfold generate_extract, extract_of, extract_logs. rewrite Ht.
  destruct (str_index "." text).
  - unfold ret. by rewrite app_nil_r, state_eta.
  - unfold bind, log_error, ret. cbn [heap logs]. by rewrite <- app_assoc.
Qed.

(** C2, amended: for a description that is not the default one and whose
    text [get_text] returns, [set_description_and_extract] returns without an
    exception; ['notes'] is the cleaned description and ['extract'] is the text
    up to its first full stop, or the whole text when it has none, in which
    case two error records are logged.  (The placeholder texts are only used
    for the default description.) *)
Theorem set_description_and_extract_degrades s p d notes soup soup1 cleaned soup2 text :
  heap s !! p = Some (ODict d) ->
  assoc_get "notes" d = Some (VStr notes) ->
  str_contains "default.description" notes = false ->
  _remove_all_attrs_except_saving soup = Ok soup1 ->
  _unwrap_all_except soup1 ["a"; "br"] = Ok (cleaned, soup2) ->
  get_text soup2 = Ok text ->
  exists s' d' v,
    set_description_and_extract (VRef p) soup s = (Ok soup2, s') /\
    heap s' !! p = Some (ODict d') /\
    assoc_get "notes" d' = Some v /\ repr (heap s') v cleaned /\
    assoc_get "extract" d' = Some (VStr (extract_of text)) /\
    logs s' = logs s ++ extract_logs soup2 text.
Proof.
  intros Hp Hnotes Hdefault Hremove Hunwrap Htext.
  destruct (alloc_tree_good cleaned s) as (v & ext & Ealloc & Hv & Hclosed & Hrepr).
  set (s1 := mkState (heap s ++ ext) (logs s)) in *.
  assert (Hp1 : heap s1 !! p = Some (ODict d)) by (by apply lookup_app_l_Some).
  set (d2 := assoc_set "notes" v d).
  set (s2 := mkState (<[p := ODict d2]> (heap s1)) (logs s1)).
  assert (Hp2 : heap s2 !! p = Some (ODict d2)).
  { cbn [heap s2]. apply list_lookup_insert_eq. by eapply lookup_lt_Some. }
  set (s3 := mkState (heap s2) (logs s2 ++ extract_logs soup2 text)).
  set (d4 := assoc_set "extract" (VStr (extract_of text)) d2).
  exists (mkState (<[p := ODict d4]> (heap s3)) (logs s3)), d4, v.
  split.
  { unfold set_description_and_extract.
    rewrite (bind_ok _ _ _ _ _ (getitem_key_run _ _ _ _ _ Hp Hnotes)).
    rewrite (bind_ok _ _ s false s) by (unfold str_in; by rewrite Hdefault).
    rewrite Hremove. rewrite (bind_ok _ _ s soup1 s) by done.
    rewrite Hunwrap. rewrite (bind_ok _ _ s (cleaned, soup2) s) by done. cbn [fst snd].
    rewrite (bind_ok _ _ _ _ _ Ealloc).
    rewrite (bind_ok _ _ _ _ _ (setitem_key_run _ _ _ _ _ Hp1)). fold d2. fold s2.
    rewrite (bind_ok _ _ _ _ _ (generate_extract_run _ _ _ Htext)). fold s3.
    rewrite (bind_ok _ _ _ _ _ (setitem_key_run s3 _ _ _ _ Hp2)). done. }
  cbn [heap logs s3 s2 s1].
  assert (Hlt : p < length (heap s)) by (by eapply lookup_lt_Some).
  split; [apply list_lookup_insert_eq; rewrite length_insert, length_app; lia|].
  split; [unfold d4, d2; rewrite assoc_get_set_ne by done; apply assoc_get_set_eq|].
  split; [|split; [apply assoc_get_set_eq | done]].
  apply Hrepr. intros i o Hi.
  rewrite !list_lookup_insert_ne by lia.
  by rewrite lookup_app_r, Nat.add_sub' by lia.
Qed.
End Description.

(** *** Footprints of the steps of the conversion *)

Lemma allocates_writer A K {X} (m : M X) R : allocates m R -> writer A K m.
Proof.
  intros H s. destruct (H s) as (x & ext & -> & _). apply fp_extend.
Qed.

Lemma writer_alloc_tree A K t : writer A K (alloc_tree t).
Proof. eapply allocates_writer, alloc_tree_good. Qed.

Lemma writer_py_get A K c k d : writer A K d -> writer A K (py_get c k d).
Proof.
  intros H s. unfold py_get. repeat case_match; try apply fp_refl. apply H.
Qed.

Ltac reads_tac :=
  repeat (cbv beta;
    first [ apply reads_ret | apply reads_raise | apply reads_lift
          | apply reads_truthy | apply reads_isinstance_list | apply reads_isinstance_str
          | apply reads_getitem_key | apply reads_getitem_first | apply reads_str_in
          | apply reads_py_iter | apply reads_list_method | apply reads_py_eq_m
          | apply reads_tree_of | apply reads_py_replace | apply reads_py_in_list
          | apply reads_bind; [|intros ?]
          | apply reads_if
          | apply reads_py_get
          | apply reads_mapM; intros ?
          | apply reads_filterM; intros ? ]).

Lemma reads_extras_with_key pkg key : reads (extras_with_key pkg key).
Proof. unfold extras_with_key. reads_tac. Qed.

Lemma reads_content_of v : reads (content_of v).
Proof. apply reads_tree_of. Qed.

Ltac writer_reads :=
  apply writer_reads;
  first [ apply reads_extras_with_key | apply reads_content_of | solve [reads_tac] ].

Ltac writer_tac :=
  repeat (cbv beta;
    first [ apply writer_ret | apply writer_raise | apply writer_lift
          | apply writer_alloc | apply writer_log | apply writer_alloc_tree
          | apply writer_bind; [|intros ?]
          | apply writer_if
          | apply writer_try_except; [|intros ?]
          | apply writer_py_get
          | apply writer_setitem_key; [solve [auto] | reflexivity]
          | writer_reads
          | match goal with
            | |- writer _ _ (match ?x with _ => _ end) => destruct x
            end ]).

Section Writers.
Context `{host : Host}.
Context (A : loc -> Prop) (K : string -> bool).

Lemma writer_call f arg : writer A K (call f arg).
Proof. unfold call. writer_tac. Qed.

Lemma writer_generate_extract soup : writer A K (generate_extract soup).
Proof. unfold generate_extract. writer_tac. Qed.

Lemma writer_set_description_and_extract pkg soup :
  (forall l, pkg = VRef l -> A l) -> K "notes" = false -> K "extract" = false ->
  writer A K (set_description_and_extract pkg soup).
Proof.
  intros Hp K1 K2. unfold set_description_and_extract.
  writer_tac; first [apply writer_generate_extract | by apply writer_setitem_key].
Qed.

Lemma writer_set_full_metadata_url_and_update_frequency hc pkg soup :
  (forall l, pkg = VRef l -> A l) ->
  K "update_frequency" = false -> K "full_metadata_url" = false ->
  writer A K (set_full_metadata_url_and_update_frequency hc pkg soup).
Proof.
  intros Hp K1 K2. unfold set_full_metadata_url_and_update_frequency.
  writer_tac; first [apply writer_call | by apply writer_setitem_key].
Qed.

Lemma writer_default_unless_extra pkg key default :
  (forall l, pkg = VRef l -> A l) -> K key = false ->
  writer A K (default_unless_extra pkg key default).
Proof.
  intros Hp K1. unfold default_unless_extra. writer_tac. by apply writer_setitem_key.
Qed.

Lemma writer_date_unless_extra dcat pkg source key :
  (forall l, pkg = VRef l -> A l) -> K key = false ->
  writer A K (date_unless_extra dcat pkg source key).
Proof.
  intros Hp K1. unfold date_unless_extra.
  writer_tac; first [apply writer_call | by apply writer_setitem_key].
Qed.

End Writers.

Lemma anywhere_all l : anywhere l.
Proof. exact I. Qed.

Ltac writer_steps :=
  repeat (cbv beta;
    first [ apply writer_ret | apply writer_raise | apply writer_lift
          | apply writer_alloc | apply writer_log | apply writer_alloc_tree
          | apply writer_call | apply writer_generate_extract
          | apply writer_bind; [|intros ?]
          | apply writer_if
          | apply writer_try_except; [|intros ?]
          | apply writer_py_get
          | apply writer_setitem_key;
              [first [solve [auto] | intros; apply anywhere_all | by intros ? [= <-]] | reflexivity]
          | apply writer_default_unless_extra;
              [first [solve [auto] | intros; apply anywhere_all | by intros ? [= <-]] | reflexivity]
          | apply writer_date_unless_extra;
              [first [solve [auto] | intros; apply anywhere_all | by intros ? [= <-]] | reflexivity]
          | writer_reads
          | match goal with
            | |- writer _ _ (match ?x with _ => _ end) => destruct x
            end ]).

(** *** What a successful run tells *)

Lemma getitem_key_inv c k s v s' :
  getitem_key c k s = (Ok v, s') ->
  s' = s /\ exists l d, c = VRef l /\ heap s !! l = Some (ODict d) /\ assoc_get k d = Some v.
Proof.
  unfold getitem_key. destruct c as [| | | |l]; try done.
  destruct (heap s !! l) as [[xs|d]|] eqn:El; try done.
  destruct (assoc_get k d) eqn:E; [|done]. intros [= <- <-]. eauto 8.
Qed.

Lemma setitem_key_inv c k v s s' :
  setitem_key c k v s = (Ok tt, s') ->
  exists l d, c = VRef l /\ heap s !! l = Some (ODict d) /\
              s' = mkState (<[l := ODict (assoc_set k v d)]> (heap s)) (logs s).
Proof.
  unfold setitem_key. destruct c as [| | | |l]; try done.
  destruct (heap s !! l) as [[xs|d]|] eqn:El; try done. intros [= <-]. eauto.
Qed.

Lemma py_iter_inv c s items s' :
  py_iter c s = (Ok items, s') ->
  s' = s /\ ((exists l, c = VRef l /\ heap s !! l = Some (OList items)) \/
             Forall is_str_value items).
Proof.
  unfold py_iter. destruct c as [| | |x|l]; try done.
  - intros [= <- <-]. split; [done|]. right. apply Forall_map, Forall_forall.
    intros; by eexists.
  - destruct (heap s !! l) as [[xs|d]|] eqn:El; try done; intros [= <- <-]; split; try done.
    + left. eauto.
    + right. apply Forall_map, Forall_forall. intros; by eexists.
Qed.

Lemma reads_run {X} (m : M X) s r s' : reads m -> m s = (r, s') -> s' = s.
Proof. intros H E. specialize (H s). by rewrite E in H. Qed.

Lemma filterM_inv {X} (f : X -> M bool) items s found s' :
  (forall x, reads (f x)) ->
  filterM f items s = (Ok found, s') ->
  s' = s /\ forall x, x ∈ found -> x ∈ items /\ f x s = (Ok true, s).
Proof.
  intros Hf. revert found. induction items as [|x r IH]; intros found; cbn [filterM].
  - intros [= <- <-]. split; [done|]. by intros x ?%elem_of_nil.
  - intros H. apply bind_inv in H as (b & s1 & Hb & H).
    apply (reads_run _ _ _ _ (Hf x)) in Hb as Hs. subst s1.
    apply bind_inv in H as (ys & s2 & Hys & H). injection H as <- <-.
    apply IH in Hys as [-> Hys]. split; [done|]. intros y Hy. destruct b.
    + apply elem_of_cons in Hy as [->|Hy]; [split; [left|done]|].
      destruct (Hys y Hy). split; [by right|done].
    + destruct (Hys y Hy). split; [by right|done].
Qed.

Lemma py_eq_m_str_inv k f s s' : py_eq_m k (VStr f) s = (Ok true, s') -> k = VStr f.
Proof.
  unfold py_eq_m. change recursion_limit with (S (Nat.pred recursion_limit)).
  cbn [py_eq]. destruct k as [| | |x|]; try done. cbn [atom_eqb].
  destruct (String.eqb_spec x f); [by subst|done].
Qed.

Lemma extras_with_key_spec pkg f s found s' :
  extras_with_key pkg f s = (Ok found, s') ->
  s' = s /\ (found <> [] -> has_extra (heap s) pkg f).
Proof.
  intros H. pose proof (reads_run _ _ _ _ (reads_extras_with_key pkg f) H) as ->.
  split; [done|]. intros Hne. unfold extras_with_key in H.
  apply bind_inv in H as (extras & s1 & H1 & H).
  apply getitem_key_inv in H1 as (-> & p & d & -> & Hp & Hextras).
  apply bind_inv in H as (items & s1 & H2 & H).
  apply py_iter_inv in H2 as (-> & Hitems).
  apply filterM_inv in H as [_ Hfound]; [|intros x; reads_tac].
  destruct found as [|x found']; [done|].
  destruct (Hfound x ltac:(left)) as [Hx Hfx].
  apply bind_inv in Hfx as (k & s1 & Hk & Heq).
  apply getitem_key_inv in Hk as (-> & e & de & -> & He & Hkey).
  apply py_eq_m_str_inv in Heq as ->.
  destruct Hitems as [(le & -> & Hle)|Hstr].
  - exists p, d, le, items, e, de. done.
  - rewrite Forall_forall in Hstr. by destruct (Hstr _ Hx).
Qed.

Lemma default_unless_extra_spec pkg f default s s' :
  default_unless_extra pkg f default s = (Ok tt, s') ->
  has_extra (heap s') pkg f \/ has_field (heap s') pkg f (VStr default).
Proof.
  unfold default_unless_extra. intros H.
  apply bind_inv in H as (found & s1 & H1 & H).
  apply extras_with_key_spec in H1 as [-> Hfound].
  destruct found as [|x found']; cbn [is_empty] in H.
  - right. apply setitem_key_inv in H as (p & d & -> & Hp & ->).
    exists p, (assoc_set f (VStr default) d). split; [done|]. cbn [heap].
    split; [apply list_lookup_insert_eq; by eapply lookup_lt_Some | apply assoc_get_set_eq].
  - injection H as <-. left. by apply Hfound.
Qed.

Lemma fp_list A K s s' l xs :
  fp A K s s' -> heap s !! l = Some (OList xs) -> heap s' !! l = Some (OList xs).
Proof.
  intros [_ H] Hl. destruct (H l (lookup_lt_Some _ _ _ Hl)) as [->|(_ & d & d' & E & _)];
    [done|congruence].
Qed.

Lemma fp_dict A K s s' l d :
  fp A K s s' -> heap s !! l = Some (ODict d) ->
  exists d', heap s' !! l = Some (ODict d') /\
             forall k, K k = true -> assoc_get k d' = assoc_get k d.
Proof.
  intros [_ H] Hl.
  destruct (H l (lookup_lt_Some _ _ _ Hl)) as [E|(_ & d0 & d' & E & E' & Hk)].
  - exists d. split; [congruence|done].
  - exists d'. split; [done|]. intros k HK. rewrite Hk by done. congruence.
Qed.

Lemma has_extra_fp A K s s' pkg f :
  has_extra (heap s) pkg f -> fp A K s s' -> K "extras" = true -> K "key" = true ->
  has_extra (heap s') pkg f.
Proof.
  intros (p & d & le & xs & e & de & -> & Hp & Hextras & Hle & He & Hde & Hkey) Hfp K1 K2.
  destruct (fp_dict _ _ _ _ _ _ Hfp Hp) as (d' & Hp' & Hd').
  destruct (fp_dict _ _ _ _ _ _ Hfp Hde) as (de' & Hde' & Hde'').
  exists p, d', le, xs, e, de'. split_and!; try done.
  - by rewrite Hd'.
  - by eapply fp_list.
  - by rewrite Hde''.
Qed.

Lemma has_field_fp A K s s' pkg f v :
  has_field (heap s) pkg f v -> fp A K s s' -> K f = true -> has_field (heap s') pkg f v.
Proof.
  intros (p & d & -> & Hp & Hf) Hfp K1.
  destruct (fp_dict _ _ _ _ _ _ Hfp Hp) as (d' & Hp' & Hd').
  exists p, d'. split_and!; try done. by rewrite Hd'.
Qed.

Section RequiredFields.
Context `{host : Host}.

Ltac field_kept H1 Hrest f :=
  apply default_unless_extra_spec in H1;
  match type of Hrest with
  | ?m ?s1 = (_, ?s') =>
      let Hfp := fresh "Hfp" in
      assert (Hfp : writer anywhere (keeps_field f) m) by writer_steps;
      specialize (Hfp s1); rewrite Hrest in Hfp; cbn [snd] in Hfp;
      destruct H1 as [H1|H1];
      [ left; by eapply has_extra_fp | right; by eapply has_field_fp ]
  end.

Lemma set_required_fields_defaults_fields hc dcat pkg s s' :
  set_required_fields_defaults hc dcat pkg s = (Ok tt, s') ->
  Forall (fun fd => has_extra (heap s') pkg (fst fd) \/
                    has_field (heap s') pkg (fst fd) (VStr (snd fd))) required_defaults.
Proof.
  unfold set_required_fields_defaults. intros H.
  apply bind_inv in H as ([] & s1 & H1 & R1).
  pose proof R1 as H. apply bind_inv in H as ([] & s2 & H2 & R2).
  pose proof R2 as H. apply bind_inv in H as ([] & s3 & H3 & R3).
  pose proof R3 as H. apply bind_inv in H as ([] & s4 & H4 & R4).
  pose proof R4 as H. apply bind_inv in H as ([] & s5 & H5 & R5).
  pose proof R5 as H. apply bind_inv in H as ([] & s6 & H6 & R6).
  unfold required_defaults. repeat apply Forall_cons_2; [..|apply Forall_nil_2]; cbn [fst snd].
  - field_kept H5 R5 "organization_visibility".
  - field_kept H2 R2 "access".
  - field_kept H6 R6 "workflow_status".
  - field_kept H1 R1 "personal_information".
  - field_kept H3 R3 "protective_marking".
  - field_kept H4 R4 "update_frequency".
Qed.

(** C1: after [_get_package_dict] has returned, each required organizational
    field is carried by an extra of the package dict or is set in the package
    dict to its default; so it is set to its default whenever no extra has its
    key. *)
Theorem get_package_dict_required_defaults harvest_object s package_dict dcat_dict s' :
  _get_package_dict harvest_object s = (Ok (package_dict, dcat_dict), s') ->
  Forall (fun fd =>
            (has_extra (heap s') package_dict (fst fd) \/
             has_field (heap s') package_dict (fst fd) (VStr (snd fd))) /\
            (~ has_extra (heap s') package_dict (fst fd) ->
             has_field (heap s') package_dict (fst fd) (VStr (snd fd))))
    required_defaults.
Proof.
  unfold _get_package_dict. intros H.
  apply bind_inv in H as ([[[dcat pkg] hc] soup] & s1 & _ & H).
  apply bind_inv in H as ([] & s2 & H & Hret). injection Hret as <- <- <-.
  unfold datavic_conversion in H.
  apply bind_inv in H as (soup' & s3 & _ & H).
  apply bind_inv in H as ([] & s4 & _ & H).
  apply bind_inv in H as ([] & s5 & _ & H).
  apply bind_inv in H as ([] & s6 & _ & H).
  apply set_required_fields_defaults_fields in H.
  eapply Forall_impl; [exact H|]. intros fd Hfd. split; [done|]. by intros Hn; destruct Hfd.
Qed.
End RequiredFields.

(** *** What the conversion leaves as it is *)

Lemma snd_bind {X Y} (m : M X) (f : X -> M Y) s :
  snd (bind m f s) = match m s with
                     | (Ok x, s1) => snd (f x s1)
                     | (Raise _, s1) => s1
                     end.
Proof. unfold bind. by destruct (m s) as [[x|e] s1]. Qed.

Lemma changed_only_refl A s : changed_only A s s.
Proof. split; [lia|auto]. Qed.

Lemma changed_only_trans A s1 s2 s3 :
  changed_only A s1 s2 -> changed_only A s2 s3 -> changed_only A s1 s3.
Proof.
  intros [L1 H1] [L2 H2]. split; [lia|]. intros l Hl Ha.
  rewrite H2 by (done || lia). by apply H1.
Qed.

Lemma fp_changed_only A K s s' : fp A K s s' -> changed_only A s s'.
Proof.
  intros [L H]. split; [done|]. intros l Hl Ha. by destruct (H l Hl) as [?|[? _]].
Qed.

Lemma changed_only_list_extend A c items s :
  (forall l, c = VRef l -> A l) -> changed_only A s (snd (list_extend c items s)).
Proof.
  intros Hc. unfold list_extend. destruct c as [| | | |l]; try apply changed_only_refl.
  destruct (heap s !! l) as [[xs|d]|] eqn:E; try apply changed_only_refl.
  split; cbn; [by rewrite length_insert|]. intros l' Hl' Ha.
  rewrite list_lookup_insert_ne; [done|]. intros ->. eauto.
Qed.

Section Frame.
Context `{host : Host}.
Context (A : loc -> Prop) (n : nat) (p : loc).
Hypothesis A_package : A p.
Hypothesis A_new : forall l, n <= l -> A l.

Lemma placed_fp K s s' : placed n p s -> fp A K s s' -> placed n p s'.
Proof. intros [? ?] [? _]. split; lia. Qed.

Lemma groups_in_fp s s' :
  placed n p s -> groups_in A p s -> fp A tags_groups s s' -> groups_in A p s'.
Proof.
  intros [Hp _] Hg Hfp d' t Hd' Ht.
  destruct (lookup_lt_is_Some_2 _ _ Hp) as [o Ho].
  destruct Hfp as [_ Hfp]. destruct (Hfp p Hp) as [E|(_ & d0 & d1 & E0 & E1 & Hk)].
  - apply (Hg d' t); [congruence|done].
  - apply (Hg d0 t); [done|]. rewrite <- Hk by done. congruence.
Qed.

Lemma tags_in_fp s s' :
  placed n p s -> tags_in A n p s -> fp A tags_groups s s' -> tags_in A n p s'.
Proof.
  intros [Hp Hn] Ht Hfp d' lt Hd' Hlt.
  assert (exists d, heap s !! p = Some (ODict d) /\ assoc_get "tags" d = Some (VRef lt))
    as (d & Hd & Hlt0).
  { destruct Hfp as [_ Hfp]. destruct (Hfp p Hp) as [E|(_ & d0 & d1 & E0 & E1 & Hk)].
    - exists d'. split; [congruence|done].
    - exists d0. split; [done|]. rewrite <- Hk by done. congruence. }
  destruct (Ht d lt Hd Hlt0) as [Hltn Hitems]. split; [done|].
  intros xs e Hxs He. apply (Hitems xs e); [|done].
  destruct Hfp as [_ Hfp]. destruct (Hfp lt ltac:(lia)) as [E|(_ & d0 & d1 & E0 & E1 & Hk)];
    congruence.
Qed.

Lemma fix_erroneous_tags_fp s :
  tags_in A n p s -> fp A tags_groups s (snd (fix_erroneous_tags (VRef p) s)).
Proof.
  intros Ht. unfold fix_erroneous_tags. rewrite snd_bind.
  destruct (getitem_key (VRef p) "tags" s) as [[tags|e] s1] eqn:E1;
    pose proof (reads_run _ _ _ _ (reads_getitem_key _ _) E1) as ->; [|apply fp_refl].
  apply getitem_key_inv in E1 as H1. destruct H1 as (_ & p' & d & [= <-] & Hp & Htags).
  rewrite snd_bind. unfold truthy at 1. destruct (match tags with VNone => _ | _ => _ end);
    [|apply fp_refl].
  rewrite snd_bind, E1. rewrite snd_bind.
  destruct (py_iter tags s) as [[items|e] s1] eqn:E2;
    pose proof (reads_run _ _ _ _ (reads_py_iter _) E2) as ->; [|apply fp_refl].
  apply py_iter_inv in E2 as [_ Hitems].
  assert (Hin : forall x l, x ∈ items -> x = VRef l -> A l).
  { intros x l Hx ->. destruct Hitems as [(lt & -> & Hlt)|Hstr].
    - destruct (Ht d lt Hp Htags) as [_ H]. by apply (H items l).
    - rewrite Forall_forall in Hstr. by destruct (Hstr _ Hx). }
  match goal with |- fp _ _ _ (snd (?m s)) => enough (writer A tags_groups m) as Hw by apply Hw end.
  apply writer_forM_. intros x Hx. writer_steps.
  apply writer_setitem_key; [|done]. intros l ->. by eapply Hin.
Qed.

Lemma group_step_writer {X} (m : M X) : writer A tags_groups m -> group_step A n p m.
Proof.
  intros Hw s Hp Hg. specialize (Hw s). split; [by eapply fp_changed_only|].
  intros x s1 E. rewrite E in Hw. split; [by eapply placed_fp | by eapply groups_in_fp].
Qed.

Lemma changed_only_bind {X Y} (m : M X) (f : X -> M Y) s :
  placed n p s -> groups_in A p s -> group_step A n p m ->
  (forall x s1, m s = (Ok x, s1) -> placed n p s1 -> groups_in A p s1 ->
     changed_only A s1 (snd (f x s1))) ->
  changed_only A s (snd (bind m f s)).
Proof.
  intros Hp Hg Hm Hf. destruct (Hm s Hp Hg) as [Hco Hok]. rewrite snd_bind.
  destruct (m s) as [[x|e] s1] eqn:E; [|done].
  destruct (Hok x s1 eq_refl). eapply changed_only_trans; [exact Hco|]. by apply Hf.
Qed.

Lemma group_step_new_groups (b : bool) :
  group_step A n p (if b then empty <- alloc (OList []) ;; setitem_key (VRef p) "groups" empty
              else ret tt).
Proof.
  destruct b; [|apply group_step_writer, writer_ret].
  intros s [Hp Hn] Hg.
  destruct (lookup_lt_is_Some_2 _ _ Hp) as [o Ho].
  unfold bind, alloc, setitem_key. cbn [heap logs].
  rewrite (lookup_app_l_Some _ _ _ _ Ho).
  destruct o as [xs|d].
  - split; [|done]. cbn [snd]. split; cbn [heap]; [rewrite length_app; lia|].
    intros l Hl _. by rewrite lookup_app_l.
  - cbn [snd]. split.
    + split; cbn [heap]; [rewrite length_insert, length_app; lia|].
      intros l Hl Ha. rewrite list_lookup_insert_ne by (intros ->; done).
      by rewrite lookup_app_l.
    + intros [] s1 [= <-]. split.
      * split; cbn [heap]; rewrite length_insert, length_app; lia.
      * intros d' t. cbn [heap].
        rewrite list_lookup_insert_eq by (rewrite length_app; lia).
        intros [= <-]. rewrite assoc_get_set_eq. intros [= <-]. apply A_new. lia.
Qed.

Lemma set_default_group_changed_only hc s :
  placed n p s -> groups_in A p s ->
  changed_only A s (snd (set_default_group hc (VRef p) s)).
Proof.
  intros Hp Hg. unfold set_default_group.
  apply changed_only_bind; [done|done|apply group_step_writer; writer_steps|].
  intros dgd s1 _ Hp1 Hg1.
  apply changed_only_bind; [done|done|apply group_step_writer; writer_steps|].
  intros some s2 _ Hp2 Hg2.
  apply changed_only_bind; [done|done|apply group_step_writer; writer_steps|].
  intros [] s3 _ Hp3 Hg3; [|apply changed_only_refl].
  apply changed_only_bind; [done|done|apply group_step_writer; writer_steps|].
  intros some' s4 _ Hp4 Hg4.
  apply changed_only_bind; [done|done|apply group_step_writer; writer_steps|].
  intros category s5 _ Hp5 Hg5.
  apply changed_only_bind; [done|done|apply group_step_writer; writer_steps|].
  intros has_category s6 _ Hp6 Hg6.
  apply changed_only_bind; [done|done|apply group_step_writer; writer_steps|].
  intros [] s7 _ Hp7 Hg7.
  apply changed_only_bind; [done|done|apply group_step_writer; writer_steps|].
  intros has_groups s8 _ Hp8 Hg8.
  apply changed_only_bind; [done|done|apply group_step_new_groups|].
  intros [] s9 _ Hp9 Hg9.
  apply changed_only_bind; [done|done|apply group_step_writer; writer_steps|].
  intros groups s10 _ Hp10 Hg10.
  apply changed_only_bind; [done|done|apply group_step_writer; writer_steps|].
  intros items s11 _ Hp11 Hg11.
  apply changed_only_bind; [done|done|apply group_step_writer; writer_steps|].
  intros existing s12 _ Hp12 Hg12.
  apply changed_only_bind; [done|done|apply group_step_writer; writer_steps|].
  intros groups' s13 Hgroups Hp13 Hg13.
  apply getitem_key_inv in Hgroups as (-> & p' & d & [= <-] & Hd & Hget).
  apply changed_only_bind; [done|done|apply group_step_writer; writer_steps|].
  intros [] s14 _ Hp14 Hg14.
  apply changed_only_bind; [done|done|apply group_step_writer; writer_steps|].
  intros defaults s15 _ Hp15 Hg15.
  apply changed_only_bind; [done|done|apply group_step_writer; writer_steps|].
  intros missing s16 _ Hp16 Hg16.
  apply changed_only_list_extend. intros t ->. by apply (Hg12 d t).
Qed.
End Frame.

Lemma assoc_get_values {X} k (d : list (string * X)) v :
  assoc_get k d = Some v -> v ∈ map snd d.
Proof.
  induction d as [|[k' v'] r IH]; cbn; [done|].
  destruct (String.eqb k k'); [intros [= ->]; left | intros H; right; auto].
Qed.

Section Conversion.
Context `{host : Host}.

Lemma writer_set_required_fields_defaults A K hc dcat pkg :
  (forall l, pkg = VRef l -> A l) -> (forall k, K k = tags_groups k) ->
  writer A K (set_required_fields_defaults hc dcat pkg).
Proof.
  intros Hp HK. unfold set_required_fields_defaults.
  writer_steps;
    first [ apply writer_default_unless_extra; [done | by rewrite HK]
          | apply writer_date_unless_extra; [done | by rewrite HK]
          | apply writer_setitem_key; [done | by rewrite HK] ].
Qed.

Lemma datavic_conversion_changed_only A n p hc dcat soup s :
  A p -> (forall l, n <= l -> A l) ->
  placed n p s -> groups_in A p s -> tags_in A n p s ->
  changed_only A s (snd (datavic_conversion hc dcat (VRef p) soup s)).
Proof.
  intros HAp HAn Hp Hg Ht. unfold datavic_conversion.
  assert (Hpkg : forall l, VRef p = VRef l -> A l) by (by intros ? [= <-]).
  rewrite snd_bind.
  pose proof (writer_set_description_and_extract A tags_groups (VRef p) soup Hpkg
                eq_refl eq_refl s) as F1.
  destruct (set_description_and_extract (VRef p) soup s) as [[soup1|e] s1];
    [|by eapply fp_changed_only].
  cbn [snd] in F1. eapply changed_only_trans; [by eapply fp_changed_only|].
  pose proof (placed_fp _ _ _ _ _ _ Hp F1) as Hp1.
  pose proof (groups_in_fp _ _ _ _ _ Hp Hg F1) as Hg1.
  pose proof (tags_in_fp _ _ _ _ _ Hp Ht F1) as Ht1.
  rewrite snd_bind.
  pose proof (writer_set_full_metadata_url_and_update_frequency A tags_groups hc (VRef p)
                soup1 Hpkg eq_refl eq_refl s1) as F2.
  destruct (set_full_metadata_url_and_update_frequency hc (VRef p) soup1 s1) as [[[]|e] s2];
    [|by eapply fp_changed_only].
  cbn [snd] in F2. eapply changed_only_trans; [by eapply fp_changed_only|].
  pose proof (placed_fp _ _ _ _ _ _ Hp1 F2) as Hp2.
  pose proof (groups_in_fp _ _ _ _ _ Hp1 Hg1 F2) as Hg2.
  pose proof (tags_in_fp _ _ _ _ _ Hp1 Ht1 F2) as Ht2.
  rewrite snd_bind.
  pose proof (fix_erroneous_tags_fp A n p s2 Ht2) as F3.
  destruct (fix_erroneous_tags (VRef p) s2) as [[[]|e] s3];
    [|by eapply fp_changed_only].
  cbn [snd] in F3. eapply changed_only_trans; [by eapply fp_changed_only|].
  pose proof (placed_fp _ _ _ _ _ _ Hp2 F3) as Hp3.
  pose proof (groups_in_fp _ _ _ _ _ Hp2 Hg2 F3) as Hg3.
  rewrite snd_bind.
  pose proof (set_default_group_changed_only A n p HAp HAn hc s3 Hp3 Hg3) as F4.
  destruct (set_default_group hc (VRef p) s3) as [[[]|e] s4]; [|done].
  cbn [snd] in F4. eapply changed_only_trans; [done|].
  eapply fp_changed_only.
  by apply (writer_set_required_fields_defaults A tags_groups).
Qed.

Lemma call_inv f arg s v s' :
  call f arg s = (Ok v, s') -> exists t pt, f t = Ok pt /\ alloc_tree pt s = (Ok v, s').
Proof.
  unfold call. intros Hp. apply bind_inv in Hp as (t & sa' & Ht & Hp).
  pose proof (reads_run _ _ _ _ (reads_content_of _) Ht) as ->.
  apply bind_inv in Hp as (pt & sa' & Hpt & Hp). injection Hpt as Hf <-. eauto.
Qed.

Lemma py_json_loads_inv text s v s' :
  py_json_loads (VStr text) s = (Ok v, s') ->
  exists t, json_loads text = Some t /\ alloc_tree t s = (Ok v, s').
Proof.
  unfold py_json_loads. destruct (json_loads text) as [t|]; [eauto|done].
Qed.

Lemma alloc_tree_inv t s v s' :
  alloc_tree t s = (Ok v, s') ->
  exists ext, s' = mkState (heap s ++ ext) (logs s) /\ good t (length (heap s)) v ext.
Proof.
  intros H. destruct (alloc_tree_good t s) as (v' & ext & E & Hg).
  rewrite E in H. injection H as <- <-. eauto.
Qed.

Lemma good_none n : good TNone n VNone [].
Proof.
  split; [by intros l [=]|]. split; [by intros i o l [=]|]. intros; constructor.
Qed.

(** The configuration is a parsed document, or [None]. *)
Lemma load_harvest_config_inv harvest_object s hc s' :
  load_harvest_config harvest_object s = (Ok hc, s') ->
  exists cfg ext, s' = mkState (heap s ++ ext) (logs s) /\ good cfg (length (heap s)) hc ext.
Proof.
  assert (Hnone : (Ok VNone, s) = (Ok hc, s') ->
    exists cfg ext, s' = mkState (heap s ++ ext) (logs s) /\ good cfg (length (heap s)) hc ext).
  { intros [= <- <-]. exists TNone, []. rewrite app_nil_r, state_eta.
    split; [done|apply good_none]. }
  unfold load_harvest_config, try_except.
  destruct (HarvestSource_get (harvest_source_id harvest_object)) as [src|]; [|exact Hnone].
  destruct (source_config src) as [config|]; [|exact Hnone].
  destruct (py_json_loads (VStr config) s) as [[v|e] s1] eqn:E.
  - intros [= <- <-]. apply py_json_loads_inv in E as (cfg & _ & E).
    apply alloc_tree_inv in E. eauto.
  - unfold py_json_loads in E. destruct (json_loads config); [|injection E as <- <-; exact Hnone].
    destruct (alloc_tree_good t s) as (? & ? & E' & _). congruence.
Qed.

(** What [load_harvest_object] has put in the store: the objects of the
    record, then those of the package dict, then those of the
    configuration. *)
Lemma load_harvest_object_inv harvest_object s dcat pkg hc soup s1 :
  load_harvest_object harvest_object s = (Ok (dcat, pkg, hc, soup), s1) ->
  exists ct pt cfg ext_d ext_p ext_c p d,
    json_loads (content harvest_object) = Some ct /\
    heap s1 = heap s ++ ext_d ++ ext_p ++ ext_c /\
    good ct (length (heap s)) dcat ext_d /\
    good pt (length (heap s) + length ext_d) pkg ext_p /\
    good cfg (length (heap s) + length ext_d + length ext_p) hc ext_c /\
    pkg = VRef p /\ heap s1 !! p = Some (ODict d).
Proof.
  unfold load_harvest_object. intros H.
  apply bind_inv in H as (dcat' & sa & Hd & H).
  apply py_json_loads_inv in Hd as (ct & Ect & Hd).
  apply alloc_tree_inv in Hd as (ext_d & -> & Hgd).
  apply bind_inv in H as (pkg' & sb & Hp & H).
  apply call_inv in Hp as (t & pt & _ & Hp).
  apply alloc_tree_inv in Hp as (ext_p & -> & Hgp).
  apply bind_inv in H as (hc' & sc & Hc & H).
  apply load_harvest_config_inv in Hc as (cfg & ext_c & -> & Hgc).
  apply bind_inv in H as (notes & sc' & Hn & H).
  apply getitem_key_inv in Hn as (-> & p & d & -> & Hp & _).
  apply bind_inv in H as (markup & sc' & Hm & H).
  pose proof (reads_run _ _ _ _ (reads_content_of _) Hm) as ->.
  apply bind_inv in H as (soup' & sc' & Hs & H). injection Hs as _ <-.
  injection H as <- <- <- <-.
  exists ct, pt, cfg, ext_d, ext_p, ext_c, p, d. cbn [heap logs] in *.
  rewrite !length_app in Hgc. rewrite length_app in Hgp.
  rewrite <- !app_assoc in Hp. subst s1. cbn [heap]. rewrite <- !app_assoc.
  split_and!; done.
Qed.

(** After the steps of the conversion, the objects of the record and of the
    configuration are those that [load_harvest_object] has put there. *)
Lemma conversion_frame harvest_object s dcat pkg hc soup s1 r s2 :
  load_harvest_object harvest_object s = (Ok (dcat, pkg, hc, soup), s1) ->
  datavic_conversion hc dcat pkg soup s1 = (r, s2) ->
  exists ct cfg,
    json_loads (content harvest_object) = Some ct /\
    repr (heap s1) dcat ct /\ repr (heap s2) dcat ct /\
    repr (heap s1) hc cfg /\ repr (heap s2) hc cfg.
Proof.
  intros Hload Hrun.
  apply load_harvest_object_inv in Hload
    as (ct & pt & cfg & ext_d & ext_p & ext_c & p & d & Ect & Hheap & Hgd & Hgp & Hgc & -> & Hp).
  set (n0 := length (heap s)) in *. set (n1 := n0 + length ext_d) in *.
  set (n2 := n1 + length ext_p) in *. set (n3 := n2 + length ext_c).
  assert (Hlen : length (heap s1) = n3).
  { rewrite Hheap, !length_app. unfold n3, n2, n1, n0. lia. }
  assert (Hd1 : agrees (heap s1) n0 ext_d).
  { intros i o Hi. rewrite Hheap. rewrite lookup_app_r, Nat.add_sub' by (unfold n0; lia).
    by apply lookup_app_l_Some. }
  assert (Hp1 : agrees (heap s1) n1 ext_p).
  { intros i o Hi. rewrite Hheap, app_assoc.
    rewrite lookup_app_r by (rewrite length_app; unfold n1, n0; lia).
    rewrite length_app. replace (n1 + i - _) with i by (unfold n1, n0; lia).
    by apply lookup_app_l_Some. }
  assert (Hc1 : agrees (heap s1) n2 ext_c).
  { intros i o Hi. rewrite Hheap, !app_assoc.
    rewrite lookup_app_r by (rewrite !length_app; unfold n2, n1, n0; lia).
    rewrite !length_app. by replace (n2 + i - _) with i by (unfold n2, n1, n0; lia). }
  set (A := fun l => n1 <= l < n2 \/ n3 <= l).
  destruct Hgp as (Hvp & Hclp & _).
  destruct (Hvp p eq_refl) as [Hp_lo Hp_hi]. fold n2 in Hp_hi.
  assert (Hext : forall l o, n1 <= l < n2 -> heap s1 !! l = Some o ->
                             ext_p !! (l - n1) = Some o).
  { intros l o Hl Ho. destruct (lookup_lt_is_Some_2 ext_p (l - n1)) as [o' Ho'];
      [unfold n2 in Hl; lia|].
    pose proof (Hp1 _ _ Ho') as E. replace (n1 + (l - n1)) with l in E by lia. congruence. }
  assert (Hchanged : changed_only A s1 (snd (datavic_conversion hc dcat (VRef p) soup s1))).
  { apply (datavic_conversion_changed_only A n3 p).
    - left. lia.
    - intros l Hl. by right.
    - split; lia.
    - intros d' t Hd' Ht. left.
      rewrite Hp in Hd'. injection Hd' as <-.
      pose proof (Hclp _ _ t (Hext p _ (conj Hp_lo Hp_hi) Hp)) as Hin.
      cbn [obj_values] in Hin. specialize (Hin (assoc_get_values _ _ _ Ht)). lia.
    - intros d' lt Hd' Ht.
      rewrite Hp in Hd'. injection Hd' as <-.
      pose proof (Hclp _ _ lt (Hext p _ (conj Hp_lo Hp_hi) Hp)) as Hin.
      cbn [obj_values] in Hin. specialize (Hin (assoc_get_values _ _ _ Ht)).
      split; [unfold n3; lia|]. intros xs e Hxs He. left.
      assert (Hlt : n1 <= lt < n2) by lia.
      pose proof (Hclp _ _ e (Hext lt _ Hlt Hxs)) as Hin'.
      cbn [obj_values] in Hin'. specialize (Hin' He). lia. }
  rewrite Hrun in Hchanged. cbn [snd] in Hchanged. destruct Hchanged as [_ Hsame].
  exists ct, cfg. split; [done|].
  destruct Hgd as (_ & _ & Hrd). destruct Hgc as (_ & _ & Hrc).
  split; [by apply Hrd|]. split.
  - apply Hrd. intros i o Hi. apply lookup_lt_Some in Hi as Hlt.
    rewrite Hsame; [by apply Hd1 | unfold n3, n2, n1 in *; lia | unfold A, n1; lia].
  - split; [by apply Hrc|].
    apply Hrc. intros i o Hi. apply lookup_lt_Some in Hi as Hlt.
    rewrite Hsame; [by apply Hc1 | unfold n3; lia | unfold A, n3; lia].
Qed.

(** C5: the steps of the conversion leave the harvest source configuration
    as [_get_package_dict] has read it: the document it holds before them is
    the document it holds after them, whether they return or raise. *)
Theorem conversion_keeps_harvest_config harvest_object s dcat pkg hc soup s1 r s2 :
  load_harvest_object harvest_object s = (Ok (dcat, pkg, hc, soup), s1) ->
  datavic_conversion hc dcat pkg soup s1 = (r, s2) ->
  exists cfg, repr (heap s1) hc cfg /\ repr (heap s2) hc cfg.
Proof.
  intros Hload Hrun.
  destruct (conversion_frame _ _ _ _ _ _ _ _ _ Hload Hrun) as (ct & cfg & _ & _ & _ & H1 & H2).
  eauto.
Qed.

(** C6: when [_get_package_dict] returns, the [dcat_dict] it gives back
    holds the document that was parsed from the content of the harvest
    object. *)
Theorem get_package_dict_keeps_dcat_dict harvest_object s package_dict dcat_dict s' :
  _get_package_dict harvest_object s = (Ok (package_dict, dcat_dict), s') ->
  exists ct, json_loads (content harvest_object) = Some ct /\ repr (heap s') dcat_dict ct.
Proof.
  unfold _get_package_dict. intros H.
  apply bind_inv in H as ([[[dcat pkg] hc] soup] & s1 & Hload & H).
  apply bind_inv in H as ([] & s2 & Hrun & Hret). injection Hret as <- <- <-.
  destruct (conversion_frame _ _ _ _ _ _ _ _ _ Hload Hrun) as (ct & cfg & E & _ & H2 & _).
  eauto.
Qed.
End Conversion.

(** *** Runs from different stores *)

Lemma assoc_get_shift k key kvs :
  assoc_get key (shift_kvs k kvs) = shift_val k <$> assoc_get key kvs.
Proof.
  induction kvs as [|[k' v] r IH]; [done|]. cbn [shift_kvs map assoc_get fst snd].
  destruct (String.eqb key k'); [done|exact IH].
Qed.

Lemma assoc_mem_shift k key kvs : assoc_mem key (shift_kvs k kvs) = assoc_mem key kvs.
Proof. unfold assoc_mem. rewrite assoc_get_shift. by destruct (assoc_get key kvs). Qed.

Lemma assoc_set_shift k key v kvs :
  assoc_set key (shift_val k v) (shift_kvs k kvs) = shift_kvs k (assoc_set key v kvs).
Proof.
  induction kvs as [|[k' v'] r IH]; [done|]. cbn [shift_kvs map assoc_set fst snd].
  destruct (String.eqb key k'); [done|]. cbn [map fst snd]. f_equal. exact IH.
Qed.

Lemma atom_eqb_shift_str k x v : atom_eqb (VStr x) (shift_val k v) = atom_eqb (VStr x) v.
Proof. by destruct v. Qed.

Section Embed.
Context (h0 : list obj) (lg0 : list string).
Local Abbreviation k := (length h0).

Lemma embed_lookup s l : heap (embed h0 lg0 s) !! (k + l) = shift_obj k <$> heap s !! l.
Proof.
  unfold embed. cbn [heap]. rewrite lookup_app_r by lia.
  replace (k + l - length h0) with l by lia. apply list_lookup_fmap.
Qed.

Lemma embed_insert s l o :
  mkState (<[k + l := shift_obj k o]> (heap (embed h0 lg0 s))) (logs (embed h0 lg0 s))
  = embed h0 lg0 (mkState (<[l := o]> (heap s)) (logs s)).
Proof.
  unfold embed. cbn [heap logs]. f_equal.
  rewrite insert_app_r_alt by lia.
  replace (k + l - length h0) with l by lia. by rewrite list_fmap_insert.
Qed.

Lemma embed_alloc s o :
  mkState (heap (embed h0 lg0 s) ++ [shift_obj k o]) (logs (embed h0 lg0 s))
  = embed h0 lg0 (mkState (heap s ++ [o]) (logs s)).
Proof. unfold embed. cbn [heap logs]. by rewrite fmap_app, app_assoc. Qed.

Lemma embed_length s : length (heap (embed h0 lg0 s)) = k + length (heap s).
Proof. unfold embed. cbn [heap]. by rewrite length_app, length_map. Qed.

Lemma embed_log s msg :
  mkState (heap (embed h0 lg0 s)) (logs (embed h0 lg0 s) ++ [msg])
  = embed h0 lg0 (mkState (heap s) (logs s ++ [msg])).
Proof. unfold embed. cbn [heap logs]. by rewrite app_assoc. Qed.

Local Abbreviation rel := (related h0 lg0).

Lemma related_ret {X} (sh : X -> X) x1 x2 : x1 = sh x2 -> rel sh (ret x1) (ret x2).
Proof. by intros -> s. Qed.

Lemma related_raise {X} (sh : X -> X) e : rel sh (raise e) (raise e).
Proof. by intros s. Qed.

Lemma related_lift {X} (r : outcome X) : rel (fun x => x) (lift r) (lift r).
Proof. intros s. unfold lift. cbn. by destruct r. Qed.

Lemma related_bind {X Y} (shX : X -> X) (shY : Y -> Y) m1 m2 (f1 f2 : X -> M Y) :
  rel shX m1 m2 -> (forall x, rel shY (f1 (shX x)) (f2 x)) ->
  rel shY (bind m1 f1) (bind m2 f2).
Proof.
  intros Hm Hf s. unfold bind. rewrite (Hm s).
  destruct (m2 s) as [[x|e] s1]; cbn [fst snd shift_outcome]; [apply Hf|done].
Qed.

Lemma related_try_except {X} (sh : X -> X) m1 m2 c (h1 h2 : exn -> M X) :
  rel sh m1 m2 -> (forall e, rel sh (h1 e) (h2 e)) ->
  rel sh (try_except m1 c h1) (try_except m2 c h2).
Proof.
  intros Hm Hh s. unfold try_except. rewrite (Hm s).
  destruct (m2 s) as [[x|e] s1]; cbn [fst snd shift_outcome]; [done|].
  destruct (c e); [apply Hh|done].
Qed.

Lemma related_if {X} (sh : X -> X) (b : bool) (a1 a2 b1 b2 : M X) :
  rel sh a1 a2 -> rel sh b1 b2 -> rel sh (if b then a1 else b1) (if b then a2 else b2).
Proof. by destruct b. Qed.

Lemma related_log msg : rel (fun x => x) (log_error msg) (log_error msg).
Proof. intros s. unfold log_error. cbn [fst snd shift_outcome]. by rewrite embed_log. Qed.

Lemma related_alloc o1 o2 : o1 = shift_obj k o2 -> rel (shift_val k) (alloc o1) (alloc o2).
Proof.
  intros -> s. unfold alloc. cbn [fst snd shift_outcome shift_val].
  by rewrite embed_length, embed_alloc.
Qed.

(** Reading operations: the result only depends on the objects reached. *)

Lemma related_truthy v1 v2 : v1 = shift_val k v2 -> rel (fun b => b) (truthy v1) (truthy v2).
Proof.
  intros -> s. unfold truthy. cbn [fst snd shift_outcome]. do 2 f_equal.
  destruct v2 as [| | | |l]; try done. cbn [shift_val]. rewrite embed_lookup.
  by destruct (heap s !! l) as [[[|]|[|]]|].
Qed.

Lemma related_isinstance_list v1 v2 :
  v1 = shift_val k v2 -> rel (fun b => b) (isinstance_list v1) (isinstance_list v2).
Proof.
  intros -> s. unfold isinstance_list. cbn [fst snd shift_outcome]. do 2 f_equal.
  destruct v2 as [| | | |l]; try done. cbn [shift_val]. rewrite embed_lookup.
  by destruct (heap s !! l) as [[|]|].
Qed.

Lemma related_isinstance_str v1 v2 :
  v1 = shift_val k v2 -> rel (fun b => b) (isinstance_str v1) (isinstance_str v2).
Proof. intros -> s. by destruct v2. Qed.

Lemma related_getitem_key c1 c2 key :
  c1 = shift_val k c2 -> rel (shift_val k) (getitem_key c1 key) (getitem_key c2 key).
Proof.
  intros -> s. unfold getitem_key. destruct c2 as [| | | |l]; try done.
  cbn [shift_val]. rewrite embed_lookup.
  destruct (heap s !! l) as [[xs|d]|]; try done. cbn [fmap option_fmap option_map shift_obj].
  rewrite assoc_get_shift. by destruct (assoc_get key d).
Qed.

Lemma related_getitem_first c1 c2 :
  c1 = shift_val k c2 -> rel (shift_val k) (getitem_first c1) (getitem_first c2).
Proof.
  intros -> s. unfold getitem_first. destruct c2 as [| | |x|l]; try done.
  - by destruct x.
  - cbn [shift_val]. rewrite embed_lookup.
    by destruct (heap s !! l) as [[[|]|]|].
Qed.

Lemma related_setitem_key c1 c2 key v1 v2 :
  c1 = shift_val k c2 -> v1 = shift_val k v2 ->
  rel (fun x => x) (setitem_key c1 key v1) (setitem_key c2 key v2).
Proof.
  intros -> -> s. unfold setitem_key. destruct c2 as [| | | |l]; try done.
  cbn [shift_val]. rewrite embed_lookup.
  destruct (heap s !! l) as [[xs|d]|]; try done. cbn [fmap option_fmap option_map shift_obj].
  cbn [fst snd shift_outcome]. f_equal.
  rewrite assoc_set_shift. apply (embed_insert s l (ODict (assoc_set key v2 d))).
Qed.

Lemma related_py_get c1 c2 key d1 d2 :
  c1 = shift_val k c2 -> rel (shift_val k) d1 d2 ->
  rel (shift_val k) (py_get c1 key d1) (py_get c2 key d2).
Proof.
  intros -> Hd s. unfold py_get. destruct c2 as [| | | |l]; try done.
  cbn [shift_val]. rewrite embed_lookup.
  destruct (heap s !! l) as [[xs|d]|]; try done. cbn [fmap option_fmap option_map shift_obj].
  rewrite assoc_get_shift. destruct (assoc_get key d); [done|apply Hd].
Qed.

Lemma related_str_in key c1 c2 :
  c1 = shift_val k c2 -> rel (fun b => b) (str_in key c1) (str_in key c2).
Proof.
  intros -> s. unfold str_in. destruct c2 as [| | | |l]; try done.
  cbn [shift_val]. rewrite embed_lookup.
  destruct (heap s !! l) as [[xs|d]|]; try done; cbn [fmap option_fmap option_map shift_obj fst snd shift_outcome].
  - do 2 f_equal. induction xs as [|x r IH]; [done|]. cbn [map existsb].
    by rewrite IH, atom_eqb_shift_str.
  - by rewrite assoc_mem_shift.
Qed.

Lemma related_py_iter c1 c2 :
  c1 = shift_val k c2 -> rel (map (shift_val k)) (py_iter c1) (py_iter c2).
Proof.
  intros -> s. unfold py_iter. destruct c2 as [| | |x|l]; try done.
  - cbn [fst snd shift_outcome shift_val]. do 2 f_equal. rewrite <- list_fmap_compose.
    by apply list_fmap_ext.
  - cbn [shift_val]. rewrite embed_lookup.
    destruct (heap s !! l) as [[xs|d]|]; try done;
      cbn [fmap option_fmap option_map shift_obj fst snd shift_outcome].
    do 2 f_equal. unfold shift_kvs. rewrite <- !list_fmap_compose.
    by apply list_fmap_ext.
Qed.

Lemma related_list_method c1 c2 :
  c1 = shift_val k c2 -> rel (fun x => x) (list_method c1) (list_method c2).
Proof.
  intros -> s. unfold list_method. destruct c2 as [| | | |l]; try done.
  cbn [shift_val]. rewrite embed_lookup.
  by destruct (heap s !! l) as [[xs|d]|].
Qed.

Lemma related_list_extend c1 c2 xs1 xs2 :
  c1 = shift_val k c2 -> xs1 = map (shift_val k) xs2 ->
  rel (fun x => x) (list_extend c1 xs1) (list_extend c2 xs2).
Proof.
  intros -> -> s. unfold list_extend. destruct c2 as [| | | |l]; try done.
  cbn [shift_val]. rewrite embed_lookup.
  destruct (heap s !! l) as [[xs|d]|]; try done. cbn [fmap option_fmap option_map shift_obj].
  cbn [fst snd shift_outcome]. f_equal.
  rewrite <- fmap_app. apply (embed_insert s l (OList (xs ++ xs2))).
Qed.

Lemma related_py_replace v1 v2 c by_ :
  v1 = shift_val k v2 -> rel (shift_val k) (py_replace v1 c by_) (py_replace v2 c by_).
Proof. intros -> s. by destruct v2. Qed.

Lemma py_eq_embed fuel s a b :
  py_eq fuel (heap (embed h0 lg0 s)) (shift_val k a) (shift_val k b)
  = py_eq fuel (heap s) a b.
Proof.
  revert a b. induction fuel as [|n IH]; intros a b; [done|].
  destruct a as [| | | |la], b as [| | | |lb]; try done.
  cbn [py_eq shift_val]. rewrite !embed_lookup.
  replace (Nat.eqb (k + la) (k + lb)) with (Nat.eqb la lb)
    by (destruct (Nat.eqb_spec la lb), (Nat.eqb_spec (k + la) (k + lb)); done || lia).
  destruct (Nat.eqb la lb); [done|].
  destruct (heap s !! la) as [[xs|d1]|], (heap s !! lb) as [[ys|d2]|]; try done;
    cbn [fmap option_fmap option_map shift_obj].
  - rewrite !length_map. destruct (Nat.eqb (length xs) (length ys)); [|done].
    clear -IH. revert ys. induction xs as [|x xs IHxs]; intros [|y ys]; try done.
    cbn [map all2]. rewrite IH. destruct (py_eq n (heap s) x y) as [[|]|]; auto.
  - unfold shift_kvs. rewrite !length_map. destruct (Nat.eqb (length d1) (length d2)); [|done].
    fold (shift_kvs k d2). clear -IH. induction d1 as [|[key v] d1 IHd]; [done|].
    cbn [map dict_sub fst snd]. rewrite assoc_get_shift.
    destruct (assoc_get key d2) as [w|]; [|done]. cbn [fmap option_fmap option_map].
    rewrite IH. destruct (py_eq n (heap s) v w) as [[|]|]; auto.
Qed.

Lemma related_py_eq_m a1 a2 b1 b2 :
  a1 = shift_val k a2 -> b1 = shift_val k b2 ->
  rel (fun b => b) (py_eq_m a1 b1) (py_eq_m a2 b2).
Proof.
  intros -> -> s. unfold py_eq_m. rewrite py_eq_embed.
  by destruct (py_eq recursion_limit (heap s) a2 b2).
Qed.

Lemma related_py_in_list x1 x2 xs1 xs2 :
  x1 = shift_val k x2 -> xs1 = map (shift_val k) xs2 ->
  rel (fun b => b) (py_in_list x1 xs1) (py_in_list x2 xs2).
Proof.
  intros -> ->. induction xs2 as [|y r IH]; cbn [map py_in_list].
  - by apply related_ret.
  - eapply related_bind; [by apply related_py_eq_m|]. intros [|]; [by apply related_ret|done].
Qed.

Lemma tree_of_aux_embed fuel s v :
  tree_of_aux fuel (heap (embed h0 lg0 s)) (shift_val k v) = tree_of_aux fuel (heap s) v.
Proof.
  revert v. induction fuel as [|n IH]; intros v; [by destruct v|].
  destruct v as [| | | |l]; try done. cbn [tree_of_aux shift_val]. rewrite embed_lookup.
  destruct (heap s !! l) as [[xs|d]|]; try done; cbn [fmap option_fmap option_map shift_obj].
  - induction xs as [|x r IHr]; [done|]. cbn [map]. rewrite IH.
    destruct (tree_of_aux n (heap s) x); [|done].
    match type of IHr with
    | match ?a with _ => _ end = match ?b with _ => _ end =>
        assert (a = b) as -> by (destruct a, b; congruence)
    end. done.
  - unfold shift_kvs. induction d as [|[key x] r IHr]; [done|]. cbn [map fst snd]. rewrite IH.
    destruct (tree_of_aux n (heap s) x); [|done].
    match type of IHr with
    | match ?a with _ => _ end = match ?b with _ => _ end =>
        assert (a = b) as -> by (destruct a, b; congruence)
    end. done.
Qed.

Lemma related_tree_of v1 v2 :
  v1 = shift_val k v2 -> rel (fun t => t) (tree_of v1) (tree_of v2).
Proof.
  intros -> s. unfold tree_of. cbn [fst snd]. rewrite tree_of_aux_embed.
  by destruct (tree_of_aux recursion_limit (heap s) v2).
Qed.

Lemma related_mapM {X Y} (shX : X -> X) (shY : Y -> Y) (f1 f2 : X -> M Y) xs1 xs2 :
  (forall x, rel shY (f1 (shX x)) (f2 x)) -> xs1 = map shX xs2 ->
  rel (map shY) (mapM f1 xs1) (mapM f2 xs2).
Proof.
  intros Hf ->. induction xs2 as [|x r IH]; cbn [map mapM]; [by apply related_ret|].
  eapply related_bind; [apply Hf|]. intros y.
  eapply related_bind; [apply IH|]. intros ys. by apply related_ret.
Qed.

Lemma related_filterM {X} (shX : X -> X) (f1 f2 : X -> M bool) xs1 xs2 :
  (forall x, rel (fun b => b) (f1 (shX x)) (f2 x)) -> xs1 = map shX xs2 ->
  rel (map shX) (filterM f1 xs1) (filterM f2 xs2).
Proof.
  intros Hf ->. induction xs2 as [|x r IH]; cbn [map filterM]; [by apply related_ret|].
  eapply related_bind; [apply Hf|]. intros b.
  eapply related_bind; [apply IH|]. intros ys. apply related_ret. by destruct b.
Qed.

Lemma related_forM_ {X} (shX : X -> X) (f1 f2 : X -> M unit) xs1 xs2 :
  (forall x, rel (fun u => u) (f1 (shX x)) (f2 x)) -> xs1 = map shX xs2 ->
  rel (fun u => u) (forM_ xs1 f1) (forM_ xs2 f2).
Proof.
  intros Hf ->. induction xs2 as [|x r IH]; cbn [map forM_]; [by apply related_ret|].
  eapply related_bind; [apply Hf|]. intros []. apply IH.
Qed.

Lemma related_alloc_tree t : rel (shift_val k) (alloc_tree t) (alloc_tree t).
Proof.
  induction t as [| b | z | x | ts IH | kts IH] using tree_ind';
    try (by apply related_ret).
  - cbn [alloc_tree]. eapply (related_bind (map (shift_val k))).
    + induction IH as [|t r Ht _ IHr]; [by apply related_ret|].
      eapply related_bind; [exact Ht|]. intros v.
      eapply related_bind; [exact IHr|]. intros vs. by apply related_ret.
    + intros vs. by apply related_alloc.
  - cbn [alloc_tree]. eapply (related_bind (shift_kvs k)).
    + induction IH as [|[key t] r Ht _ IHr]; [by apply related_ret|].
      eapply related_bind; [exact Ht|]. intros v.
      eapply related_bind; [exact IHr|]. intros vs. by apply related_ret.
    + intros vs. by apply related_alloc.
Qed.
End Embed.

Lemma is_empty_map {X Y} (f : X -> Y) xs : is_empty (map f xs) = is_empty xs.
Proof. by destruct xs. Qed.

(** How a result of type [X] is seen from the longer store. *)
Ltac sh_for X h0 :=
  lazymatch X with
  | value => constr:(shift_val (length h0))
  | list value => constr:(map (shift_val (length h0)))
  | _ => constr:(fun x : X => x)
  end.

Ltac rel_prim :=
  first [ by apply related_ret | apply related_raise | apply related_lift
        | apply related_log | by apply related_alloc | apply related_alloc_tree
        | by apply related_truthy | by apply related_isinstance_list
        | by apply related_isinstance_str | by apply related_getitem_key
        | by apply related_getitem_first | by apply related_setitem_key
        | by apply related_str_in | by apply related_py_iter
        | by apply related_list_method | by apply related_list_extend
        | by apply related_py_replace | by apply related_py_eq_m
        | by apply related_py_in_list | by apply related_tree_of ].

Ltac rel_steps :=
  cbv beta; rewrite ?is_empty_map;
  lazymatch goal with
  | |- related ?h0 _ _ (@bind ?X _ _ _) _ =>
      let f := sh_for X h0 in
      eapply (related_bind h0 _ f); [rel_steps | intros ?; rel_steps]
  | |- related _ _ _ (if _ then _ else _) _ => apply related_if; rel_steps
  | |- related _ _ _ (try_except _ _ _) _ =>
      eapply related_try_except; [rel_steps | intros ?; rel_steps]
  | |- related _ _ _ (py_get _ _ _) _ =>
      eapply related_py_get; [reflexivity | rel_steps]
  | |- related _ _ _ (mapM _ _) _ =>
      eapply (related_mapM _ _ (shift_val _)); [intros ?; rel_steps | reflexivity]
  | |- related _ _ _ (filterM _ _) _ =>
      eapply (related_filterM _ _ (shift_val _)); [intros ?; rel_steps | reflexivity]
  | |- related _ _ _ (forM_ _ _) _ =>
      eapply (related_forM_ _ _ (shift_val _)); [intros ?; rel_steps | reflexivity]
  | |- related _ _ _ (match ?x with _ => _ end) _ => destruct x; rel_steps
  | |- _ => first [rel_prim | idtac]
  end.

Section Stateless.
Context `{host : Host}.
Context (h0 : list obj) (lg0 : list string).
Local Abbreviation k := (length h0).
Local Abbreviation rel := (related h0 lg0).

Lemma related_content_of v1 v2 :
  v1 = shift_val k v2 -> rel (fun t => t) (content_of v1) (content_of v2).
Proof. apply related_tree_of. Qed.

Lemma related_call f arg1 arg2 :
  arg1 = shift_val k arg2 -> rel (shift_val k) (call f arg1) (call f arg2).
Proof.
  intros ->. unfold call.
  eapply related_bind; [by apply related_content_of|]. intros t. rel_steps.
Qed.

Lemma related_py_json_loads v1 v2 :
  v1 = shift_val k v2 -> rel (shift_val k) (py_json_loads v1) (py_json_loads v2).
Proof. intros ->. unfold py_json_loads. destruct v2; cbn [shift_val]; rel_steps. Qed.

Lemma related_generate_extract soup :
  rel (shift_val k) (generate_extract soup) (generate_extract soup).
Proof. unfold generate_extract. rel_steps. Qed.

Lemma related_extras_with_key pkg1 pkg2 key :
  pkg1 = shift_val k pkg2 ->
  rel (map (shift_val k)) (extras_with_key pkg1 key) (extras_with_key pkg2 key).
Proof. intros ->. unfold extras_with_key. rel_steps. Qed.

Lemma related_fix_erroneous_tags pkg1 pkg2 :
  pkg1 = shift_val k pkg2 ->
  rel (fun u => u) (fix_erroneous_tags pkg1) (fix_erroneous_tags pkg2).
Proof. intros ->. unfold fix_erroneous_tags. rel_steps. Qed.

Lemma related_set_description_and_extract pkg1 pkg2 soup :
  pkg1 = shift_val k pkg2 ->
  rel (fun x => x) (set_description_and_extract pkg1 soup)
    (set_description_and_extract pkg2 soup).
Proof.
  intros ->. unfold set_description_and_extract. rel_steps.
  apply related_generate_extract.
Qed.

Lemma related_set_full_metadata_url_and_update_frequency hc1 hc2 pkg1 pkg2 soup :
  hc1 = shift_val k hc2 -> pkg1 = shift_val k pkg2 ->
  rel (fun u => u) (set_full_metadata_url_and_update_frequency hc1 pkg1 soup)
    (set_full_metadata_url_and_update_frequency hc2 pkg2 soup).
Proof.
  intros -> ->. unfold set_full_metadata_url_and_update_frequency.
  eapply related_bind; [by apply related_extras_with_key|]. intros found.
  rel_steps; by apply related_call.
Qed.

Lemma related_set_default_group hc1 hc2 pkg1 pkg2 :
  hc1 = shift_val k hc2 -> pkg1 = shift_val k pkg2 ->
  rel (fun u => u) (set_default_group hc1 pkg1) (set_default_group hc2 pkg2).
Proof. intros -> ->. unfold set_default_group. rel_steps. Qed.

Lemma related_default_unless_extra pkg1 pkg2 key default :
  pkg1 = shift_val k pkg2 ->
  rel (fun u => u) (default_unless_extra pkg1 key default)
    (default_unless_extra pkg2 key default).
Proof.
  intros ->. unfold default_unless_extra.
  eapply related_bind; [by apply related_extras_with_key|]. intros found. rel_steps.
Qed.

Lemma related_date_unless_extra dcat1 dcat2 pkg1 pkg2 source key :
  dcat1 = shift_val k dcat2 -> pkg1 = shift_val k pkg2 ->
  rel (fun u => u) (date_unless_extra dcat1 pkg1 source key)
    (date_unless_extra dcat2 pkg2 source key).
Proof.
  intros -> ->. unfold date_unless_extra.
  eapply related_bind; [rel_steps|]. intros date.
  eapply related_bind; [by apply related_extras_with_key|]. intros found.
  rel_steps. by apply related_call.
Qed.

Lemma related_set_required_fields_defaults hc1 hc2 dcat1 dcat2 pkg1 pkg2 :
  hc1 = shift_val k hc2 -> dcat1 = shift_val k dcat2 -> pkg1 = shift_val k pkg2 ->
  rel (fun u => u) (set_required_fields_defaults hc1 dcat1 pkg1)
    (set_required_fields_defaults hc2 dcat2 pkg2).
Proof.
  intros -> -> ->. unfold set_required_fields_defaults.
  do 6 (eapply related_bind; [by apply related_default_unless_extra|]; intros []).
  do 2 (eapply related_bind; [by apply related_date_unless_extra|]; intros []).
  eapply related_bind; [rel_steps|]. intros landing_page.
  eapply related_bind; [by apply related_extras_with_key|]. intros found.
  rel_steps.
Qed.

Lemma related_load_harvest_config harvest_object :
  rel (shift_val k) (load_harvest_config harvest_object)
    (load_harvest_config harvest_object).
Proof.
  unfold load_harvest_config.
  eapply related_try_except; [|intros e; by apply related_ret].
  destruct (HarvestSource_get _) as [src|]; [|apply related_raise].
  destruct (source_config src); [by apply related_py_json_loads|apply related_raise].
Qed.

Lemma related_datavic_conversion hc1 hc2 dcat1 dcat2 pkg1 pkg2 soup :
  hc1 = shift_val k hc2 -> dcat1 = shift_val k dcat2 -> pkg1 = shift_val k pkg2 ->
  rel (fun u => u) (datavic_conversion hc1 dcat1 pkg1 soup)
    (datavic_conversion hc2 dcat2 pkg2 soup).
Proof.
  intros -> -> ->. unfold datavic_conversion.
  eapply related_bind; [by apply related_set_description_and_extract|]. intros soup1.
  eapply related_bind;
    [by apply related_set_full_metadata_url_and_update_frequency|]. intros [].
  eapply related_bind; [by apply related_fix_erroneous_tags|]. intros [].
  eapply related_bind; [by apply related_set_default_group|]. intros [].
  by apply related_set_required_fields_defaults.
Qed.

Lemma related_load_harvest_object harvest_object :
  rel (shift_loaded h0) (load_harvest_object harvest_object)
    (load_harvest_object harvest_object).
Proof.
  unfold load_harvest_object.
  eapply related_bind; [by apply related_py_json_loads|]. intros dcat.
  eapply related_bind; [by apply related_call|]. intros pkg.
  eapply related_bind; [apply related_load_harvest_config|]. intros hc.
  eapply related_bind; [by apply related_getitem_key|]. intros notes.
  eapply related_bind; [by apply related_content_of|]. intros markup.
  eapply related_bind; [apply related_lift|]. intros soup.
  by apply related_ret.
Qed.

Lemma related_get_package_dict harvest_object :
  rel (shift_pair h0) (_get_package_dict harvest_object) (_get_package_dict harvest_object).
Proof.
  unfold _get_package_dict.
  eapply related_bind; [apply related_load_harvest_object|].
  intros [[[dcat pkg] hc] soup]. cbn [shift_loaded].
  eapply related_bind; [by apply related_datavic_conversion|]. intros [].
  by apply related_ret.
Qed.
End Stateless.

Section StatelessTheorem.
Context `{host : Host}.

Lemma embed_start s : embed (heap s) (logs s) (mkState [] []) = s.
Proof. unfold embed. cbn. by rewrite !app_nil_r, state_eta. Qed.

(** A run from any state is the run from the empty state, moved. *)
Lemma get_package_dict_from_start harvest_object s r0 :
  r0 = _get_package_dict harvest_object (mkState [] []) ->
  _get_package_dict harvest_object s
  = (shift_outcome (shift_pair (heap s)) (fst r0), embed (heap s) (logs s) (snd r0)).
Proof.
  intros ->. rewrite <- (embed_start s) at 1.
  apply (related_get_package_dict (heap s) (logs s)).
Qed.

Lemma bind_same {A B} (m : M A) (f g : A -> M B) s :
  (forall a s1, m s = (Ok a, s1) -> f a s1 = g a s1) -> bind m f s = bind m g s.
Proof. unfold bind. intros H. destruct (m s) as [[a|e] s1]; [by apply H|done]. Qed.

Lemma bind_same_run {A B} (m1 m2 : M A) (f : A -> M B) s :
  m1 s = m2 s -> bind m1 f s = bind m2 f s.
Proof. unfold bind. by intros ->. Qed.

Lemma getattr_run s l attrs name v :
  heap s !! l = Some (ODict attrs) -> assoc_get name attrs = Some v ->
  getattr (VRef l) name s = (Ok v, s).
Proof. intros Hl Hv. unfold getattr. by rewrite Hl, Hv. Qed.

(** The configuration that is loaded depends on the harvest source through
    its configuration only. *)
Lemma load_harvest_config_same ho1 ho2 s :
  configuration_of (harvest_source_id ho1) = configuration_of (harvest_source_id ho2) ->
  load_harvest_config ho1 s = load_harvest_config ho2 s.
Proof.
  unfold configuration_of, load_harvest_config, try_except, raise, ret.
  destruct (HarvestSource_get (harvest_source_id ho1)) as [src1|],
           (HarvestSource_get (harvest_source_id ho2)) as [src2|]; cbn.
  - by intros ->.
  - by intros ->.
  - by intros <-.
  - done.
Qed.

Lemma load_harvest_object_same ho1 ho2 s :
  content ho1 = content ho2 ->
  configuration_of (harvest_source_id ho1) = configuration_of (harvest_source_id ho2) ->
  load_harvest_object ho1 s = load_harvest_object ho2 s.
Proof.
  intros Hc Hs. unfold load_harvest_object. rewrite Hc.
  apply bind_same. intros dcat s1 _. apply bind_same. intros pkg s2 _.
  apply bind_same_run, load_harvest_config_same, Hs.
Qed.

Lemma get_package_dict_same ho1 ho2 s :
  content ho1 = content ho2 ->
  configuration_of (harvest_source_id ho1) = configuration_of (harvest_source_id ho2) ->
  _get_package_dict ho1 s = _get_package_dict ho2 s.
Proof.
  intros Hc Hs. unfold _get_package_dict.
  by apply bind_same_run, load_harvest_object_same.
Qed.

Lemma alloc_tree_keeps t s v s' l o :
  alloc_tree t s = (Ok v, s') -> heap s !! l = Some o -> heap s' !! l = Some o.
Proof.
  intros H Hl. apply alloc_tree_inv in H as (ext & -> & _). by apply lookup_app_l_Some.
Qed.

(** The configuration that the method loads for a harvest object of the
    store. *)
Lemma stored_load_harvest_config o ho s :
  harvest_object_at (heap s) o ho ->
  Stored.load_harvest_config o s = load_harvest_config ho s.
Proof.
  intros (l & attrs & -> & Hl & _ & Hid).
  unfold Stored.load_harvest_config, load_harvest_config, try_except.
  by rewrite (bind_ok _ _ _ _ _ (getattr_run _ _ _ _ _ Hl Hid)).
Qed.

Lemma stored_load_harvest_object o ho s :
  harvest_object_at (heap s) o ho ->
  Stored.load_harvest_object o s = load_harvest_object ho s.
Proof.
  intros (l & attrs & -> & Hl & Hcontent & Hid).
  unfold Stored.load_harvest_object, load_harvest_object.
  rewrite (bind_ok _ _ _ _ _ (getattr_run _ _ _ _ _ Hl Hcontent)).
  apply bind_same. intros dcat s1 H1. apply bind_same. intros pkg s2 H2.
  apply py_json_loads_inv in H1 as (t & _ & H1).
  apply call_inv in H2 as (t' & pt & _ & H2).
  assert (Hl2 : heap s2 !! l = Some (ODict attrs)).
  { eapply alloc_tree_keeps; [exact H2|]. by eapply alloc_tree_keeps. }
  apply bind_same_run, stored_load_harvest_config. by exists l, attrs.
Qed.

(** The method on a harvest object of the store does what the conversion
    does for its content and its source. *)
Lemma stored_get_package_dict self o ho s :
  harvest_object_at (heap s) o ho ->
  Stored._get_package_dict self o s = _get_package_dict ho s.
Proof.
  intros H. unfold Stored._get_package_dict, _get_package_dict.
  by apply bind_same_run, stored_load_harvest_object.
Qed.

(** C7: two calls of [_get_package_dict], from any two states, on harvest
    objects with the same content and the same configuration of their harvest
    sources, raise the same exception or return dicts of the same content, and
    log the same records; and each call leaves every object that it found in
    the store as it was: the harvester, the harvest objects, and what an
    earlier call has made.  So a call has nothing to find of the calls before
    it. *)
Theorem get_package_dict_stateless self o1 o2 ho1 ho2 s1 s2 :
  harvest_object_at (heap s1) o1 ho1 ->
  harvest_object_at (heap s2) o2 ho2 ->
  content ho1 = content ho2 ->
  configuration_of (harvest_source_id ho1) = configuration_of (harvest_source_id ho2) ->
  let r1 := Stored._get_package_dict self o1 s1 in
  let r2 := Stored._get_package_dict self o2 s2 in
  (forall fuel, view fuel r1 = view fuel r2) /\
  (forall l o, heap s1 !! l = Some o -> heap (snd r1) !! l = Some o) /\
  (forall l o, heap s2 !! l = Some o -> heap (snd r2) !! l = Some o) /\
  (exists records, logs (snd r1) = logs s1 ++ records /\
                   logs (snd r2) = logs s2 ++ records).
Proof.
  intros H1 H2 Hc Hs r1 r2. subst r1 r2.
  rewrite (stored_get_package_dict self o1 ho1 s1 H1).
  rewrite (stored_get_package_dict self o2 ho2 s2 H2).
  rewrite <- (get_package_dict_same ho1 ho2 s2 Hc Hs).
  remember (_get_package_dict ho1 (mkState [] [])) as r0 eqn:E0.
  rewrite (get_package_dict_from_start _ s1 r0 E0), (get_package_dict_from_start _ s2 r0 E0).
  clear E0. cbn [fst snd embed heap logs]. split_and!.
  - intros fuel. unfold view. cbn [fst snd].
    destruct (fst r0) as [[pkg dcat]|e]; [|done].
    cbn [shift_outcome shift_pair fst snd]. by rewrite !tree_of_aux_embed.
  - intros l o Hl. by apply lookup_app_l_Some.
  - intros l o Hl. by apply lookup_app_l_Some.
  - by exists (logs (snd r0)).
Qed.
End StatelessTheorem.

(** ** The properties on concrete documents *)

Import Examples.

#[local] Existing Instance Reference.host.

Lemma get_package_dict_required_defaults_witness :
  Forall (fun fd =>
            (has_extra (heap (snd (_get_package_dict record Reference.start)))
               (VRef 10) (fst fd) \/
             has_field (heap (snd (_get_package_dict record Reference.start)))
               (VRef 10) (fst fd) (VStr (snd fd))) /\
            (~ has_extra (heap (snd (_get_package_dict record Reference.start)))
                 (VRef 10) (fst fd) ->
             has_field (heap (snd (_get_package_dict record Reference.start)))
               (VRef 10) (fst fd) (VStr (snd fd))))
    required_defaults.
Proof.
  apply (get_package_dict_required_defaults record Reference.start (VRef 10) (VRef 1)).
  vm_compute. reflexivity.
Defined.

Lemma set_description_and_extract_degrades_witness :
  exists s' d' v,
    set_description_and_extract (VRef 0) "Population by suburb" undescribed
    = (Ok "Population by suburb", s') /\
    heap s' !! 0 = Some (ODict d') /\
    assoc_get "notes" d' = Some v /\ repr (heap s') v (TStr "Population by suburb") /\
    assoc_get "extract" d' = Some (VStr (extract_of "Population by suburb")) /\
    logs s' = logs undescribed
              ++ extract_logs ("Population by suburb" : @Soup Reference.host)
                   "Population by suburb".
Proof.
  apply (set_description_and_extract_degrades (host := Reference.host) undescribed 0
           [("notes", VStr "Population by suburb")] "Population by suburb"
           "Population by suburb" "Population by suburb"); reflexivity.
Defined.

(** The extract of a description without a full stop is the description, not
    the placeholder text, and so are the notes. *)
Lemma extract_is_not_placeholder :
  let r := set_description_and_extract (VRef 0)
             ("Population by suburb" : @Soup Reference.host) undescribed in
  fst r = Ok "Population by suburb" /\
  heap (snd r) !! 0 = Some (ODict [("notes", VStr "Population by suburb");
                                   ("extract", VStr "Population by suburb")]) /\
  logs (snd r) = ["Generate extract error for: Population by suburb";
                  "substring not found"] /\
  VStr "Population by suburb" <> VStr "No abstract has been entered for this dataset." /\
  VStr "Population by suburb" <> VStr "No description has been entered for this dataset.".
Proof. vm_compute. split_and!; try reflexivity; discriminate. Qed.

Lemma validate_config_result_witness :
  (exists msg, validate_config (VStr "{bad") Reference.start
               = (Raise (ValueError msg), Reference.start)) /\
  (exists out s',
     validate_config
       (VStr (Reference.json_text "{'default_groups': ['spatial-data', 'g2']}"))
       Reference.start
     = (Ok (VStr out), s')).
Proof.
  split.
  - apply (validate_config_result "{bad" Reference.start); [discriminate | reflexivity].
  - apply (validate_config_result
             (Reference.json_text "{'default_groups': ['spatial-data', 'g2']}")
             Reference.start).
    right. eexists. split; [vm_compute; reflexivity|]. split.
    + exists ["spatial-data"; "g2"]. split; [reflexivity|].
      repeat constructor; eexists _, _, _; split_and!; reflexivity.
    + unfold recursion_limit. cbn [depth fold_right snd]. lia.
Defined.


Lemma conversion_keeps_harvest_config_witness :
  exists cfg,
    repr (heap (snd (load_harvest_object record Reference.start))) (VRef 15) cfg /\
    repr (heap (snd (datavic_conversion (VRef 15) (VRef 1) (VRef 10)
                       ("Street trees. Surveyed & mapped" : @Soup Reference.host)
                       (snd (load_harvest_object record Reference.start)))))
      (VRef 15) cfg.
Proof.
  apply (conversion_keeps_harvest_config record Reference.start (VRef 1) (VRef 10) (VRef 15)
           ("Street trees. Surveyed & mapped" : @Soup Reference.host)
           (snd (load_harvest_object record Reference.start))
           (fst (datavic_conversion (VRef 15) (VRef 1) (VRef 10)
                   ("Street trees. Surveyed & mapped" : @Soup Reference.host)
                   (snd (load_harvest_object record Reference.start))))).
  - vm_compute. reflexivity.
  - vm_compute. reflexivity.
Defined.

Lemma get_package_dict_keeps_dcat_dict_witness :
  exists ct,
    json_loads (content record) = Some ct /\
    repr (heap (snd (_get_package_dict record Reference.start))) (VRef 1) ct.
Proof.
  apply (get_package_dict_keeps_dcat_dict record Reference.start (VRef 10) (VRef 1)).
  vm_compute. reflexivity.
Defined.

Lemma fix_erroneous_tags_replaces_ampersands_witness :
  exists s',
    fix_erroneous_tags (VRef 3) tagged = (Ok tt, s') /\
    logs s' = logs tagged /\
    heap s' !! 2 = Some (OList [VRef 0; VRef 1]) /\
    Forall (fun t => exists e kvs kvs',
      t = VRef e /\ heap tagged !! e = Some (ODict kvs) /\
      heap s' !! e = Some (ODict kvs') /\
      map fst kvs' = map fst kvs /\
      (forall k, k <> "name" -> assoc_get k kvs' = assoc_get k kvs) /\
      (forall x, assoc_get "name" kvs = Some (VStr x) ->
         assoc_get "name" kvs' = Some (VStr (str_replace "&"%char "and" x))) /\
      (forall v, assoc_get "name" kvs' = Some v ->
         exists x, v = VStr x /\ str_contains "&" x = false) /\
      (assoc_get "name" kvs = None -> kvs' = kvs)) [VRef 0; VRef 1].
Proof.
  apply (fix_erroneous_tags_replaces_ampersands tagged 3 [("tags", VRef 2)] 2
           [VRef 0; VRef 1]); try reflexivity.
  repeat constructor.
  - eexists 0, _. split_and!; try reflexivity. intros v [= <-]. eauto.
  - eexists 1, _. split_and!; try reflexivity. intros v [=].
Defined.

Lemma set_default_group_appends_missing_witness :
  exists s' d' lgs',
    set_default_group (VRef 3) (VRef 6) grouped = (Ok tt, s') /\
    heap s' !! 6 = Some (ODict d') /\
    assoc_get "category" d' = Some (VStr "g1") /\
    assoc_get "groups" d' = Some (VRef lgs') /\
    heap s' !! lgs' = Some (OList ([VRef 4] ++ [VRef 0])) /\
    Forall2 (has_id (heap s')) [VRef 4] ["g2"] /\
    Forall2 (has_id (heap s')) [VRef 0; VRef 1] ["g1"; "g2"].
Proof.
  apply (set_default_group_appends_missing grouped 3 [("default_group_dicts", VRef 2)] 2
           [VRef 0; VRef 1] ["g1"; "g2"] 6 [("groups", VRef 5)] [VRef 4] ["g2"]);
    try reflexivity.
  - discriminate.
  - repeat constructor; eexists _, _; split_and!; reflexivity.
  - exists 5. split; reflexivity.
  - repeat constructor; eexists _, _; split_and!; reflexivity.
Defined.

(** A default group that the configuration lists twice is added twice. *)
Lemma set_default_group_adds_duplicates :
  let r := set_default_group (VRef 3) (VRef 4) doubled in
  fst r = Ok tt /\
  heap (snd r) !! 4 = Some (ODict [("category", VStr "g1"); ("groups", VRef 5)]) /\
  heap (snd r) !! 5 = Some (OList [VRef 0; VRef 1]) /\
  has_id (heap (snd r)) (VRef 0) "g1" /\ has_id (heap (snd r)) (VRef 1) "g1".
Proof.
  vm_compute. split_and!; try reflexivity; eexists _, _; split_and!; reflexivity.
Qed.

Lemma validate_config_identity_witness :
  validate_config VNone Reference.start = (Ok VNone, Reference.start) /\
  exists s',
    validate_config
      (VStr (Reference.json_text "{'default_license': {'id': 'cc-by'}}")) Reference.start
    = (Ok (VStr (Reference.json_text "{'default_license': {'id': 'cc-by'}}")), s').
Proof.
  split.
  - apply (proj1 validate_config_identity VNone Reference.start). reflexivity.
  - apply (proj2 validate_config_identity
             (Reference.json_text "{'default_license': {'id': 'cc-by'}}")
             (TDict [("default_license", TDict [("id", TStr "cc-by")])]) Reference.start).
    + discriminate.
    + vm_compute. reflexivity.
    + reflexivity.
Defined.

(** The configuration [5] is valid JSON and has no ['default_groups'] key, yet
    [validate_config] raises a [TypeError] on it. *)
Lemma validate_config_rejects_scalar :
  json_loads "5" = Some (TInt 5) /\
  validate_config (VStr "5") Reference.start = (Raise TypeError, Reference.start).
Proof. split; vm_compute; reflexivity. Qed.


(** The package dict has a non-empty list of tags, the first of them with the
    number [2020] for its name: [fix_erroneous_tags] raises a [TypeError], and
    the name of the second tag still contains ['&']. *)
Lemma fix_erroneous_tags_leaves_ampersand :
  let r := fix_erroneous_tags (VRef 3) Cases.misnamed in
  heap Cases.misnamed !! 2 = Some (OList [VRef 0; VRef 1]) /\
  fst r = Raise TypeError /\
  heap (snd r) !! 1 = Some (ODict [("name", VStr "parks & gardens")]) /\
  str_contains "&" "parks & gardens" = true.
Proof. vm_compute. split_and!; reflexivity. Qed.

Lemma get_package_dict_stateless_witness :
  (forall fuel,
     view fuel (Stored._get_package_dict (VRef 0) (VRef 1) Cases.harvesting)
     = view fuel (Stored._get_package_dict (VRef 0) (VRef 2)
                    (snd (Stored._get_package_dict (VRef 0) (VRef 1) Cases.harvesting)))) /\
  (forall l o, heap Cases.harvesting !! l = Some o ->
     heap (snd (Stored._get_package_dict (VRef 0) (VRef 1) Cases.harvesting)) !! l = Some o) /\
  (forall l o,
     heap (snd (Stored._get_package_dict (VRef 0) (VRef 1) Cases.harvesting)) !! l = Some o ->
     heap (snd (Stored._get_package_dict (VRef 0) (VRef 2)
                  (snd (Stored._get_package_dict (VRef 0) (VRef 1) Cases.harvesting)))) !! l
     = Some o) /\
  (exists records,
     logs (snd (Stored._get_package_dict (VRef 0) (VRef 1) Cases.harvesting))
     = logs Cases.harvesting ++ records /\
     logs (snd (Stored._get_package_dict (VRef 0) (VRef 2)
                  (snd (Stored._get_package_dict (VRef 0) (VRef 1) Cases.harvesting))))
     = logs (snd (Stored._get_package_dict (VRef 0) (VRef 1) Cases.harvesting)) ++ records).
Proof.
  apply (get_package_dict_stateless (VRef 0) (VRef 1) (VRef 2) record record Cases.harvesting
           (snd (Stored._get_package_dict (VRef 0) (VRef 1) Cases.harvesting))).
  - eexists 1, _. split_and!; reflexivity.
  - eexists 2, _. split_and!; [reflexivity | vm_compute; reflexivity | reflexivity..].
  - reflexivity.
  - reflexivity.
Defined.

(** * Further properties of the harvester *)

(** ** The validation of the configuration *)

Section ValidationMore.
Context `{host : Host}.

Lemma group_found_dict x :
  group_found x ->
  exists gk i nm, group_show (TStr x) = Ok (TDict gk) /\
    assoc_get "id" gk = Some (TStr i) /\ assoc_get "name" gk = Some (TStr nm) /\
    group_dict x = TDict [("id", TStr i); ("name", TStr nm)].
Proof.
  intros (gk & i & nm & Hshow & Hi & Hn). exists gk, i, nm. split_and!; try done.
  unfold group_dict. by rewrite Hshow, Hi, Hn.
Qed.

Lemma store_group_found s lc kvs g es x :
  heap s !! lc = Some (ODict kvs) -> assoc_get "default_group_dicts" kvs = Some (VRef g) ->
  heap s !! g = Some (OList es) -> group_found x ->
  exists s' e,
    store_group (VRef lc) (VStr x) s = (Ok tt, s') /\
    heap s' !! g = Some (OList (es ++ [VRef e])) /\
    entry_for (heap s') (VRef e) x /\
    length (heap s) <= e < length (heap s') /\
    (forall l, l < length (heap s) -> l <> g -> heap s' !! l = heap s !! l) /\
    logs s' = logs s.
Proof.
  intros Hc Hk Hg Hx.
  destruct (group_found_dict x Hx) as (gk & i & nm & Hshow & Hi & Hn & Hdict).
  destruct (alloc_tree_dict gk s) as (gkv & ext & Ealloc & Hvals & Hclosed & Hrepr).
  set (s1 := mkState (heap s ++ ext ++ [ODict gkv]) (logs s)) in *.
  assert (Hlt : forall l o, heap s !! l = Some o -> heap s1 !! l = Some o).
  { intros l o Hl. cbn. by apply lookup_app_l_Some. }
  specialize (Hrepr (heap s1) (agrees_app_self _ _ _)).
  destruct (assoc_get_Forall2 _ _ _ _ _ Hrepr Hi) as (vi & Evi & Hvi).
  destruct (assoc_get_Forall2 _ _ _ _ _ Hrepr Hn) as (vn & Evn & Hvn).
  apply repr_str_inv in Hvi as ->. apply repr_str_inv in Hvn as ->.
  assert (Hgl : heap s1 !! (length (heap s) + length ext) = Some (ODict gkv))
    by apply lookup_app_at.
  set (entry := ODict [("id", VStr i); ("name", VStr nm)]).
  set (s2 := mkState (heap s1 ++ [entry]) (logs s1)).
  exists (mkState (<[g := OList (es ++ [VRef (length (heap s1))])]> (heap s2)) (logs s2)),
    (length (heap s1)).
  assert (Hg2 : heap s2 !! g = Some (OList es)).
  { cbn. apply lookup_app_l_Some. by apply Hlt. }
  split.
  - unfold store_group, try_except.
    assert (call group_show (VStr x) s = (Ok (VRef (length (heap s) + length ext)), s1)) as Ecall.
    { unfold call, content_of, tree_of. unfold bind at 1. rewrite tree_of_atom_str.
      unfold bind at 1, lift. by rewrite Hshow. }
    rewrite (bind_ok _ _ _ _ _ Ecall).
    rewrite (bind_ok _ _ _ _ _ (getitem_key_run _ _ _ _ _ (Hlt _ _ Hc) Hk)).
    rewrite (bind_ok _ _ _ _ _ (list_method_run _ _ _ (Hlt _ _ Hg))).
    rewrite (bind_ok _ _ _ _ _ (getitem_key_run _ _ _ _ _ Hgl Evi)).
    rewrite (bind_ok _ _ _ _ _ (getitem_key_run _ _ _ _ _ Hgl Evn)).
    unfold bind, alloc. fold entry. fold s2. unfold list_append.
    by rewrite (list_extend_run _ _ _ _ Hg2).
  - cbn [heap logs]. split; [apply list_lookup_insert_eq; by eapply lookup_lt_Some|].
    split.
    + exists (length (heap s1)), i, nm. split; [done|]. split; [|done].
      rewrite list_lookup_insert_ne.
      * subst s2. cbn [heap]. rewrite lookup_app_r, Nat.sub_diag by lia. done.
      * apply lookup_lt_Some in Hg. subst s1. cbn [heap]. rewrite length_app. lia.
    + split; [|split; [|done]].
      * rewrite length_insert. subst s2 s1. cbn [heap]. rewrite !length_app. cbn. lia.
      * intros l Hl Hlg. rewrite list_lookup_insert_ne by done. subst s2 s1. cbn [heap].
        rewrite <- !app_assoc. by rewrite lookup_app_l.
Qed.

Lemma entry_for_frame h h' g v x :
  entry_for h v x ->
  (forall l, l < length h -> l <> g -> h' !! l = h !! l) ->
  (forall xs, h !! g <> Some (ODict xs)) ->
  entry_for h' v x.
Proof.
  intros (e & i & nm & -> & He & Hd) Hframe Hg. exists e, i, nm. split; [done|]. split; [|done].
  rewrite Hframe; [done| by eapply lookup_lt_Some |]. intros ->. by eapply Hg.
Qed.

Lemma store_group_loop lc g names :
  forall s kvs es stored,
  heap s !! lc = Some (ODict kvs) -> assoc_get "default_group_dicts" kvs = Some (VRef g) ->
  heap s !! g = Some (OList es) -> lc <> g ->
  Forall2 (entry_for (heap s)) es stored ->
  Forall group_found names ->
  exists s' es',
    forM_ (map VStr names) (store_group (VRef lc)) s = (Ok tt, s') /\
    heap s' !! g = Some (OList es') /\ Forall2 (entry_for (heap s')) es' (stored ++ names) /\
    length (heap s) <= length (heap s') /\
    (forall l, l < length (heap s) -> l <> g -> heap s' !! l = heap s !! l) /\
    logs s' = logs s.
Proof.
  induction names as [|x r IH]; intros s kvs es stored Hc Hk Hg Hne Hes Hall.
  - exists s, es. rewrite app_nil_r. split_and!; done.
  - apply Forall_cons in Hall as [Hx Hr]. cbn [map forM_].
    destruct (store_group_found s lc kvs g es x Hc Hk Hg Hx)
      as (s1 & e & Erun & Hg1 & He & Hlen & Hframe & Hlog).
    assert (Hc1 : heap s1 !! lc = Some (ODict kvs)).
    { rewrite Hframe; [done| by eapply lookup_lt_Some |done]. }
    assert (Hes1 : Forall2 (entry_for (heap s1)) (es ++ [VRef e]) (stored ++ [x])).
    { apply Forall2_app; [|by repeat constructor].
      eapply Forall2_impl; [exact Hes|]. intros v y Hv.
      eapply entry_for_frame; [exact Hv|exact Hframe|]. intros xs. congruence. }
    destruct (IH s1 kvs _ _ Hc1 Hk Hg1 Hne Hes1 Hr)
      as (s' & es' & Erun' & Hg' & Hes' & Hlen' & Hframe' & Hlog').
    rewrite (bind_ok _ _ _ _ _ Erun).
    exists s', es'. rewrite <- app_assoc in Hes'. split_and!; try done; [lia| |congruence].
    intros l Hl Hlg. rewrite Hframe' by (done || lia). by apply Hframe.
Qed.

Lemma entries_repr h es names :
  Forall2 (entry_for h) es names -> Forall2 (repr h) es (map group_dict names).
Proof.
  induction 1 as [|v x es names (e & i & nm & -> & He & Hd) _ IH]; [constructor|].
  cbn [map]. constructor; [|done]. rewrite Hd. econstructor; [exact He|].
  repeat constructor.
Qed.

Lemma entries_depth names :
  Forall group_found names -> depth (TList (map group_dict names)) <= 2.
Proof.
  induction 1 as [|x r Hx _ IH]; [cbn; lia|].
  destruct (group_found_dict x Hx) as (gk & i & nm & _ & _ & _ & Hd).
  cbn [depth map fold_right] in *. rewrite Hd. cbn [depth fold_right snd]. lia.
Qed.


(** The run of [validate_config] up to the loop over the groups, with the
    loop as the source has it. *)
Lemma validate_config_reaches_loop text kts names s :
  text <> EmptyString ->
  json_loads text = Some (TDict kts) ->
  assoc_get "default_groups" kts = Some (TList (map TStr names)) ->
  exists s3 lc g kvs ext,
    validate_config (VStr text) s
    = try_except
        (forM_ (map VStr names) (store_group (VRef lc)) ;;; py_json_dumps (VRef lc))
        is_ValueError (fun e => raise e) s3 /\
    heap s3 !! lc
    = Some (ODict (assoc_set "default_group_dicts" (VRef g) kvs)) /\
    heap s3 !! g = Some (OList []) /\ lc <> g /\
    lc = length (heap s) + length ext /\ g = S lc /\ length (heap s3) = S g /\
    agrees (heap s3) (length (heap s)) ext /\
    good_pairs kts (length (heap s)) kvs ext /\
    logs s3 = logs s /\
    (forall l, l < length (heap s) -> heap s3 !! l = heap s !! l).
Proof.
  intros Hne Hloads Hgroups.
  destruct (alloc_tree_dict kts s) as (kvs & ext & Ealloc & Hgood).
  pose proof Hgood as (Hvals & Hclosed & Hrepr).
  set (lc := length (heap s) + length ext) in *.
  set (s1 := mkState (heap s ++ ext ++ [ODict kvs]) (logs s)) in *.
  set (g := S lc).
  assert (Hlen1 : length (heap s1) = g).
  { subst s1 g lc. cbn [heap]. rewrite !length_app. cbn. lia. }
  assert (Hc1 : heap s1 !! lc = Some (ODict kvs)) by apply lookup_app_at.
  pose proof (Hrepr (heap s1) (agrees_app_self _ _ _)) as Hr1.
  destruct (assoc_get_Forall2 _ _ _ _ _ Hr1 Hgroups) as (vg & Evg & Hvg).
  inversion Hvg as [| | | | lg gvs ts Hlg Hgvs |]; subst.
  apply repr_strs in Hgvs as ->.
  assert (Hlgc : lg <> lc) by (intros ->; congruence).
  set (kvs' := assoc_set "default_group_dicts" (VRef g) kvs).
  set (s2 := mkState (heap s1 ++ [OList []]) (logs s1)).
  set (s3 := mkState (<[lc := ODict kvs']> (heap s2)) (logs s2)).
  assert (Hc2 : heap s2 !! lc = Some (ODict kvs)) by (by apply lookup_app_l_Some).
  assert (Hlg2 : heap s2 !! lg = Some (OList (map VStr names))) by (by apply lookup_app_l_Some).
  assert (Hc3 : heap s3 !! lc = Some (ODict kvs')).
  { cbn [heap s3]. apply list_lookup_insert_eq. by eapply lookup_lt_Some. }
  assert (Hlg3 : heap s3 !! lg = Some (OList (map VStr names))).
  { cbn [heap s3]. by rewrite list_lookup_insert_ne. }
  assert (Hk3 : assoc_get "default_groups" kvs' = Some (VRef lg)).
  { unfold kvs'. by rewrite assoc_get_set_ne. }
  exists s3, lc, g, kvs, ext. split.
  { unfold validate_config.
    rewrite (bind_ok _ _ _ _ _ (truthy_nonempty _ _ Hne)). cbn [negb].
    unfold try_except at 1. unfold try_except at 2.
    unfold py_json_loads. rewrite Hloads.
    rewrite (bind_ok _ _ _ _ _ Ealloc). fold lc. fold s1.
    rewrite (bind_ok _ _ _ _ _ (str_in_dict_run _ _ _ _ Hc1)).
    replace (assoc_mem "default_groups" kvs) with true
      by (unfold assoc_mem; by rewrite Evg).
    rewrite (bind_ok _ _ _ _ _ (getitem_key_run _ _ _ _ _ Hc1 Evg)).
    rewrite (bind_ok _ _ _ _ _ (isinstance_list_run _ _ _ Hlg)). cbn [negb].
    rewrite (bind_ok _ _ _ _ _ (getitem_key_run _ _ _ _ _ Hc1 Evg)).
    rewrite (bind_ok _ _ _ _ _ (truthy_list_run _ _ _ Hlg)).
    assert ((if negb (is_empty (map VStr names))
             then groups <- getitem_key (VRef lc) "default_groups" ;;
                  first <- getitem_first groups ;;
                  is_str <- isinstance_str first ;;
                  ret (negb is_str)
             else ret false) s1 = (Ok false, s1)) as Ebad.
    { destruct names as [|x r]; [done|]. cbn [map is_empty negb].
      rewrite (bind_ok _ _ _ _ _ (getitem_key_run _ _ _ _ _ Hc1 Evg)).
      by rewrite (bind_ok _ _ _ _ _ (getitem_first_run _ _ _ _ Hlg)). }
    rewrite (bind_ok _ _ _ _ _ Ebad).
    unfold bind at 1, alloc at 1. rewrite Hlen1. fold s2.
    rewrite (bind_ok _ _ _ _ _ (setitem_key_run _ _ _ _ _ Hc2)). fold kvs'. fold s3.
    rewrite (bind_ok _ _ _ _ _ (getitem_key_run _ _ _ _ _ Hc3 Hk3)).
    rewrite (bind_ok _ _ _ _ _ (py_iter_list_run _ _ _ Hlg3)).
    unfold store_group. reflexivity. }
  split; [done|]. split.
  { cbn [heap s3]. rewrite list_lookup_insert_ne by (subst g; lia).
    subst s2. cbn [heap]. rewrite lookup_app_r by lia. by rewrite Hlen1, Nat.sub_diag. }
  split; [subst g; lia|]. split; [done|]. split; [done|]. split.
  { cbn [heap s3]. rewrite length_insert. subst s2. cbn [heap].
    rewrite length_app, Hlen1. cbn [length]. lia. }
  split.
  { intros i o Hi. cbn [heap s3]. apply lookup_lt_Some in Hi as Hlt.
    rewrite list_lookup_insert_ne by (subst lc; lia).
    subst s2 s1. cbn [heap]. rewrite <- !app_assoc.
    rewrite lookup_app_r, Nat.add_sub' by lia. by apply lookup_app_l_Some. }
  split; [done|]. split; [done|].
  intros l Hl. cbn [heap s3]. rewrite list_lookup_insert_ne by (subst lc; lia).
  subst s2 s1. cbn [heap]. rewrite <- !app_assoc. by rewrite lookup_app_l.
Qed.

(** The run of [validate_config] on a configuration whose default groups the
    host knows. *)
Lemma validate_config_groups_run text kts names s :
  text <> EmptyString ->
  json_loads text = Some (TDict kts) ->
  assoc_get "default_groups" kts = Some (TList (map TStr names)) ->
  Forall group_found names ->
  depth (TDict kts) <= recursion_limit ->
  exists s',
    validate_config (VStr text) s = (Ok (VStr (json_dumps (validated kts names))), s') /\
    logs s' = logs s /\
    length (heap s) <= length (heap s') /\
    (forall l, l < length (heap s) -> heap s' !! l = heap s !! l).
Proof.
  intros Hne Hloads Hgroups Hall Hdepth.
  destruct (validate_config_reaches_loop text kts names s Hne Hloads Hgroups)
    as (s3 & lc & g & kvs & ext & -> & Hc & Hg & Hcg
        & Elc & Eg & Hlen3 & Hagree & (Hvals & Hclosed & Hrepr) & Hlog3 & Hold3).
  destruct (store_group_loop lc g names s3 _ [] [] Hc (assoc_get_set_eq _ _ _) Hg Hcg
              (Forall2_nil_2 _ _ _) Hall)
    as (s4 & es & Erun & Hg4 & Hes & Hlen4 & Hframe & Hlog4).
  cbn [app] in Hes.
  assert (Hc4 : heap s4 !! lc = Some (ODict (assoc_set "default_group_dicts" (VRef g) kvs))).
  { rewrite Hframe; [done|lia|done]. }
  assert (Hagree4 : agrees (heap s4) (length (heap s)) ext).
  { intros i o Hi. apply lookup_lt_Some in Hi as Hlt.
    rewrite Hframe by lia. by apply Hagree. }
  assert (Hr4 : repr (heap s4) (VRef lc) (validated kts names)).
  { econstructor; [exact Hc4|]. apply Forall2_assoc_set; [by apply Hrepr|].
    econstructor; [exact Hg4|]. by apply entries_repr. }
  exists s4. split.
  - unfold try_except. rewrite (bind_ok _ _ _ _ _ Erun).
    unfold py_json_dumps, content_of, tree_of, bind.
    rewrite (tree_of_repr _ _ _ _ Hr4); [done|].
    etransitivity; [apply depth_assoc_set|].
    pose proof (entries_depth names Hall).
    assert (3 <= recursion_limit) by (unfold recursion_limit; lia). lia.
  - split; [congruence|]. split; [lia|].
    intros l Hl. rewrite Hframe by lia. by apply Hold3.
Qed.

(** X1: [validate_config] on a configuration that is a JSON object whose
    [default_groups] is a list of names or ids of groups the host knows
    returns the serialization of that object with [default_group_dicts] set to
    the list of the id and name of each group, in the order of
    [default_groups]; it logs nothing and leaves the objects of the store as
    they are. *)
Theorem validate_config_stores_group_dicts text kts names s :
  text <> EmptyString ->
  json_loads text = Some (TDict kts) ->
  assoc_get "default_groups" kts = Some (TList (map TStr names)) ->
  Forall group_found names ->
  depth (TDict kts) <= recursion_limit ->
  exists s',
    validate_config (VStr text) s = (Ok (VStr (json_dumps (validated kts names))), s') /\
    logs s' = logs s /\
    length (heap s) <= length (heap s') /\
    (forall l, l < length (heap s) -> heap s' !! l = heap s !! l).
Proof. apply validate_config_groups_run. Qed.

Lemma assoc_set_twice {A} k (v w : A) kvs :
  assoc_set k v (assoc_set k w kvs) = assoc_set k v kvs.
Proof.
  induction kvs as [|[k1 v1] r IH]; cbn [assoc_set].
  - by rewrite String.eqb_refl.
  - destruct (String.eqb k k1) eqn:E; cbn [assoc_set]; rewrite ?String.eqb_refl, ?E; [done|].
    by rewrite IH.
Qed.

(** X2: when the host reads back what it serializes, validating the output of
    [validate_config] once more returns that output unchanged: the group
    dicts are rebuilt, not accumulated. *)
Theorem validate_config_idempotent text kts names s :
  text <> EmptyString ->
  json_loads text = Some (TDict kts) ->
  assoc_get "default_groups" kts = Some (TList (map TStr names)) ->
  Forall group_found names ->
  depth (TDict kts) <= recursion_limit ->
  json_loads (json_dumps (validated kts names)) = Some (validated kts names) ->
  exists out s1 s2,
    validate_config (VStr text) s = (Ok (VStr out), s1) /\
    validate_config (VStr out) s1 = (Ok (VStr out), s2).
Proof.
  intros Hne Hloads Hgroups Hall Hdepth Hround.
  destruct (validate_config_groups_run text kts names s Hne Hloads Hgroups Hall Hdepth)
    as (s1 & Erun & _).
  set (out := json_dumps (validated kts names)) in *.
  destruct (String.string_dec out EmptyString) as [Hout|Hout].
  { exists out, s1, s1. split; [done|]. apply validate_config_falsy. by rewrite Hout. }
  destruct (validate_config_groups_run out
              (assoc_set "default_group_dicts" (TList (map group_dict names)) kts) names s1)
    as (s2 & Erun2 & _); try done.
  - by rewrite assoc_get_set_ne.
  - etransitivity; [apply depth_assoc_set|].
    pose proof (entries_depth names Hall).
    assert (3 <= recursion_limit) by (unfold recursion_limit; lia). lia.
  - exists out, s1, s2. split; [done|]. rewrite Erun2. unfold validated.
    by rewrite assoc_set_twice.
Qed.

Lemma repr_not_list h v t : repr h v t -> is_list_tree t = false ->
  forall lg, isinstance_list v (mkState h lg) = (Ok false, mkState h lg).
Proof.
  intros Hr Ht lg. destruct Hr as [| | | | l xs ts Hl _ | l kvs kts Hl _]; try done.
  unfold isinstance_list. cbn [heap]. by rewrite Hl.
Qed.

(** X3: when [default_groups] of a configuration object is not a list,
    [validate_config] raises [ValueError('default_groups must be a *list* of
    group names/ids')], logs nothing and leaves the objects of the store as
    they are. *)
Theorem validate_config_groups_not_list text kts tg s :
  text <> EmptyString ->
  json_loads text = Some (TDict kts) ->
  assoc_get "default_groups" kts = Some tg ->
  is_list_tree tg = false ->
  exists ext,
    validate_config (VStr text) s
    = (Raise (ValueError "default_groups must be a *list* of group names/ids"),
       mkState (heap s ++ ext) (logs s)).
Proof.
  intros Hne Hloads Hgroups Hnl.
  destruct (alloc_tree_dict kts s) as (kvs & ext & Ealloc & Hvals & Hclosed & Hrepr).
  set (lc := length (heap s) + length ext) in *.
  set (s1 := mkState (heap s ++ ext ++ [ODict kvs]) (logs s)) in *.
  assert (Hc1 : heap s1 !! lc = Some (ODict kvs)) by apply lookup_app_at.
  pose proof (Hrepr (heap s1) (agrees_app_self _ _ _)) as Hr1.
  destruct (assoc_get_Forall2 _ _ _ _ _ Hr1 Hgroups) as (vg & Evg & Hvg).
  exists (ext ++ [ODict kvs]). unfold validate_config.
  rewrite (bind_ok _ _ _ _ _ (truthy_nonempty _ _ Hne)). cbn [negb].
  unfold try_except, py_json_loads. rewrite Hloads.
  rewrite (bind_ok _ _ _ _ _ Ealloc). fold lc. fold s1.
  rewrite (bind_ok _ _ _ _ _ (str_in_dict_run _ _ _ _ Hc1)).
  replace (assoc_mem "default_groups" kvs) with true
    by (unfold assoc_mem; by rewrite Evg).
  rewrite (bind_ok _ _ _ _ _ (getitem_key_run _ _ _ _ _ Hc1 Evg)).
  rewrite (bind_ok _ _ _ _ _ (repr_not_list _ _ _ Hvg Hnl (logs s))). cbn [negb].
  unfold raise. cbn [is_ValueError]. done.
Qed.

(** X4: when [default_groups] is a non-empty list whose first item is not a
    string, [validate_config] raises [ValueError('default_groups must be a
    list of group names/ids (i.e. strings)')] before any group is looked
    up. *)
Theorem validate_config_first_group_not_string text kts t0 ts s :
  text <> EmptyString ->
  json_loads text = Some (TDict kts) ->
  assoc_get "default_groups" kts = Some (TList (t0 :: ts)) ->
  is_str_tree t0 = false ->
  exists ext,
    validate_config (VStr text) s
    = (Raise (ValueError "default_groups must be a list of group names/ids (i.e. strings)"),
       mkState (heap s ++ ext) (logs s)).
Proof.
  intros Hne Hloads Hgroups Hns.
  destruct (alloc_tree_dict kts s) as (kvs & ext & Ealloc & Hvals & Hclosed & Hrepr).
  set (lc := length (heap s) + length ext) in *.
  set (s1 := mkState (heap s ++ ext ++ [ODict kvs]) (logs s)) in *.
  assert (Hc1 : heap s1 !! lc = Some (ODict kvs)) by apply lookup_app_at.
  pose proof (Hrepr (heap s1) (agrees_app_self _ _ _)) as Hr1.
  destruct (assoc_get_Forall2 _ _ _ _ _ Hr1 Hgroups) as (vg & Evg & Hvg).
  inversion Hvg as [| | | | lg gvs ts' Hlg Hgvs |]; subst.
  apply Forall2_cons_inv_r in Hgvs as (v0 & vs & Hv0 & _ & ->).
  exists (ext ++ [ODict kvs]). unfold validate_config.
  rewrite (bind_ok _ _ _ _ _ (truthy_nonempty _ _ Hne)). cbn [negb].
  unfold try_except, py_json_loads. rewrite Hloads.
  rewrite (bind_ok _ _ _ _ _ Ealloc). fold lc. fold s1.
  rewrite (bind_ok _ _ _ _ _ (str_in_dict_run _ _ _ _ Hc1)).
  replace (assoc_mem "default_groups" kvs) with true
    by (unfold assoc_mem; by rewrite Evg).
  rewrite (bind_ok _ _ _ _ _ (getitem_key_run _ _ _ _ _ Hc1 Evg)).
  rewrite (bind_ok _ _ _ _ _ (isinstance_list_run _ _ _ Hlg)). cbn [negb].
  rewrite (bind_ok _ _ _ _ _ (getitem_key_run _ _ _ _ _ Hc1 Evg)).
  rewrite (bind_ok _ _ _ _ _ (truthy_list_run _ _ _ Hlg)). cbn [is_empty negb].
  rewrite (bind_ok _ _ s1 true s1).
  2:{ rewrite (bind_ok _ _ _ _ _ (getitem_key_run _ _ _ _ _ Hc1 Evg)).
      rewrite (bind_ok _ _ _ _ _ (getitem_first_run _ _ _ _ Hlg)).
      unfold bind, isinstance_str, ret. by destruct Hv0. }
  unfold raise. cbn [is_ValueError]. done.
Qed.

(** X5: a configuration that parses to a document other than an object, and
    for which ['default_groups' in config_obj] is not false, makes
    [validate_config] raise a [TypeError], which its handler for
    [ValueError] lets through. *)
Theorem validate_config_not_object text t s :
  text <> EmptyString ->
  json_loads text = Some t ->
  is_dict_tree t = false ->
  ~ no_default_groups t ->
  exists ext,
    validate_config (VStr text) s = (Raise TypeError, mkState (heap s ++ ext) (logs s)).
Proof.
  intros Hne Hloads Hnd Hn.
  destruct (py_json_loads_run text t s Hloads) as (v & ext & Erun & Hv & Hc & Hr).
  specialize (Hr _ (agrees_app_self' _ _)).
  exists ext. unfold validate_config.
  rewrite (bind_ok _ _ _ _ _ (truthy_nonempty _ _ Hne)). cbn [negb].
  unfold try_except. rewrite (bind_ok _ _ _ _ _ Erun).
  set (s1 := mkState (heap s ++ ext) (logs s)) in *.
  destruct Hr as [| | | x | l xs ts Hl Hxs | l kvs kts Hl Hkvs]; try done.
  - unfold no_default_groups in Hn. apply not_false_is_true in Hn.
    unfold bind at 1, str_in at 1. rewrite Hn. done.
  - unfold no_default_groups in Hn. apply not_false_is_true in Hn.
    assert (str_in "default_groups" (VRef l) s1 = (Ok true, s1)) as E.
    { unfold str_in. cbn [heap s1]. rewrite Hl. do 2 f_equal. etransitivity; [|exact Hn].
      clear Hl Hn Hloads Hnd. induction Hxs as [|x t xs ts Hx _ IH]; [done|]. cbn [existsb].
      by rewrite IH, (repr_atom_eqb _ _ _ _ Hx). }
    rewrite (bind_ok _ _ _ _ _ E). unfold bind, getitem_key. cbn [heap s1]. by rewrite Hl.
Qed.

End ValidationMore.

(** ** Tags, and the description *)

Lemma forM__app {X} (xs ys : list X) (body : X -> M unit) s :
  forM_ (xs ++ ys) body s = (forM_ xs body ;;; forM_ ys body) s.
Proof.
  revert s. induction xs as [|x r IH]; intros s; cbn [app forM_]; [done|].
  unfold bind in *. destruct (body x s) as [[[]|e] s1]; [|done]. apply IH.
Qed.

Lemma fix_obj_idem o : fix_obj (fix_obj o) = fix_obj o.
Proof. destruct o; [done|]. cbn. by rewrite fix_tag_idem. Qed.

Lemma state_eq (s1 s2 : state) : heap s1 = heap s2 -> logs s1 = logs s2 -> s1 = s2.
Proof. destruct s1, s2. cbn. by intros -> ->. Qed.

Section TagsMore.
Context `{host : Host}.

(** The run of [fix_erroneous_tags] over tags that are dicts with a string
    name. *)
Lemma fix_erroneous_tags_run s p d lt tags :
  heap s !! p = Some (ODict d) ->
  assoc_get "tags" d = Some (VRef lt) ->
  heap s !! lt = Some (OList tags) ->
  Forall (tag_ok (heap s)) tags ->
  exists s',
    fix_erroneous_tags (VRef p) s = (Ok tt, s') /\
    logs s' = logs s /\
    length (heap s') = length (heap s) /\
    (forall l, VRef l ∈ tags -> heap s' !! l = fix_obj <$> heap s !! l) /\
    (forall l, VRef l ∉ tags -> heap s' !! l = heap s !! l).
Proof.
  intros Hp Htags Hlt Hok. unfold fix_erroneous_tags.
  rewrite (bind_ok _ _ s (VRef lt) s) by (unfold getitem_key; by rewrite Hp, Htags).
  unfold bind at 1, truthy at 1. cbn [heap]. rewrite Hlt.
  destruct tags as [|t0 tags0] eqn:Etags.
  { exists s. split_and!; try done. intros l Hl. by apply elem_of_nil in Hl. }
  rewrite <- Etags in *. clear Etags t0 tags0.
  rewrite (bind_ok _ _ s (VRef lt) s) by (unfold getitem_key; by rewrite Hp, Htags).
  rewrite (bind_ok _ _ s tags s) by (unfold py_iter; by rewrite Hlt).
  apply (fix_loop _ (fix_one_run _ eq_refl) tags s Hok).
Qed.

(** X6: on a package dict whose tags are dicts with a string name, a second
    run of [fix_erroneous_tags] returns and changes nothing. *)
Theorem fix_erroneous_tags_idempotent s p d lt tags :
  heap s !! p = Some (ODict d) ->
  assoc_get "tags" d = Some (VRef lt) ->
  heap s !! lt = Some (OList tags) ->
  Forall (tag_ok (heap s)) tags ->
  exists s',
    fix_erroneous_tags (VRef p) s = (Ok tt, s') /\
    fix_erroneous_tags (VRef p) s' = (Ok tt, s').
Proof.
  intros Hp Htags Hlt Hok.
  destruct (fix_erroneous_tags_run s p d lt tags Hp Htags Hlt Hok)
    as (s' & Erun & Hlogs & Hlen & Hin & Hout).
  exists s'. split; [done|].
  assert (Hat : forall l o, heap s !! l = Some o ->
            heap s' !! l = Some o \/ heap s' !! l = Some (fix_obj o)).
  { intros l o Hl. destruct (decide (VRef l ∈ tags)) as [H|H].
    - right. by rewrite (Hin l H), Hl.
    - left. by rewrite (Hout l H). }
  assert (Hp' : exists d', heap s' !! p = Some (ODict d') /\
                           assoc_get "tags" d' = Some (VRef lt)).
  { destruct (Hat p _ Hp) as [E|E]; [by eauto|].
    exists (fix_tag d). split; [done|]. by rewrite fix_tag_other. }
  destruct Hp' as (d' & Hp' & Htags').
  assert (Hlt' : heap s' !! lt = Some (OList tags)) by (by destruct (Hat lt _ Hlt)).
  assert (Hok' : Forall (tag_ok (heap s')) tags).
  { rewrite Forall_forall in Hok |- *. intros t Ht.
    destruct (Hok t Ht) as (e & kvs & -> & He & Hn).
    exists e, (fix_tag kvs). split; [done|].
    split; [by rewrite (Hin e Ht), He | by apply fix_tag_name_is_str]. }
  destruct (fix_erroneous_tags_run s' p d' lt tags Hp' Htags' Hlt' Hok')
    as (s'' & Erun' & Hlogs' & Hlen' & Hin' & Hout').
  rewrite Erun'. f_equal. apply state_eq; [|done].
  apply list_eq. intros l. destruct (decide (VRef l ∈ tags)) as [H|H].
  - rewrite (Hin' l H), (Hin l H). destruct (heap s !! l) as [o|]; [|done].
    cbn. by rewrite fix_obj_idem.
  - by apply Hout'.
Qed.

(** X7: a tag whose name is [None], a boolean or a number makes
    [fix_erroneous_tags] raise a [TypeError]; the tags before it have then
    been fixed and every other object is as it was, so the package dict is
    left half converted. *)
Theorem fix_erroneous_tags_scalar_name s p d lt before e kvs v after :
  heap s !! p = Some (ODict d) ->
  assoc_get "tags" d = Some (VRef lt) ->
  heap s !! lt = Some (OList (before ++ VRef e :: after)) ->
  Forall (tag_ok (heap s)) before ->
  heap s !! e = Some (ODict kvs) ->
  assoc_get "name" kvs = Some v ->
  is_scalar v = true ->
  exists s',
    fix_erroneous_tags (VRef p) s = (Raise TypeError, s') /\
    (forall l, VRef l ∈ before -> heap s' !! l = fix_obj <$> heap s !! l) /\
    (forall l, VRef l ∉ before -> heap s' !! l = heap s !! l).
Proof.
  intros Hp Htags Hlt Hok He Hname Hv.
  destruct (fix_loop _ (fix_one_run _ eq_refl) before s Hok)
    as (s1 & Erun & Hlogs & Hlen & Hin & Hout).
  assert (Hnot : VRef e ∉ before).
  { intros Hin'. rewrite Forall_forall in Hok.
    destruct (Hok _ Hin') as (e' & kvs' & [= <-] & He' & Hn).
    rewrite He in He'. injection He' as <-.
    destruct (Hn v Hname) as [x ->]. done. }
  assert (He1 : heap s1 !! e = Some (ODict kvs)) by (by rewrite (Hout e Hnot)).
  exists s1. split; [|done]. unfold fix_erroneous_tags.
  rewrite (bind_ok _ _ s (VRef lt) s) by (unfold getitem_key; by rewrite Hp, Htags).
  rewrite (bind_ok _ _ s true s).
  2:{ rewrite (truthy_list_run _ _ _ Hlt). by destruct before. }
  rewrite (bind_ok _ _ s (VRef lt) s) by (unfold getitem_key; by rewrite Hp, Htags).
  rewrite (bind_ok _ _ _ _ _ (py_iter_list_run _ _ _ Hlt)).
  rewrite forM__app. rewrite (bind_ok _ _ _ _ _ Erun). cbn [forM_].
  apply bind_raise.
  rewrite (bind_ok _ _ s1 true s1).
  2:{ rewrite (str_in_dict_run _ _ _ _ He1). unfold assoc_mem. by rewrite Hname. }
  apply bind_raise.
  rewrite (bind_ok _ _ _ _ _ (getitem_key_run _ _ _ _ _ He1 Hname)).
  unfold str_in. by destruct v.
Qed.

End TagsMore.

(** *** The first sentence *)

Lemma str_index_app c before after :
  str_index c before = None ->
  str_index c (before ++ String c after) = Some (String.length before).
Proof.
  induction before as [|a r IH]; simpl.
  - intros _. by rewrite Ascii.eqb_refl.
  - destruct (Ascii.eqb a c); [done|]. destruct (str_index c r); [done|].
    intros _. by rewrite IH.
Qed.

Lemma str_take_app c before after :
  str_take (String.length before + 1) (before ++ String c after)
  = (before ++ String c EmptyString)%string.
Proof.
  induction before as [|a r IH]; simpl; [done|]. by rewrite IH.
Qed.

Section DescriptionMore.
Context `{host : Host}.

(** X8: when the text of the description has a full stop, [generate_extract]
    returns the text up to and including the first full stop, and logs
    nothing. *)
Theorem generate_extract_first_sentence soup before after s :
  get_text soup = Ok (before ++ "." ++ after)%string ->
  str_index "."%char before = None ->
  generate_extract soup s = (Ok (VStr (before ++ ".")%string), s).
Proof.
  intros Ht Hb. unfold generate_extract. rewrite Ht.
  change ("." ++ after)%string with (String "."%char after).
  rewrite (str_index_app _ _ _ Hb). by rewrite str_take_app.
Qed.

(** When the text of the description cannot be taken, the local [notes] of
    [generate_extract] is unbound at its [return]. *)
Lemma generate_extract_unbound soup ex s :
  get_text soup = Raise ex ->
  generate_extract soup s
  = (Raise UnboundLocalError,
     mkState (heap s)
       (logs s ++ [("Generate extract error for: " ++ soup_str soup)%string; exn_str ex])).
Proof.
  intros Ht. unfold generate_extract. rewrite Ht.
  unfold bind, log_error, raise. cbn [heap logs]. by rewrite <- app_assoc.
Qed.

(** X9: for a description that is not the default one, when [get_text] raises
    on the cleaned description, [set_description_and_extract] raises
    [UnboundLocalError]: the handler of [generate_extract] logs the two
    records, and the [return] finds [notes] unbound.  The notes of the package
    dict are by then the cleaned description, and no extract is set. *)
Theorem set_description_and_extract_unbound s p d notes soup soup1 cleaned soup2 ex :
  heap s !! p = Some (ODict d) ->
  assoc_get "notes" d = Some (VStr notes) ->
  str_contains "default.description" notes = false ->
  _remove_all_attrs_except_saving soup = Ok soup1 ->
  _unwrap_all_except soup1 ["a"; "br"] = Ok (cleaned, soup2) ->
  get_text soup2 = Raise ex ->
  exists s' v,
    set_description_and_extract (VRef p) soup s = (Raise UnboundLocalError, s') /\
    heap s' !! p = Some (ODict (assoc_set "notes" v d)) /\
    repr (heap s') v cleaned /\
    logs s' = logs s ++ [("Generate extract error for: " ++ soup_str soup2)%string;
                         exn_str ex].
Proof.
  intros Hp Hnotes Hdefault Hremove Hunwrap Htext.
  destruct (alloc_tree_good cleaned s) as (v & ext & Ealloc & Hv & Hclosed & Hrepr).
  set (s1 := mkState (heap s ++ ext) (logs s)) in *.
  assert (Hp1 : heap s1 !! p = Some (ODict d)) by (by apply lookup_app_l_Some).
  set (d2 := assoc_set "notes" v d).
  set (s2 := mkState (<[p := ODict d2]> (heap s1)) (logs s1)).
  eexists _, v. split.
  { unfold set_description_and_extract.
    rewrite (bind_ok _ _ _ _ _ (getitem_key_run _ _ _ _ _ Hp Hnotes)).
    rewrite (bind_ok _ _ s false s) by (unfold str_in; by rewrite Hdefault).
    rewrite Hremove. rewrite (bind_ok _ _ s soup1 s) by done.
    rewrite Hunwrap. rewrite (bind_ok _ _ s (cleaned, soup2) s) by done. cbn [fst snd].
    rewrite (bind_ok _ _ _ _ _ Ealloc).
    rewrite (bind_ok _ _ _ _ _ (setitem_key_run _ _ _ _ _ Hp1)). fold d2. fold s2.
    by rewrite (bind_raise _ _ _ _ _ (generate_extract_unbound _ _ s2 Htext)). }
  cbn [heap logs s2 s1].
  assert (Hlt : p < length (heap s)) by (by eapply lookup_lt_Some).
  split; [apply list_lookup_insert_eq; rewrite length_app; lia|].
  split; [|done].
  apply Hrepr. intros i o Hi.
  rewrite list_lookup_insert_ne by lia.
  by rewrite lookup_app_r, Nat.add_sub' by lia.
Qed.

(** X10: when the notes of the package dict contain [default.description],
    [set_description_and_extract] sets the notes and the extract to the two
    placeholder texts, returns the soup as it got it, and changes and logs
    nothing else; the host is not asked to clean the description. *)
Theorem set_description_and_extract_default s p d notes soup :
  heap s !! p = Some (ODict d) ->
  assoc_get "notes" d = Some (VStr notes) ->
  str_contains "default.description" notes = true ->
  set_description_and_extract (VRef p) soup s
  = (Ok soup,
     mkState (<[p := ODict (assoc_set "extract"
                              (VStr "No abstract has been entered for this dataset.")
                              (assoc_set "notes"
                                 (VStr "No description has been entered for this dataset.")
                                 d))]> (heap s))
       (logs s)).
Proof.
  intros Hp Hnotes Hdefault. unfold set_description_and_extract.
  rewrite (bind_ok _ _ _ _ _ (getitem_key_run _ _ _ _ _ Hp Hnotes)).
  rewrite (bind_ok _ _ s true s) by (unfold str_in; by rewrite Hdefault).
  rewrite (bind_ok _ _ _ _ _ (setitem_key_run _ _ _ _ _ Hp)).
  set (d1 := assoc_set "notes" _ d).
  set (s1 := mkState _ _).
  assert (Hp1 : heap s1 !! p = Some (ODict d1)).
  { cbn [heap s1]. apply list_lookup_insert_eq. by eapply lookup_lt_Some. }
  rewrite (bind_ok _ _ _ _ _ (setitem_key_run _ _ _ _ _ Hp1)).
  unfold ret. do 2 f_equal. cbn [heap logs s1]. by rewrite list_insert_insert_eq.
Qed.

End DescriptionMore.

(** ** The full metadata url *)

Lemma py_eq_m_key k key s :
  py_eq_m k (VStr key) s = (Ok (bool_decide (k = VStr key)), s).
Proof.
  unfold py_eq_m. change recursion_limit with (S (Nat.pred recursion_limit)).
  cbn [py_eq]. destruct k as [| | |x|]; try done. cbn [atom_eqb].
  destruct (String.eqb_spec x key) as [->|Hne].
  - by rewrite bool_decide_eq_true_2.
  - rewrite bool_decide_eq_false_2; [done|]. congruence.
Qed.

Lemma filterM_extras h lg key xs :
  Forall (fun v => is_Some (extra_key h v)) xs ->
  filterM (fun extra => k <- getitem_key extra "key" ;; py_eq_m k (VStr key)) xs
    (mkState h lg)
  = (Ok (extras_for h key xs), mkState h lg).
Proof.
  unfold extras_for. induction 1 as [|v xs [k Hk] _ IH]; [done|].
  cbn [filterM]. rewrite filter_cons.
  assert (getitem_key v "key" (mkState h lg) = (Ok k, mkState h lg)) as Eget.
  { unfold extra_key in Hk. unfold getitem_key. cbn [heap].
    destruct v as [| | | |e]; try done.
    destruct (h !! e) as [[?|de]|]; try done. by rewrite Hk. }
  rewrite (bind_ok _ _ _ (bool_decide (k = VStr key)) (mkState h lg)).
  2:{ rewrite (bind_ok _ _ _ _ _ Eget). apply py_eq_m_key. }
  rewrite (bind_ok _ _ _ _ _ IH). unfold ret. rewrite Hk.
  destruct (decide (Some k = Some (VStr key))) as [E|E].
  - injection E as ->. by rewrite bool_decide_eq_true_2.
  - rewrite bool_decide_eq_false_2; [done|]. congruence.
Qed.

Lemma extras_with_key_run s p d xs key :
  package_has_extras (heap s) p d xs ->
  extras_with_key (VRef p) key s = (Ok (extras_for (heap s) key xs), s).
Proof.
  intros (Hp & le & Hextras & Hle & Hxs). unfold extras_with_key.
  rewrite (bind_ok _ _ _ _ _ (getitem_key_run _ _ _ _ _ Hp Hextras)).
  rewrite (bind_ok _ _ _ _ _ (py_iter_list_run _ _ _ Hle)).
  destruct s as [h lg]. by apply filterM_extras.
Qed.

Section MetadataUrl.
Context `{host : Host}.

(** X11: when an extra of the package dict has the key [full_metadata_url],
    [set_full_metadata_url_and_update_frequency] sets
    [package_dict['full_metadata_url']] to a new list of the extras with that
    key, in their order, whatever the configuration is; it reads neither the
    configuration nor the description. *)
Theorem set_full_metadata_url_from_extras s p d xs hc soup :
  package_has_extras (heap s) p d xs ->
  extras_for (heap s) "full_metadata_url" xs <> [] ->
  set_full_metadata_url_and_update_frequency hc (VRef p) soup s
  = (Ok tt,
     mkState (<[p := ODict (assoc_set "full_metadata_url" (VRef (length (heap s))) d)]>
                (heap s ++ [OList (extras_for (heap s) "full_metadata_url" xs)]))
       (logs s)).
Proof.
  intros Hpkg Hfound. pose proof Hpkg as (Hp & _).
  unfold set_full_metadata_url_and_update_frequency.
  rewrite (bind_ok _ _ _ _ _ (extras_with_key_run _ _ _ _ _ Hpkg)).
  set (found := extras_for _ _ _) in *.
  unfold bind at 1, alloc at 1.
  set (s1 := mkState (heap s ++ [OList found]) (logs s)).
  assert (Hnew : heap s1 !! length (heap s) = Some (OList found)).
  { cbn [heap s1]. by rewrite lookup_app_r, Nat.sub_diag by lia. }
  assert (Hp1 : heap s1 !! p = Some (ODict d)) by (by apply lookup_app_l_Some).
  destruct found as [|x found'] eqn:E; [done|]. cbn [is_empty].
  rewrite (bind_ok _ _ s1 (VRef (length (heap s))) s1) by done.
  rewrite (bind_ok _ _ _ _ _ (truthy_list_run _ _ _ Hnew)). cbn [is_empty negb].
  by rewrite (setitem_key_run _ _ _ _ _ Hp1).
Qed.

(** X12: when no extra has the key [full_metadata_url] and the configuration
    has neither a default url nor a pattern,
    [set_full_metadata_url_and_update_frequency] returns and leaves the
    package dict and every other object as it was. *)
Theorem set_full_metadata_url_unset s p d xs lh dh soup :
  package_has_extras (heap s) p d xs ->
  extras_for (heap s) "full_metadata_url" xs = [] ->
  heap s !! lh = Some (ODict dh) ->
  assoc_get "default_full_metadata_url" dh = None ->
  assoc_get "full_metadata_url_pattern" dh = None ->
  set_full_metadata_url_and_update_frequency (VRef lh) (VRef p) soup s
  = (Ok tt, mkState (heap s ++ [OList []]) (logs s)).
Proof.
  intros Hpkg Hfound Hh Hdefault Hpattern.
  unfold set_full_metadata_url_and_update_frequency.
  rewrite (bind_ok _ _ _ _ _ (extras_with_key_run _ _ _ _ _ Hpkg)). rewrite Hfound.
  unfold bind at 1, alloc at 1.
  set (s1 := mkState (heap s ++ [OList []]) (logs s)).
  assert (Hnew : heap s1 !! length (heap s) = Some (OList [])).
  { cbn [heap s1]. by rewrite lookup_app_r, Nat.sub_diag by lia. }
  assert (Hh1 : heap s1 !! lh = Some (ODict dh)) by (by apply lookup_app_l_Some).
  cbn [is_empty].
  rewrite (bind_ok _ _ s1 (VRef (length (heap s))) s1).
  2:{ rewrite (bind_ok _ _ _ _ _ (str_in_dict_run _ _ _ _ Hh1)).
      unfold assoc_mem at 1. rewrite Hdefault.
      rewrite (bind_ok _ _ s1 (VRef (length (heap s))) s1) by done.
      rewrite (bind_ok _ _ _ _ _ (str_in_dict_run _ _ _ _ Hh1)).
      unfold assoc_mem. by rewrite Hpattern. }
  by rewrite (bind_ok _ _ _ _ _ (truthy_list_run _ _ _ Hnew)).
Qed.

(** X13: when no extra has the key [full_metadata_url] and the configuration
    has a non-empty [default_full_metadata_url] and no pattern, the package
    dict gets that default as its [full_metadata_url], and nothing else
    changes. *)
Theorem set_full_metadata_url_default s p d xs lh dh url soup :
  package_has_extras (heap s) p d xs ->
  extras_for (heap s) "full_metadata_url" xs = [] ->
  heap s !! lh = Some (ODict dh) ->
  assoc_get "default_full_metadata_url" dh = Some (VStr url) ->
  url <> EmptyString ->
  assoc_get "full_metadata_url_pattern" dh = None ->
  set_full_metadata_url_and_update_frequency (VRef lh) (VRef p) soup s
  = (Ok tt,
     mkState (<[p := ODict (assoc_set "full_metadata_url" (VStr url) d)]>
                (heap s ++ [OList []]))
       (logs s)).
Proof.
  intros Hpkg Hfound Hh Hdefault Hurl Hpattern. pose proof Hpkg as (Hp & _).
  unfold set_full_metadata_url_and_update_frequency.
  rewrite (bind_ok _ _ _ _ _ (extras_with_key_run _ _ _ _ _ Hpkg)). rewrite Hfound.
  unfold bind at 1, alloc at 1.
  set (s1 := mkState (heap s ++ [OList []]) (logs s)).
  assert (Hh1 : heap s1 !! lh = Some (ODict dh)) by (by apply lookup_app_l_Some).
  assert (Hp1 : heap s1 !! p = Some (ODict d)) by (by apply lookup_app_l_Some).
  cbn [is_empty].
  rewrite (bind_ok _ _ s1 (VStr url) s1).
  2:{ rewrite (bind_ok _ _ _ _ _ (str_in_dict_run _ _ _ _ Hh1)).
      unfold assoc_mem at 1. rewrite Hdefault.
      rewrite (bind_ok _ _ _ _ _ (getitem_key_run _ _ _ _ _ Hh1 Hdefault)).
      rewrite (bind_ok _ _ _ _ _ (str_in_dict_run _ _ _ _ Hh1)).
      unfold assoc_mem. by rewrite Hpattern. }
  rewrite (bind_ok _ _ _ _ _ (truthy_nonempty _ _ Hurl)).
  by rewrite (setitem_key_run _ _ _ _ _ Hp1).
Qed.

(** X14: when no extra has the key [full_metadata_url], the configuration has
    a pattern and the host finds a link for it in the description, the
    package dict gets that link as its [full_metadata_url], also when the
    configuration has a default url, and the update frequency that the host
    fetches from the link. *)
Theorem set_full_metadata_url_from_description s p d xs lh dh pattern url frequency soup :
  package_has_extras (heap s) p d xs ->
  extras_for (heap s) "full_metadata_url" xs = [] ->
  heap s !! lh = Some (ODict dh) ->
  assoc_get "full_metadata_url_pattern" dh = Some (VStr pattern) ->
  _extract_metadata_url soup (TStr pattern) = Ok (TStr url) ->
  url <> EmptyString ->
  _fetch_update_frequency (TStr url) = Ok (TStr frequency) ->
  set_full_metadata_url_and_update_frequency (VRef lh) (VRef p) soup s
  = (Ok tt,
     mkState (<[p := ODict (assoc_set "full_metadata_url" (VStr url)
                              (assoc_set "update_frequency" (VStr frequency) d))]>
                (heap s ++ [OList []]))
       (logs s)).
Proof.
  intros Hpkg Hfound Hh Hpattern Hextract Hurl Hfetch. pose proof Hpkg as (Hp & _).
  unfold set_full_metadata_url_and_update_frequency.
  rewrite (bind_ok _ _ _ _ _ (extras_with_key_run _ _ _ _ _ Hpkg)). rewrite Hfound.
  unfold bind at 1, alloc at 1.
  set (s1 := mkState (heap s ++ [OList []]) (logs s)).
  assert (Hh1 : heap s1 !! lh = Some (ODict dh)) by (by apply lookup_app_l_Some).
  assert (Hp1 : heap s1 !! p = Some (ODict d)) by (by apply lookup_app_l_Some).
  set (d2 := assoc_set "update_frequency" (VStr frequency) d).
  set (s2 := mkState (<[p := ODict d2]> (heap s1)) (logs s1)).
  assert (Hp2 : heap s2 !! p = Some (ODict d2)).
  { cbn [heap s2]. apply list_lookup_insert_eq. by eapply lookup_lt_Some. }
  cbn [is_empty].
  rewrite (bind_ok _ _ s1 (VStr url) s2).
  2:{ rewrite (bind_ok _ _ _ _ _ (str_in_dict_run _ _ _ _ Hh1)).
      assert (exists v, (if assoc_mem "default_full_metadata_url" dh
                         then getitem_key (VRef lh) "default_full_metadata_url"
                         else ret (VRef (length (heap s)))) s1 = (Ok v, s1)) as [v Ev].
      { unfold assoc_mem. destruct (assoc_get "default_full_metadata_url" dh) as [v|] eqn:E.
        - exists v. by apply getitem_key_run with dh.
        - by eexists. }
      rewrite (bind_ok _ _ _ _ _ Ev).
      rewrite (bind_ok _ _ _ _ _ (str_in_dict_run _ _ _ _ Hh1)).
      unfold assoc_mem. rewrite Hpattern.
      rewrite (bind_ok _ _ _ _ _ (getitem_key_run _ _ _ _ _ Hh1 Hpattern)).
      rewrite (bind_ok _ _ s1 (VStr url) s1).
      2:{ unfold call, content_of, tree_of. unfold bind at 1.
          rewrite tree_of_atom_str. unfold bind, lift. by rewrite Hextract. }
      rewrite (bind_ok _ _ _ _ _ (truthy_nonempty _ _ Hurl)).
      rewrite (bind_ok _ _ s1 (VStr frequency) s1).
      2:{ unfold call, content_of, tree_of. unfold bind at 1.
          rewrite tree_of_atom_str. unfold bind, lift. by rewrite Hfetch. }
      by rewrite (bind_ok _ _ _ _ _ (setitem_key_run _ _ _ _ _ Hp1)). }
  rewrite (bind_ok _ _ _ _ _ (truthy_nonempty _ _ Hurl)).
  rewrite (setitem_key_run _ _ _ _ _ Hp2). cbn [heap logs s2 s1].
  by rewrite list_insert_insert_eq.
Qed.

End MetadataUrl.

(** ** The default groups *)

Lemma assoc_set_same {A} k (v : A) kvs : assoc_get k kvs = Some v -> assoc_set k v kvs = kvs.
Proof.
  induction kvs as [|[k1 v1] r IH]; cbn [assoc_get assoc_set]; [done|].
  destruct (String.eqb_spec k k1) as [->|Hne].
  - by intros [= ->].
  - intros H. by rewrite IH.
Qed.

Lemma missing_groups_ids h ids dgs dids :
  Forall2 (has_id h) dgs dids ->
  Forall2 (has_id h) (missing_groups ids dgs dids) (missing_ids ids dids).
Proof.
  unfold missing_groups, missing_ids.
  induction 1 as [|g i dgs dids Hg _ IH]; [constructor|].
  cbn [zip zip_with]. rewrite !filter_cons. cbn [snd].
  destruct (existsb (String.eqb i) ids); cbn [negb].
  - rewrite decide_False by (by intros []). rewrite decide_False by (by intros []). done.
  - rewrite decide_True by done. rewrite decide_True by done. cbn [map fst]. by constructor.
Qed.

Lemma existsb_eqb_elem i (ids : list string) : existsb (String.eqb i) ids = true <-> i ∈ ids.
Proof.
  induction ids as [|a r IH]; cbn [existsb].
  - split; [done|]. by intros ?%elem_of_nil.
  - rewrite orb_true_iff, IH, elem_of_cons. split; (intros [H|H]; [left|by right]).
    + by apply String.eqb_eq.
    + by apply String.eqb_eq.
Qed.

Lemma missing_groups_again ids dgs dids :
  length dgs = length dids ->
  missing_groups (ids ++ missing_ids ids dids) dgs dids = [].
Proof.
  intros Hlen. unfold missing_groups.
  enough (filter (fun gi : value * string =>
                    negb (existsb (String.eqb gi.2) (ids ++ missing_ids ids dids)))
            (zip dgs dids) = []) as -> by done.
  apply elem_of_nil_inv. intros [g i] Hgi.
  apply list_elem_of_filter in Hgi as [Hneg Hgi]. cbn [snd] in Hneg.
  assert (Hi : i ∈ dids).
  { apply list_elem_of_lookup in Hgi as [n Hn]. apply lookup_zip_with_Some in Hn
      as (? & ? & [= <- <-] & _ & Hi). by eapply list_elem_of_lookup_2. }
  apply negb_prop_elim in Hneg. apply Hneg.
  apply Is_true_true, existsb_eqb_elem, elem_of_app.
  destruct (existsb (String.eqb i) ids) eqn:E.
  - left. by apply existsb_eqb_elem.
  - right. unfold missing_ids. apply list_elem_of_filter. split; [|done]. by rewrite E.
Qed.

Section GroupsMore.
Context `{host : Host}.

(** X15: when the configuration has no [default_group_dicts], or has a value
    there that is empty or not a list, [set_default_group] returns and changes
    no object of the store: neither the category nor the groups are
    touched. *)
Theorem set_default_group_without_defaults s lh dh pkg :
  heap s !! lh = Some (ODict dh) ->
  (forall v, assoc_get "default_group_dicts" dh = Some v ->
             is_nonempty_list (heap s) v = false) ->
  exists ext,
    set_default_group (VRef lh) pkg s = (Ok tt, mkState (heap s ++ ext) (logs s)).
Proof.
  intros Hh Hnone. unfold set_default_group.
  destruct (assoc_get "default_group_dicts" dh) as [v|] eqn:E.
  - exists []. rewrite app_nil_r, state_eta.
    rewrite (bind_ok _ _ s v s) by (by rewrite (py_get_run _ _ _ _ _ Hh), E).
    specialize (Hnone v eq_refl). unfold is_nonempty_list in Hnone.
    assert (exists b, truthy v s = (Ok b, s) /\
              (if b then isinstance_list v else ret false) s = (Ok false, s))
      as (b & Eb & Elist).
    { eexists. split; [reflexivity|]. unfold isinstance_list, ret.
      destruct v as [| | | |l]; by repeat case_match. }
    by rewrite (bind_ok _ _ _ _ _ Eb), (bind_ok _ _ _ _ _ Elist).
  - exists [OList []].
    rewrite (bind_ok _ _ s (VRef (length (heap s))) (mkState (heap s ++ [OList []]) (logs s)))
      by (by rewrite (py_get_run _ _ _ _ _ Hh), E).
    unfold bind, truthy. cbn [heap].
    by rewrite lookup_app_r, Nat.sub_diag by lia.
Qed.

(** The run of [set_default_group] on a package dict that has groups. *)
Lemma set_default_group_run s lh dh ld dgs dids p d lgs gs ids :
  heap s !! lh = Some (ODict dh) ->
  assoc_get "default_group_dicts" dh = Some (VRef ld) ->
  heap s !! ld = Some (OList dgs) ->
  dgs <> [] ->
  Forall2 (has_id (heap s)) dgs dids ->
  heap s !! p = Some (ODict d) ->
  assoc_get "groups" d = Some (VRef lgs) ->
  heap s !! lgs = Some (OList gs) ->
  Forall2 (has_id (heap s)) gs ids ->
  set_default_group (VRef lh) (VRef p) s
  = (Ok tt,
     mkState (<[lgs := OList (gs ++ missing_groups ids dgs dids)]>
                (<[p := ODict (assoc_set "category" (VStr (hd EmptyString dids)) d)]> (heap s)))
       (logs s)).
Proof.
  intros Hh Hdgd Hld Hne Hdgs Hp Eg Hlgs Hgs.
  destruct Hdgs as [|g0 i0 dgs0 dids0 Hg0 Hdgs0]; [done|].
  set (dgs := g0 :: dgs0) in *. set (dids := i0 :: dids0) in *.
  assert (Hdgs : Forall2 (has_id (heap s)) dgs dids) by (by constructor).
  destruct Hg0 as (e0 & kvs0 & -> & He0 & Hi0).
  cbn [hd dids].
  set (d1 := assoc_set "category" (VStr i0) d).
  set (s1 := mkState (<[p := ODict d1]> (heap s)) (logs s)).
  assert (Hlist1 : forall l xs, heap s !! l = Some (OList xs) -> heap s1 !! l = Some (OList xs)).
  { intros l xs Hl. cbn [heap s1]. rewrite list_lookup_insert_ne; [done|]. intros ->. congruence. }
  assert (Hp1 : heap s1 !! p = Some (ODict d1)).
  { cbn [heap s1]. apply list_lookup_insert_eq. by eapply lookup_lt_Some. }
  assert (Hid1 : forall v i, has_id (heap s) v i -> has_id (heap s1) v i).
  { intros v i. by apply has_id_setitem. }
  unfold set_default_group.
  rewrite (bind_ok _ _ s (VRef ld) s) by (by rewrite (py_get_run _ _ _ _ _ Hh), Hdgd).
  rewrite (bind_ok _ _ _ _ _ (truthy_list_run _ _ _ Hld)). cbn [dgs is_empty negb].
  rewrite (bind_ok _ _ _ _ _ (isinstance_list_run _ _ _ Hld)).
  rewrite (bind_ok _ _ _ _ _ (truthy_list_run _ _ _ Hld)). cbn [dgs is_empty negb].
  rewrite (bind_ok _ _ _ _ _ (getitem_first_run _ _ _ _ Hld)).
  rewrite (bind_ok _ _ s true s).
  2:{ rewrite (truthy_dict_run _ _ _ He0). by destruct kvs0. }
  rewrite (bind_ok _ _ s tt s1).
  2:{ rewrite (bind_ok _ _ s (VStr i0) s) by (by rewrite (py_get_run _ _ _ _ _ He0), Hi0).
      apply (setitem_key_run _ _ _ _ _ Hp). }
  rewrite (bind_ok _ _ _ _ _ (str_in_dict_run _ _ _ _ Hp1)).
  unfold d1 at 1. rewrite assoc_mem_set_ne by done.
  assert (Eg1 : assoc_get "groups" d1 = Some (VRef lgs)).
  { unfold d1. by rewrite assoc_get_set_ne. }
  replace (assoc_mem "groups" d) with true by (unfold assoc_mem; by rewrite Eg).
  cbn [negb]. rewrite (bind_ok _ _ s1 tt s1) by done.
  rewrite (bind_ok _ _ _ _ _ (getitem_key_run _ _ _ _ _ Hp1 Eg1)).
  rewrite (bind_ok _ _ _ _ _ (py_iter_list_run _ _ _ (Hlist1 _ _ Hlgs))).
  rewrite (bind_ok _ _ _ _ _ (mapM_ids s1 gs ids ltac:(eapply Forall2_impl; eauto))).
  rewrite (bind_ok _ _ _ _ _ (getitem_key_run _ _ _ _ _ Hp1 Eg1)).
  rewrite (bind_ok _ _ _ _ _ (list_method_run _ _ _ (Hlist1 _ _ Hlgs))).
  rewrite (bind_ok _ _ _ _ _ (py_iter_list_run _ _ _ (Hlist1 _ _ Hld))).
  rewrite (bind_ok _ _ _ _ _
             (filterM_missing s1 ids dgs dids ltac:(eapply Forall2_impl; eauto))).
  by rewrite (list_extend_run _ _ _ _ (Hlist1 _ _ Hlgs)).
Qed.

(** The run of [set_default_group] on a package dict without groups. *)
Lemma set_default_group_run_new s lh dh ld dgs dids p d :
  heap s !! lh = Some (ODict dh) ->
  assoc_get "default_group_dicts" dh = Some (VRef ld) ->
  heap s !! ld = Some (OList dgs) ->
  dgs <> [] ->
  Forall2 (has_id (heap s)) dgs dids ->
  heap s !! p = Some (ODict d) ->
  assoc_get "groups" d = None ->
  set_default_group (VRef lh) (VRef p) s
  = (Ok tt,
     mkState (<[length (heap s) := OList (missing_groups [] dgs dids)]>
                (<[p := ODict (assoc_set "groups" (VRef (length (heap s)))
                                 (assoc_set "category" (VStr (hd EmptyString dids)) d))]>
                   (heap s ++ [OList []])))
       (logs s)).
Proof.
  intros Hh Hdgd Hld Hne Hdgs Hp Eg.
  destruct Hdgs as [|g0 i0 dgs0 dids0 Hg0 Hdgs0]; [done|].
  set (dgs := g0 :: dgs0) in *. set (dids := i0 :: dids0) in *.
  assert (Hdgs : Forall2 (has_id (heap s)) dgs dids) by (by constructor).
  destruct Hg0 as (e0 & kvs0 & -> & He0 & Hi0).
  cbn [hd dids].
  set (d1 := assoc_set "category" (VStr i0) d).
  set (s1 := mkState (<[p := ODict d1]> (heap s)) (logs s)).
  assert (Hlist1 : forall l xs, heap s !! l = Some (OList xs) -> heap s1 !! l = Some (OList xs)).
  { intros l xs Hl. cbn [heap s1]. rewrite list_lookup_insert_ne; [done|]. intros ->. congruence. }
  assert (Hp1 : heap s1 !! p = Some (ODict d1)).
  { cbn [heap s1]. apply list_lookup_insert_eq. by eapply lookup_lt_Some. }
  assert (Hid1 : forall v i, has_id (heap s) v i -> has_id (heap s1) v i).
  { intros v i. by apply has_id_setitem. }
  unfold set_default_group.
  rewrite (bind_ok _ _ s (VRef ld) s) by (by rewrite (py_get_run _ _ _ _ _ Hh), Hdgd).
  rewrite (bind_ok _ _ _ _ _ (truthy_list_run _ _ _ Hld)). cbn [dgs is_empty negb].
  rewrite (bind_ok _ _ _ _ _ (isinstance_list_run _ _ _ Hld)).
  rewrite (bind_ok _ _ _ _ _ (truthy_list_run _ _ _ Hld)). cbn [dgs is_empty negb].
  rewrite (bind_ok _ _ _ _ _ (getitem_first_run _ _ _ _ Hld)).
  rewrite (bind_ok _ _ s true s).
  2:{ rewrite (truthy_dict_run _ _ _ He0). by destruct kvs0. }
  rewrite (bind_ok _ _ s tt s1).
  2:{ rewrite (bind_ok _ _ s (VStr i0) s) by (by rewrite (py_get_run _ _ _ _ _ He0), Hi0).
      apply (setitem_key_run _ _ _ _ _ Hp). }
  rewrite (bind_ok _ _ _ _ _ (str_in_dict_run _ _ _ _ Hp1)).
  unfold d1 at 1. rewrite assoc_mem_set_ne by done.
  replace (assoc_mem "groups" d) with false by (unfold assoc_mem; by rewrite Eg).
  cbn [negb].
  set (g := length (heap s1)).
  set (s2 := mkState (heap s1 ++ [OList []]) (logs s1)).
  set (d3 := assoc_set "groups" (VRef g) d1).
  set (s3 := mkState (<[p := ODict d3]> (heap s2)) (logs s2)).
  assert (Hp2 : heap s2 !! p = Some (ODict d1)) by (by apply lookup_app_l_Some).
  assert (Hp3 : heap s3 !! p = Some (ODict d3)).
  { cbn [heap s3]. apply list_lookup_insert_eq. by eapply lookup_lt_Some. }
  assert (Hpg : p <> g).
  { apply lookup_lt_Some in Hp1. unfold g. lia. }
  assert (Hg3 : heap s3 !! g = Some (OList [])).
  { cbn [heap s3]. rewrite list_lookup_insert_ne by done. cbn [heap s2].
    by rewrite lookup_app_r, Nat.sub_diag by (unfold g; lia). }
  assert (Hlist3 : forall l xs, heap s !! l = Some (OList xs) -> heap s3 !! l = Some (OList xs)).
  { intros l xs Hl. cbn [heap s3]. rewrite list_lookup_insert_ne by (intros ->; congruence).
    cbn [heap s2]. apply lookup_app_l_Some. by apply Hlist1. }
  assert (Hid3 : forall v i, has_id (heap s) v i -> has_id (heap s3) v i).
  { intros v i Hv. cbn [heap s3]. eapply has_id_setitem; [exact Hp2|done|].
    cbn [heap s2]. apply has_id_extend. by apply Hid1. }
  assert (Eg3 : assoc_get "groups" d3 = Some (VRef g)) by apply assoc_get_set_eq.
  rewrite (bind_ok _ _ s1 tt s3).
  2:{ unfold bind at 1, alloc. fold g. fold s2. apply (setitem_key_run _ _ _ _ _ Hp2). }
  rewrite (bind_ok _ _ _ _ _ (getitem_key_run _ _ _ _ _ Hp3 Eg3)).
  rewrite (bind_ok _ _ _ _ _ (py_iter_list_run _ _ _ Hg3)).
  rewrite (bind_ok _ _ s3 [] s3) by done.
  rewrite (bind_ok _ _ _ _ _ (getitem_key_run _ _ _ _ _ Hp3 Eg3)).
  rewrite (bind_ok _ _ _ _ _ (list_method_run _ _ _ Hg3)).
  rewrite (bind_ok _ _ _ _ _ (py_iter_list_run _ _ _ (Hlist3 _ _ Hld))).
  rewrite (bind_ok _ _ _ _ _
             (filterM_missing s3 [] dgs dids ltac:(eapply Forall2_impl; eauto))).
  rewrite (list_extend_run _ _ _ _ Hg3). cbn [app].
  f_equal. apply state_eq; [|done]. cbn [heap s3 s2 s1].
  assert (Hlen : g = length (heap s)) by (unfold g; cbn [heap s1]; by rewrite length_insert).
  unfold d3. rewrite Hlen. fold d1. f_equal.
  rewrite !insert_app_l by (rewrite ?length_insert; by eapply lookup_lt_Some).
  by rewrite list_insert_insert_eq.
Qed.

(** X16: a second run of [set_default_group], on a package dict that is not the
    configuration and whose groups are not the list of the default groups,
    returns and changes nothing: the default groups are added once. *)
Theorem set_default_group_idempotent s lh dh ld dgs dids p d gs ids :
  heap s !! lh = Some (ODict dh) ->
  assoc_get "default_group_dicts" dh = Some (VRef ld) ->
  heap s !! ld = Some (OList dgs) ->
  dgs <> [] ->
  Forall2 (has_id (heap s)) dgs dids ->
  heap s !! p = Some (ODict d) ->
  lh <> p ->
  match assoc_get "groups" d with
  | Some v => exists lgs, v = VRef lgs /\ lgs <> ld /\ heap s !! lgs = Some (OList gs)
  | None => gs = []
  end ->
  Forall2 (has_id (heap s)) gs ids ->
  exists s',
    set_default_group (VRef lh) (VRef p) s = (Ok tt, s') /\
    set_default_group (VRef lh) (VRef p) s' = (Ok tt, s').
Proof.
  intros Hh Hdgd Hld Hne Hdgs Hp Hhp Hgroups Hgs.
  set (i0 := hd EmptyString dids).
  set (d1 := assoc_set "category" (VStr i0) d).
  assert (Hlen : length dgs = length dids) by (by eapply Forall2_length).
  assert (Hlt : p < length (heap s)) by (by eapply lookup_lt_Some).
  assert (exists s' d' lgs,
    set_default_group (VRef lh) (VRef p) s = (Ok tt, s') /\
    heap s' !! p = Some (ODict d') /\
    assoc_get "category" d' = Some (VStr i0) /\
    assoc_get "groups" d' = Some (VRef lgs) /\
    heap s' !! lgs = Some (OList (gs ++ missing_groups ids dgs dids)) /\
    heap s' !! lh = Some (ODict dh) /\
    heap s' !! ld = Some (OList dgs) /\
    (forall v i, has_id (heap s) v i -> has_id (heap s') v i))
    as (s' & d' & lgs & Erun & Hp' & Hcat & Hgr & Hlgs' & Hh' & Hld' & Hid').
  { destruct (assoc_get "groups" d) as [vg|] eqn:Eg.
    - destruct Hgroups as (lgs & -> & Hlgld & Hlgs).
      assert (Hlgp : lgs <> p) by (intros ->; congruence).
      assert (Hlgh : lgs <> lh) by (intros ->; congruence).
      assert (Hldp : ld <> p) by (intros ->; congruence).
      eexists _, d1, lgs. split; [by eapply set_default_group_run|]. cbn [heap].
      split; [rewrite list_lookup_insert_ne by done; by apply list_lookup_insert_eq|].
      split; [apply assoc_get_set_eq|].
      split; [unfold d1; by rewrite assoc_get_set_ne|].
      split; [apply list_lookup_insert_eq; rewrite length_insert; by eapply lookup_lt_Some|].
      split; [by rewrite !list_lookup_insert_ne|].
      split; [by rewrite !list_lookup_insert_ne|].
      intros v i Hv. apply (has_id_setitem _ p d "category" (VStr i0)) in Hv; [|done|done].
      destruct Hv as (l & kvs & -> & Hl & Hi). exists l, kvs. split_and!; try done.
      rewrite list_lookup_insert_ne; [done|]. intros ->.
      rewrite list_lookup_insert_ne in Hl by done. congruence.
    - subst gs. apply Forall2_nil_inv_l in Hgs as ->.
      apply lookup_lt_Some in Hld as Hldlt. apply lookup_lt_Some in Hh as Hhlt.
      assert (Hldp : ld <> p) by (intros ->; congruence).
      eexists _, _, (length (heap s)).
      split; [by eapply set_default_group_run_new|]. cbn [heap app].
      split.
      { rewrite list_lookup_insert_ne by lia. apply list_lookup_insert_eq.
        rewrite length_app. lia. }
      split; [rewrite assoc_get_set_ne by done; apply assoc_get_set_eq|].
      split; [apply assoc_get_set_eq|].
      split; [apply list_lookup_insert_eq; rewrite length_insert, length_app; cbn; lia|].
      split; [rewrite !list_lookup_insert_ne by lia; by apply lookup_app_l_Some|].
      split; [rewrite !list_lookup_insert_ne by lia; by apply lookup_app_l_Some|].
      intros v i Hv.
      apply (has_id_setitem _ p d "category" (VStr i0)) in Hv; [|done|done].
      apply (has_id_extend _ [OList []]) in Hv.
      rewrite <- insert_app_l in Hv by done.
      apply (has_id_setitem _ p (assoc_set "category" (VStr i0) d) "groups"
               (VRef (length (heap s)))) in Hv; [|by apply list_lookup_insert_eq;
                 rewrite length_app; lia|done].
      rewrite list_insert_insert_eq in Hv.
      destruct Hv as (l & kvs & -> & Hl & Hi). exists l, kvs. split_and!; try done.
      rewrite list_lookup_insert_ne; [done|]. intros <-.
      rewrite list_lookup_insert_ne in Hl by lia.
      rewrite lookup_app_r, Nat.sub_diag in Hl by lia. done. }
  exists s'. split; [done|].
  rewrite (set_default_group_run s' lh dh ld dgs dids p d' lgs
             (gs ++ missing_groups ids dgs dids) (ids ++ missing_ids ids dids));
    try done.
  - fold i0. rewrite missing_groups_again by done. rewrite app_nil_r.
    rewrite assoc_set_same by done. rewrite (list_insert_id _ p) by done.
    rewrite list_insert_id by done. by rewrite state_eta.
  - eapply Forall2_impl; [exact Hdgs|]. auto.
  - apply Forall2_app.
    + eapply Forall2_impl; [exact Hgs|]. auto.
    + apply missing_groups_ids. eapply Forall2_impl; [exact Hdgs|]. auto.
Qed.

End GroupsMore.

(** ** The required fields *)

Lemma py_get_none_inv c k s v s' :
  py_get c k (ret VNone) s = (Ok v, s') ->
  s' = s /\ exists l d, c = VRef l /\ heap s !! l = Some (ODict d) /\
    v = default VNone (assoc_get k d).
Proof.
  unfold py_get. destruct c as [| | | |l]; try done.
  destruct (heap s !! l) as [[xs|d]|] eqn:El; try done.
  destruct (assoc_get k d) eqn:E; intros [= <- <-]; split; try done; exists l, d; by rewrite ?E.
Qed.

Lemma bind_run {A B} (m : M A) (f : A -> M B) s r s' :
  bind m f s = (r, s') ->
  (exists a s1, m s = (Ok a, s1) /\ f a s1 = (r, s')) \/
  (exists e, m s = (Raise e, s') /\ r = Raise e).
Proof.
  unfold bind. destruct (m s) as [[a|e] s1]; [by eauto|].
  intros [= <- <-]. right. eauto.
Qed.

Lemma reads_py_get_none c k : reads (py_get c k (ret VNone)).
Proof. apply reads_py_get, reads_ret. Qed.

Lemma filterM_complete {X} (f : X -> M bool) items s found s' x :
  (forall x, reads (f x)) ->
  filterM f items s = (Ok found, s') ->
  x ∈ items -> f x s = (Ok true, s) -> x ∈ found.
Proof.
  intros Hf. revert found. induction items as [|y r IH]; intros found; cbn [filterM].
  - by intros _ ?%elem_of_nil.
  - intros H Hx Hfx. apply bind_inv in H as (b & s1 & Hb & H).
    apply (reads_run _ _ _ _ (Hf y)) in Hb as Hs. subst s1.
    apply bind_inv in H as (ys & s2 & Hys & H). injection H as <- <-.
    apply (reads_run _ _ _ _ (reads_filterM _ _ Hf)) in Hys as Hs. subst s2.
    apply elem_of_cons in Hx as [->|Hx].
    + rewrite Hfx in Hb. injection Hb as <-. left.
    + destruct b; [right|]; by eapply IH.
Qed.

(** An extra with the key [f] is among those that [extras_with_key] finds. *)
Lemma extras_with_key_complete pkg f s found s' :
  extras_with_key pkg f s = (Ok found, s') ->
  has_extra (heap s) pkg f -> found <> [].
Proof.
  intros H (p & d & le & xs & e & de & -> & Hp & Hextras & Hle & He & Hde & Hkey).
  unfold extras_with_key in H.
  rewrite (bind_ok _ _ _ _ _ (getitem_key_run _ _ _ _ _ Hp Hextras)) in H.
  rewrite (bind_ok _ _ _ _ _ (py_iter_list_run _ _ _ Hle)) in H.
  assert (VRef e ∈ found) as Hin.
  { eapply filterM_complete; [|exact H|exact He|].
    - intros x. reads_tac.
    - cbv beta. rewrite (bind_ok _ _ _ _ _ (getitem_key_run _ _ _ _ _ Hde Hkey)).
      rewrite py_eq_m_str. by rewrite String.eqb_refl. }
  intros ->. by apply elem_of_nil in Hin.
Qed.

Lemma fp_length A K s s' : fp A K s s' -> length (heap s) <= length (heap s').
Proof. by intros [? _]. Qed.

(** What a field of a dict was before, from what it is after. *)
Lemma has_field_fp_back A K s s' l f v :
  fp A K s s' -> l < length (heap s) -> K f = true ->
  has_field (heap s') (VRef l) f v -> has_field (heap s) (VRef l) f v.
Proof.
  intros [_ Hfp] Hl HK (p & d' & [= <-] & Hp & Hf).
  destruct (Hfp l Hl) as [E|(_ & d0 & d1 & E0 & E1 & Hk)].
  - exists l, d'. split_and!; try done. congruence.
  - exists l, d0. split_and!; try done. rewrite <- Hk by done. congruence.
Qed.

Lemma new_list_after_setitem (h : list obj) p d d' :
  (h ++ [OList []]) !! p = Some (ODict d) ->
  <[p := ODict d']> (h ++ [OList []]) !! length h = Some (OList []).
Proof.
  intros Hp. destruct (decide (p = length h)) as [->|Hne].
  - rewrite lookup_app_r, Nat.sub_diag in Hp by lia. done.
  - rewrite list_lookup_insert_ne by done. by rewrite lookup_app_r, Nat.sub_diag by lia.
Qed.

Ltac step_fp K H Hfp :=
  match type of H with
  | ?m ?s1 = (_, ?s2) =>
      assert (Hfp : fp anywhere K s1 s2);
      [ let W := fresh "W" in
        assert (W : writer anywhere K m) by writer_steps;
        specialize (W s1); rewrite H in W; exact W | ]
  end.

Ltac next_fp K H F :=
  let x := fresh "x" in
  let sn := fresh "sn" in
  let Hn := fresh "Hn" in
  let Fn := fresh "Fn" in
  apply bind_inv in H as (x & sn & Hn & H);
  step_fp K Hn Fn;
  apply (fp_trans _ _ _ _ _ F) in Fn; clear F Hn; rename Fn into F.

Section RequiredFieldsMore.
Context `{host : Host}.

Lemma call_str_inv f x s v s' :
  call f (VStr x) s = (Ok v, s') ->
  exists pt, f (TStr x) = Ok pt /\ alloc_tree pt s = (Ok v, s').
Proof.
  unfold call, content_of, tree_of. unfold bind at 1. rewrite tree_of_atom_str.
  intros H. apply bind_inv in H as (pt & s1 & Hpt & H). injection Hpt as Hpt <-. eauto.
Qed.

(** [date_unless_extra], when the record has the date and no extra has the
    key; the record and the extras are seen in a later state [s']. *)
Lemma date_unless_extra_sets dcat pkg source key x iso s s1 s' :
  date_unless_extra dcat pkg source key s = (Ok tt, s1) ->
  fp anywhere (keeps_field source) s s' ->
  has_field (heap s') dcat source (VStr x) -> x <> EmptyString ->
  ~ has_extra (heap s') pkg key ->
  convert_date_to_isoformat (TStr x) = Ok (TStr iso) ->
  has_field (heap s1) pkg key (VStr iso).
Proof.
  unfold date_unless_extra. intros H F Hdate Hne Hno Hiso.
  apply bind_inv in H as (date & sa & Ha & H).
  apply py_get_none_inv in Ha as (-> & ld & dd & -> & Hld & ->).
  assert (Hk : keeps_field source source = true).
  { unfold keeps_field. by rewrite String.eqb_refl, !orb_true_r. }
  apply (has_field_fp_back _ _ _ _ _ source _ F (lookup_lt_Some _ _ _ Hld) Hk)
    in Hdate as (? & dd0 & [= <-] & Hld0 & Hx).
  rewrite Hld in Hld0. injection Hld0 as <-. rewrite Hx in H. cbn [default] in H.
  apply bind_inv in H as (found & sa & Hfound & H).
  apply extras_with_key_spec in Hfound as [-> Hfound].
  rewrite (bind_ok _ _ _ _ _ (truthy_nonempty _ _ Hne)) in H.
  destruct found as [|e found'].
  2:{ destruct Hno. eapply has_extra_fp; [by apply Hfound|exact F|done|done]. }
  cbn [is_empty andb] in H.
  apply bind_inv in H as (v & sa & Hcall & H).
  apply call_str_inv in Hcall as (pt & Hpt & Halloc).
  rewrite Hiso in Hpt. injection Hpt as <-. injection Halloc as <- <-.
  apply setitem_key_inv in H as (p & d & -> & Hp & ->).
  exists p, (assoc_set key (VStr iso) d). split; [done|]. cbn [heap].
  split; [apply list_lookup_insert_eq; by eapply lookup_lt_Some | apply assoc_get_set_eq].
Qed.

(** A step that is guarded by the extras does nothing when an extra has the
    key. *)
Lemma default_unless_extra_keeps pkg f g dflt s r s' :
  has_extra (heap s) pkg f -> g <> "extras" -> g <> "key" ->
  default_unless_extra pkg g dflt s = (r, s') ->
  fp anywhere (keeps_field f) s s'.
Proof.
  intros Hextra Hg1 Hg2 H. destruct (String.eqb_spec g f) as [->|Hne].
  - unfold default_unless_extra in H.
    apply bind_run in H as [(found & s1 & E & H)|(e & E & ->)];
      pose proof (reads_run _ _ _ _ (reads_extras_with_key _ _) E) as ->; [|apply fp_refl].
    pose proof (extras_with_key_complete _ _ _ _ _ E Hextra) as Hfound.
    destruct found; [done|]. injection H as <- <-. apply fp_refl.
  - assert (W : writer anywhere (keeps_field f) (default_unless_extra pkg g dflt)).
    { apply writer_default_unless_extra; [intros; apply anywhere_all|].
      unfold keeps_field. by rewrite !(proj2 (String.eqb_neq _ _)). }
    specialize (W s). by rewrite H in W.
Qed.

Lemma date_unless_extra_keeps dcat pkg f source g s r s' :
  has_extra (heap s) pkg f -> g <> "extras" -> g <> "key" ->
  date_unless_extra dcat pkg source g s = (r, s') ->
  fp anywhere (keeps_field f) s s'.
Proof.
  intros Hextra Hg1 Hg2 H. destruct (String.eqb_spec g f) as [->|Hne].
  - unfold date_unless_extra in H.
    apply bind_run in H as [(date & s1 & E1 & H)|(e & E1 & ->)];
      pose proof (reads_run _ _ _ _ (reads_py_get_none _ _) E1) as ->; [|apply fp_refl].
    apply bind_run in H as [(found & s1 & E & H)|(e & E & ->)];
      pose proof (reads_run _ _ _ _ (reads_extras_with_key _ _) E) as ->; [|apply fp_refl].
    pose proof (extras_with_key_complete _ _ _ _ _ E Hextra) as Hfound.
    apply bind_run in H as [(some & s1 & E2 & H)|(e & E2 & ->)];
      pose proof (reads_run _ _ _ _ (reads_truthy _) E2) as ->; [|apply fp_refl].
    destruct found; [done|]. cbn [is_empty] in H. rewrite andb_false_r in H.
    injection H as <- <-. apply fp_refl.
  - assert (W : writer anywhere (keeps_field f) (date_unless_extra dcat pkg source g)).
    { apply writer_date_unless_extra; [intros; apply anywhere_all|].
      unfold keeps_field. by rewrite !(proj2 (String.eqb_neq _ _)). }
    specialize (W s). by rewrite H in W.
Qed.

Lemma landing_page_keeps dcat pkg f s r s' :
  has_extra (heap s) pkg f ->
  (landing_page <- py_get dcat "landingPage" (ret VNone) ;;
   full_metadata_url <- extras_with_key pkg "full_metadata_url" ;;
   some <- truthy landing_page ;;
   if some && is_empty full_metadata_url then
     setitem_key pkg "full_metadata_url" landing_page
   else ret tt) s = (r, s') ->
  fp anywhere (keeps_field f) s s'.
Proof.
  intros Hextra H. destruct (String.eqb_spec "full_metadata_url" f) as [<-|Hne].
  - apply bind_run in H as [(lp & s1 & E1 & H)|(e & E1 & ->)];
      pose proof (reads_run _ _ _ _ (reads_py_get_none _ _) E1) as ->; [|apply fp_refl].
    apply bind_run in H as [(found & s1 & E & H)|(e & E & ->)];
      pose proof (reads_run _ _ _ _ (reads_extras_with_key _ _) E) as ->; [|apply fp_refl].
    pose proof (extras_with_key_complete _ _ _ _ _ E Hextra) as Hfound.
    apply bind_run in H as [(some & s1 & E2 & H)|(e & E2 & ->)];
      pose proof (reads_run _ _ _ _ (reads_truthy _) E2) as ->; [|apply fp_refl].
    destruct found; [done|]. cbn [is_empty] in H. rewrite andb_false_r in H.
    injection H as <- <-. apply fp_refl.
  - match type of H with
    | ?m s = _ => assert (W : writer anywhere (keeps_field f) m)
    end.
    { writer_steps. apply writer_setitem_key; [intros; apply anywhere_all|].
      unfold keeps_field. by rewrite (proj2 (String.eqb_neq _ _) Hne). }
    specialize (W s). by rewrite H in W.
Qed.

(** X17: for each key that [set_required_fields_defaults] guards with a look
    at the extras (the six organizational fields, the two dates and
    [full_metadata_url]), when an extra of the package dict has the key the
    function leaves the package dict's own value under that key as it was,
    set or not. *)
Theorem set_required_fields_defaults_keeps_given hc dcat p d f s s' :
  set_required_fields_defaults hc dcat (VRef p) s = (Ok tt, s') ->
  heap s !! p = Some (ODict d) ->
  f ∈ guarded_fields ->
  has_extra (heap s) (VRef p) f ->
  exists d', heap s' !! p = Some (ODict d') /\ assoc_get f d' = assoc_get f d.
Proof.
  intros H Hp Hf Hextra.
  enough (fp anywhere (keeps_field f) s s') as Hfp.
  { destruct (fp_dict _ _ _ _ _ _ Hfp Hp) as (d' & Hp' & Hd'). exists d'. split; [done|].
    apply Hd'. unfold keeps_field. by rewrite String.eqb_refl, !orb_true_r. }
  unfold set_required_fields_defaults in H.
  assert (Hnext : forall s1 s2, fp anywhere (keeps_field f) s s1 ->
            fp anywhere (keeps_field f) s1 s2 ->
            fp anywhere (keeps_field f) s s2 /\ has_extra (heap s2) (VRef p) f).
  { intros s1 s2 F1 F2. pose proof (fp_trans _ _ _ _ _ F1 F2) as F. split; [done|].
    by eapply has_extra_fp. }
  pose proof (fp_refl anywhere (keeps_field f) s) as F0.
  apply bind_inv in H as ([] & s1 & H1 & H).
  apply default_unless_extra_keeps with (f := f) in H1; [|done..].
  destruct (Hnext _ _ F0 H1) as [F1 X1].
  apply bind_inv in H as ([] & s2 & H2 & H).
  apply default_unless_extra_keeps with (f := f) in H2; [|done..].
  destruct (Hnext _ _ F1 H2) as [F2 X2].
  apply bind_inv in H as ([] & s3 & H3 & H).
  apply default_unless_extra_keeps with (f := f) in H3; [|done..].
  destruct (Hnext _ _ F2 H3) as [F3 X3].
  apply bind_inv in H as ([] & s4 & H4 & H).
  apply default_unless_extra_keeps with (f := f) in H4; [|done..].
  destruct (Hnext _ _ F3 H4) as [F4 X4].
  apply bind_inv in H as ([] & s5 & H5 & H).
  apply default_unless_extra_keeps with (f := f) in H5; [|done..].
  destruct (Hnext _ _ F4 H5) as [F5 X5].
  apply bind_inv in H as ([] & s6 & H6 & H).
  apply default_unless_extra_keeps with (f := f) in H6; [|done..].
  destruct (Hnext _ _ F5 H6) as [F6 X6].
  apply bind_inv in H as ([] & s7 & H7 & H).
  apply date_unless_extra_keeps with (f := f) in H7; [|done..].
  destruct (Hnext _ _ F6 H7) as [F7 X7].
  apply bind_inv in H as ([] & s8 & H8 & H).
  apply date_unless_extra_keeps with (f := f) in H8; [|done..].
  destruct (Hnext _ _ F7 H8) as [F8 X8].
  apply bind_inv in H as (lp & sa & Ha & H).
  pose proof (reads_run _ _ _ _ (reads_py_get_none _ _) Ha) as ->.
  apply bind_inv in H as (found & sa & Hb & H).
  pose proof (reads_run _ _ _ _ (reads_extras_with_key _ _) Hb) as ->.
  apply bind_inv in H as (some & sa & Hc & H).
  pose proof (reads_run _ _ _ _ (reads_truthy _) Hc) as ->.
  apply bind_inv in H as ([] & s9 & H9 & H).
  assert (F9' : fp anywhere (keeps_field f) s8 s9).
  { eapply (landing_page_keeps dcat (VRef p) f s8 (Ok tt)); [done|].
    rewrite (bind_ok _ _ _ _ _ Ha), (bind_ok _ _ _ _ _ Hb), (bind_ok _ _ _ _ _ Hc).
    exact H9. }
  destruct (Hnext _ _ F8 F9') as [F9 X9].
  eapply fp_trans; [exact F9|].
  unfold guarded_fields, required_defaults in Hf. cbn [map fst app] in Hf.
  repeat (apply elem_of_cons in Hf as [->|Hf]); [..|by apply elem_of_nil in Hf];
    (match goal with |- fp _ ?K _ _ => step_fp K H F end); exact F.
Qed.

(** X18: when [_get_package_dict] returns, the record has a non-empty
    [landingPage] and no extra has the key [full_metadata_url], the
    [full_metadata_url] of the package dict is the landing page: it replaces
    a default of the configuration or a link found in the description. *)
Theorem get_package_dict_landing_page harvest_object s package_dict dcat_dict s' url :
  _get_package_dict harvest_object s = (Ok (package_dict, dcat_dict), s') ->
  has_field (heap s') dcat_dict "landingPage" (VStr url) ->
  url <> EmptyString ->
  ~ has_extra (heap s') package_dict "full_metadata_url" ->
  has_field (heap s') package_dict "full_metadata_url" (VStr url).
Proof.
  unfold _get_package_dict. intros H Hlanding Hurl Hno.
  apply bind_inv in H as ([[[dcat pkg] hc] soup] & s1 & _ & H).
  apply bind_inv in H as ([] & s2 & H & Hret). injection Hret as <- <- <-.
  unfold datavic_conversion in H.
  apply bind_inv in H as (soup' & s3 & _ & H).
  apply bind_inv in H as ([] & s4 & _ & H).
  apply bind_inv in H as ([] & s5 & _ & H).
  apply bind_inv in H as ([] & s6 & _ & H).
  unfold set_required_fields_defaults in H.
  do 8 (apply bind_inv in H as ([] & ? & _ & H)).
  step_fp (keeps_field "landingPage") H F.
  apply bind_inv in H as (lp & sa & Ha & H).
  apply py_get_none_inv in Ha as (-> & ld & dd & -> & Hld & ->).
  apply (has_field_fp_back _ _ _ _ _ "landingPage" _ F (lookup_lt_Some _ _ _ Hld) eq_refl)
    in Hlanding as (? & dd0 & [= <-] & Hld0 & Hlp).
  rewrite Hld in Hld0. injection Hld0 as <-. rewrite Hlp in H. cbn [default] in H.
  apply bind_inv in H as (found & sa & Hb & H).
  apply extras_with_key_spec in Hb as [-> Hfound].
  destruct found as [|e found'].
  2:{ destruct Hno. eapply has_extra_fp; [by apply Hfound|exact F|done|done]. }
  rewrite (bind_ok _ _ _ _ _ (truthy_nonempty _ _ Hurl)) in H. cbn [is_empty andb] in H.
  apply bind_inv in H as ([] & s9 & H9 & H).
  apply setitem_key_inv in H9 as (p & d & -> & Hp & ->).
  step_fp (keeps_field "full_metadata_url") H F'.
  eapply has_field_fp; [|exact F'|done].
  exists p, (assoc_set "full_metadata_url" (VStr url) d). split; [done|]. cbn [heap].
  split; [apply list_lookup_insert_eq; by eapply lookup_lt_Some | apply assoc_get_set_eq].
Qed.


(** X19: when [_get_package_dict] returns, for [issued] and
    [date_created_data_asset], and for [modified] and
    [date_modified_data_asset]: if the record has a non-empty string under
    the first and no extra has the second as its key, the package dict has
    under the second what the host's conversion to ISO format gives for
    it. *)
Theorem get_package_dict_record_dates harvest_object s package_dict dcat_dict s'
    source key x iso :
  _get_package_dict harvest_object s = (Ok (package_dict, dcat_dict), s') ->
  (source, key) ∈ record_dates ->
  has_field (heap s') dcat_dict source (VStr x) ->
  x <> EmptyString ->
  ~ has_extra (heap s') package_dict key ->
  convert_date_to_isoformat (TStr x) = Ok (TStr iso) ->
  has_field (heap s') package_dict key (VStr iso).
Proof.
  unfold _get_package_dict. intros H Hin Hdate Hne Hno Hiso.
  apply bind_inv in H as ([[[dcat pkg] hc] soup] & s1 & _ & H).
  apply bind_inv in H as ([] & s2 & H & Hret). injection Hret as <- <- <-.
  unfold datavic_conversion in H.
  apply bind_inv in H as (soup' & s3 & _ & H).
  apply bind_inv in H as ([] & s4 & _ & H).
  apply bind_inv in H as ([] & s5 & _ & H).
  apply bind_inv in H as ([] & s6 & _ & H).
  unfold set_required_fields_defaults in H.
  do 6 (apply bind_inv in H as ([] & ? & _ & H)).
  unfold record_dates in Hin.
  apply elem_of_cons in Hin as [[= -> ->]|Hin].
  - step_fp (keeps_field "issued") H F.
    apply bind_inv in H as ([] & s7 & H7 & H).
    pose proof (date_unless_extra_sets _ _ _ _ _ _ _ _ _ H7 F Hdate Hne Hno Hiso) as Hset.
    step_fp (keeps_field "date_created_data_asset") H F'.
    by eapply has_field_fp.
  - apply list_elem_of_singleton in Hin as [= -> ->].
    apply bind_inv in H as ([] & s7 & _ & H).
    step_fp (keeps_field "modified") H F.
    apply bind_inv in H as ([] & s8 & H8 & H).
    pose proof (date_unless_extra_sets _ _ _ _ _ _ _ _ _ H8 F Hdate Hne Hno Hiso) as Hset.
    step_fp (keeps_field "date_modified_data_asset") H F'.
    by eapply has_field_fp.
Qed.

(** X20: when [_get_package_dict] returns, the package dict has a
    [tag_string], which is the very value of the record's [keyword], not a
    copy of it, or else an empty list. *)
Theorem get_package_dict_tag_string harvest_object s package_dict dcat_dict s' :
  _get_package_dict harvest_object s = (Ok (package_dict, dcat_dict), s') ->
  exists v,
    has_field (heap s') package_dict "tag_string" v /\
    (has_field (heap s') dcat_dict "keyword" v \/
     exists l, v = VRef l /\ heap s' !! l = Some (OList [])).
Proof.
  unfold _get_package_dict. intros H.
  apply bind_inv in H as ([[[dcat pkg] hc] soup] & s1 & _ & H).
  apply bind_inv in H as ([] & s2 & H & Hret). injection Hret as <- <- <-.
  unfold datavic_conversion in H.
  apply bind_inv in H as (soup' & s3 & _ & H).
  apply bind_inv in H as ([] & s4 & _ & H).
  apply bind_inv in H as ([] & s5 & _ & H).
  apply bind_inv in H as ([] & s6 & _ & H).
  unfold set_required_fields_defaults in H.
  do 8 (apply bind_inv in H as ([] & ? & _ & H)).
  do 3 (apply bind_inv in H as (? & ? & _ & H)).
  apply bind_inv in H as ([] & ? & _ & H).
  do 3 (apply bind_inv in H as (? & ? & _ & H)).
  apply bind_inv in H as ([] & ? & _ & H).
  apply bind_inv in H as (keywords & sa & Ha & H).
  apply py_get_none_inv in Ha as (-> & ld & dd & -> & Hld & ->).
  apply bind_inv in H as (some & sa & Hsome & H).
  injection Hsome as <- <-.
  apply bind_inv in H as (v & sb & Hv & H).
  apply setitem_key_inv in H as (p & d & -> & Hp & ->).
  exists v. split.
  { exists p, (assoc_set "tag_string" v d). split; [done|]. cbn [heap].
    split; [apply list_lookup_insert_eq; by eapply lookup_lt_Some | apply assoc_get_set_eq]. }
  destruct (assoc_get "keyword" dd) as [kw|] eqn:Ekw; cbn [default] in Hv.
  - destruct (match kw with VNone => _ | _ => _ end) eqn:Et.
    + injection Hv as <- <-. left. cbn [heap].
      destruct (decide (ld = p)) as [->|Hne].
      * rewrite Hld in Hp. injection Hp as <-.
        exists p, (assoc_set "tag_string" kw dd). split; [done|].
        split; [apply list_lookup_insert_eq; by eapply lookup_lt_Some|].
        by rewrite assoc_get_set_ne.
      * exists ld, dd. split; [done|]. by rewrite list_lookup_insert_ne.
    + injection Hv as <- <-. right. eexists. split; [done|]. cbn [heap] in *.
      by eapply new_list_after_setitem.
  - injection Hv as <- <-. right. eexists. split; [done|]. cbn [heap] in *.
    by eapply new_list_after_setitem.
Qed.


(** The steps of [set_required_fields_defaults] before the license leave the
    license of the package dict and the default license of the configuration
    as they are. *)
Lemma required_fields_to_license hc dcat pkg s s' :
  set_required_fields_defaults hc dcat pkg s = (Ok tt, s') ->
  exists s9,
    fp anywhere keeps_license s s9 /\
    (license_id <- py_get pkg "license_id" (ret VNone) ;;
     has_license <- truthy license_id ;;
     use_default <- (if negb has_license then str_in "default_license" hc
                     else ret false) ;;
     (if use_default then
        default_license <- py_get hc "default_license" (ret VNone) ;;
        some <- truthy default_license ;;
        if some then
          default_license_id <- py_get default_license "id" (ret VNone) ;;
          default_license_title <- py_get default_license "title" (ret VNone) ;;
          has_id <- truthy default_license_id ;;
          (if has_id then setitem_key pkg "license_id" default_license_id
           else ret tt) ;;;
          has_title <- truthy default_license_title ;;
          if has_title then
            setitem_key pkg "custom_licence_text" default_license_title
          else ret tt
        else ret tt
      else ret tt) ;;;
     keywords <- py_get dcat "keyword" (ret VNone) ;;
     some <- truthy keywords ;;
     tag_string <- (if some then ret keywords else alloc (OList [])) ;;
     setitem_key pkg "tag_string" tag_string) s9 = (Ok tt, s').
Proof.
  unfold set_required_fields_defaults. intros H.
  pose proof (fp_refl anywhere keeps_license s) as F.
  do 12 (next_fp keeps_license H F).
  eauto.
Qed.

(** X21: when the package dict has no [license_id] and the configuration has a
    [default_license] with a non-empty id and title, a returning
    [set_required_fields_defaults] leaves the package dict with that id as
    [license_id] and that title as [custom_licence_text]. *)
Theorem set_required_fields_defaults_default_license
    s lh dh ll dl i title dcat p d s' :
  set_required_fields_defaults (VRef lh) dcat (VRef p) s = (Ok tt, s') ->
  heap s !! lh = Some (ODict dh) ->
  assoc_get "default_license" dh = Some (VRef ll) ->
  heap s !! ll = Some (ODict dl) ->
  assoc_get "id" dl = Some (VStr i) -> i <> EmptyString ->
  assoc_get "title" dl = Some (VStr title) -> title <> EmptyString ->
  heap s !! p = Some (ODict d) ->
  assoc_get "license_id" d = None ->
  has_field (heap s') (VRef p) "license_id" (VStr i) /\
  has_field (heap s') (VRef p) "custom_licence_text" (VStr title).
Proof.
  intros H Hh Hdl Hl Hi Hine Ht Htne Hp Hnone.
  apply required_fields_to_license in H as (s9 & F & H).
  destruct (fp_dict _ _ _ _ _ _ F Hh) as (dh9 & Hh9 & Kh).
  destruct (fp_dict _ _ _ _ _ _ F Hl) as (dl9 & Hl9 & Kl).
  destruct (fp_dict _ _ _ _ _ _ F Hp) as (d9 & Hp9 & Kp).
  rewrite <- (Kh "default_license" eq_refl) in Hdl.
  rewrite <- (Kl "id" eq_refl) in Hi. rewrite <- (Kl "title" eq_refl) in Ht.
  rewrite <- (Kp "license_id" eq_refl) in Hnone.
  rewrite (bind_ok _ _ s9 VNone s9) in H by (by rewrite (py_get_run _ _ _ _ _ Hp9), Hnone).
  rewrite (bind_ok _ _ s9 false s9) in H by done. cbn [negb] in H.
  rewrite (bind_ok _ _ _ _ _ (str_in_dict_run _ _ _ _ Hh9)) in H.
  replace (assoc_mem "default_license" dh9) with true in H
    by (unfold assoc_mem; by rewrite Hdl).
  set (d10 := assoc_set "license_id" (VStr i) d9).
  set (s10 := mkState (<[p := ODict d10]> (heap s9)) (logs s9)).
  set (d11 := assoc_set "custom_licence_text" (VStr title) d10).
  set (s11 := mkState (<[p := ODict d11]> (heap s10)) (logs s10)).
  assert (Hp10 : heap s10 !! p = Some (ODict d10)).
  { cbn [heap s10]. apply list_lookup_insert_eq. by eapply lookup_lt_Some. }
  rewrite (bind_ok _ _ s9 tt s11) in H.
  2:{ rewrite (bind_ok _ _ s9 (VRef ll) s9) by (by rewrite (py_get_run _ _ _ _ _ Hh9), Hdl).
      rewrite (bind_ok _ _ s9 true s9).
      2:{ rewrite (truthy_dict_run _ _ _ Hl9). by destruct dl9. }
      rewrite (bind_ok _ _ s9 (VStr i) s9) by (by rewrite (py_get_run _ _ _ _ _ Hl9), Hi).
      rewrite (bind_ok _ _ s9 (VStr title) s9)
        by (by rewrite (py_get_run _ _ _ _ _ Hl9), Ht).
      rewrite (bind_ok _ _ _ _ _ (truthy_nonempty _ _ Hine)).
      rewrite (bind_ok _ _ _ _ _ (setitem_key_run _ _ _ _ _ Hp9)). fold d10. fold s10.
      rewrite (bind_ok _ _ _ _ _ (truthy_nonempty _ _ Htne)).
      by rewrite (setitem_key_run _ _ _ _ _ Hp10). }
  step_fp keeps_license H F'.
  assert (Hp11 : heap s11 !! p = Some (ODict d11)).
  { cbn [heap s11]. apply list_lookup_insert_eq. by eapply lookup_lt_Some. }
  split; (eapply has_field_fp; [|exact F'|done]); exists p, d11; split_and!; try done.
  - unfold d11. rewrite assoc_get_set_ne by done. apply assoc_get_set_eq.
  - apply assoc_get_set_eq.
Qed.

(** X22: when the package dict has a non-empty [license_id], a returning
    [set_required_fields_defaults] keeps it, and keeps the
    [custom_licence_text] as it was, whatever default license the
    configuration has. *)
Theorem set_required_fields_defaults_keeps_license hc dcat p d license s s' :
  set_required_fields_defaults hc dcat (VRef p) s = (Ok tt, s') ->
  heap s !! p = Some (ODict d) ->
  assoc_get "license_id" d = Some (VStr license) -> license <> EmptyString ->
  exists d',
    heap s' !! p = Some (ODict d') /\
    assoc_get "license_id" d' = Some (VStr license) /\
    assoc_get "custom_licence_text" d' = assoc_get "custom_licence_text" d.
Proof.
  intros H Hp Hlicense Hne.
  apply required_fields_to_license in H as (s9 & F & H).
  destruct (fp_dict _ _ _ _ _ _ F Hp) as (d9 & Hp9 & Kp).
  rewrite <- (Kp "license_id" eq_refl) in Hlicense.
  rewrite (bind_ok _ _ s9 (VStr license) s9) in H
    by (by rewrite (py_get_run _ _ _ _ _ Hp9), Hlicense).
  rewrite (bind_ok _ _ _ _ _ (truthy_nonempty _ _ Hne)) in H. cbn [negb] in H.
  rewrite (bind_ok _ _ s9 false s9) in H by done.
  rewrite (bind_ok _ _ s9 tt s9) in H by done.
  step_fp keeps_license H F'.
  destruct (fp_dict _ _ _ _ _ _ F' Hp9) as (d' & Hp' & Kp').
  exists d'. split; [done|]. split.
  - by rewrite (Kp' "license_id" eq_refl).
  - by rewrite (Kp' "custom_licence_text" eq_refl), (Kp "custom_licence_text" eq_refl).
Qed.

End RequiredFieldsMore.

(** ** The configuration of the harvest source *)

Section NeedsConfig.
Context `{host : Host}.

Lemma load_harvest_config_cases harvest_object s hc s' :
  load_harvest_config harvest_object s = (Ok hc, s') ->
  (hc = VNone /\ s' = s) \/
  exists harvest_source config t,
    HarvestSource_get (harvest_source_id harvest_object) = Some harvest_source /\
    source_config harvest_source = Some config /\
    json_loads config = Some t /\ alloc_tree t s = (Ok hc, s').
Proof.
  unfold load_harvest_config, try_except.
  destruct (HarvestSource_get (harvest_source_id harvest_object)) as [src|] eqn:Hsrc;
    [|cbn; intros [= <- <-]; by left].
  destruct (source_config src) as [config|] eqn:Hcfg; [|cbn; intros [= <- <-]; by left].
  unfold py_json_loads. destruct (json_loads config) as [t|] eqn:E;
    [|cbn; intros [= <- <-]; by left].
  destruct (alloc_tree_good t s) as (v & ext & Ealloc & _). rewrite Ealloc.
  intros [= <- <-]. right. by exists src, config, t.
Qed.

Lemma load_harvest_object_config harvest_object s dcat pkg hc soup s1 :
  load_harvest_object harvest_object s = (Ok (dcat, pkg, hc, soup), s1) ->
  exists s0, load_harvest_config harvest_object s0 = (Ok hc, s1).
Proof.
  unfold load_harvest_object. intros H.
  apply bind_inv in H as (dcat' & sa & _ & H).
  apply bind_inv in H as (pkg' & sb & _ & H).
  apply bind_inv in H as (hc' & sc & Hc & H).
  apply bind_inv in H as (notes & sc' & Hn & H).
  apply getitem_key_inv in Hn as (-> & _).
  apply bind_inv in H as (markup & sc' & Hm & H).
  pose proof (reads_run _ _ _ _ (reads_content_of _) Hm) as ->.
  apply bind_inv in H as (soup' & sc' & Hs & H). injection Hs as _ <-.
  unfold ret in H. simplify_eq. eauto.
Qed.

Lemma writer_fix_erroneous_tags pkg : writer anywhere no_key (fix_erroneous_tags pkg).
Proof.
  unfold fix_erroneous_tags. writer_steps.
  apply writer_forM_. intros tag _. writer_steps.
Qed.

(** [set_default_group] raises unless the configuration is a dict. *)
Lemma set_default_group_needs_dict hc pkg s s' :
  set_default_group hc pkg s = (Ok tt, s') ->
  exists l d, hc = VRef l /\ heap s !! l = Some (ODict d).
Proof.
  unfold set_default_group. intros H.
  apply bind_inv in H as (v & s1 & Hget & _).
  unfold py_get in Hget. destruct hc as [| | | |l]; try done.
  destruct (heap s !! l) as [[xs|d]|] eqn:El; try done. eauto.
Qed.

(** X23: [_get_package_dict] returns only for a harvest object whose harvest
    source exists and has a configuration that parses to a JSON object: with
    any other source the handler leaves [harvest_config] at [None], or the
    configuration is no dict, and a later step raises. *)
Theorem get_package_dict_needs_config harvest_object s result s' :
  _get_package_dict harvest_object s = (Ok result, s') ->
  config_is_object harvest_object.
Proof.
  unfold _get_package_dict. intros H.
  apply bind_inv in H as ([[[dcat pkg] hc] soup] & s1 & Hload & H).
  apply bind_inv in H as ([] & s2 & H & _).
  apply load_harvest_object_config in Hload as (s0 & Hconfig).
  unfold datavic_conversion in H.
  apply bind_inv in H as (soup' & s3 & H3 & H).
  apply bind_inv in H as ([] & s4 & H4 & H).
  apply bind_inv in H as ([] & s5 & H5 & H).
  apply bind_inv in H as ([] & s6 & H6 & _).
  apply set_default_group_needs_dict in H6 as (l & d & -> & Hl).
  assert (F : fp anywhere no_key s1 s5).
  { pose proof (writer_set_description_and_extract anywhere no_key pkg soup
                  (fun l _ => anywhere_all l) eq_refl eq_refl s1) as F3.
    rewrite H3 in F3.
    pose proof (writer_set_full_metadata_url_and_update_frequency anywhere no_key
                  (VRef l) pkg soup' (fun l _ => anywhere_all l) eq_refl eq_refl s3) as F4.
    rewrite H4 in F4.
    pose proof (writer_fix_erroneous_tags pkg s4) as F5. rewrite H5 in F5.
    eapply fp_trans; [exact F3|]. eapply fp_trans; [exact F4|exact F5]. }
  apply load_harvest_config_cases in Hconfig
    as [[[=] _]|(src & config & t & Hsrc & Hcfg & Ht & Halloc)].
  apply alloc_tree_inv in Halloc as (ext & -> & _ & _ & Hrepr).
  specialize (Hrepr _ (agrees_app_self' _ _)).
  inversion Hrepr as [| | | | l' xs ts Hxs _ | l' kvs kts Hkvs _]; subst.
  - pose proof (fp_list _ _ _ _ _ _ F Hxs). congruence.
  - by exists src, config, kts.
Qed.

End NeedsConfig.

(** ** The existing dataset *)

Section ExistingDatasetProperties.
Context `{catalogue : Catalogue}.

(** X24: when the query finds no dataset with the guid,
    [_get_existing_dataset] returns [None] and logs nothing; neither the user
    name nor [package_show] is asked for. *)
Theorem get_existing_dataset_none guid s :
  _read_datasets_from_db guid = Ok (TList []) ->
  _get_existing_dataset guid s = (Ok VNone, mkState (heap s ++ [OList []]) (logs s)).
Proof.
  intros Hrows. unfold _get_existing_dataset. rewrite Hrows.
  rewrite (bind_ok _ _ s (TList []) s) by done.
  unfold bind at 1. cbn [alloc_tree]. unfold bind at 1, ret at 1, alloc at 1.
  unfold bind, truthy. cbn [heap]. by rewrite lookup_app_r, Nat.sub_diag by lia.
Qed.

(** X25: when the query finds datasets with the guid,
    [_get_existing_dataset] returns what [package_show] gives, with
    [ignore_auth] and the harvesting user, for the id in the first column of
    the first row; it logs one error record exactly when there is more than
    one row, and goes on with the first. *)
Theorem get_existing_dataset_first guid id columns others user shown s :
  _read_datasets_from_db guid = Ok (TList (TList (TStr id :: columns) :: others)) ->
  _get_user_name = Ok (TStr user) ->
  package_show (TDict [("user", TStr user); ("ignore_auth", TBool true)])
    (TDict [("id", TStr id)]) = Ok shown ->
  exists v s',
    _get_existing_dataset guid s = (Ok v, s') /\
    repr (heap s') v shown /\
    logs s' = logs s ++ duplicate_logs guid others /\
    (forall l, l < length (heap s) -> heap s' !! l = heap s !! l).
Proof.
  intros Hrows Huser Hshow. unfold _get_existing_dataset. rewrite Hrows, Huser.
  rewrite (bind_ok _ _ s (TList (TList (TStr id :: columns) :: others)) s) by done.
  destruct (alloc_tree_good (TList (TList (TStr id :: columns) :: others)) s)
    as (datasets & ext & Ealloc & Hval & Hclosed & Hrepr).
  rewrite (bind_ok _ _ _ _ _ Ealloc).
  set (s1 := mkState (heap s ++ ext) (logs s)).
  specialize (Hrepr (heap s1) (agrees_app_self' _ _)).
  inversion Hrepr as [| | | | l rows ts Hl Hrows' |]; subst.
  apply Forall2_cons_inv_r in Hrows' as (row & rest & Hrow & Hrest & ->).
  inversion Hrow as [| | | | l0 cols ts0 Hl0 Hcols |]; subst.
  apply Forall2_cons_inv_r in Hcols as (c0 & cs & Hc0 & _ & ->).
  apply repr_str_inv in Hc0 as ->.
  rewrite (bind_ok _ _ _ _ _ (truthy_list_run _ _ _ Hl)). cbn [is_empty negb].
  rewrite (bind_ok _ _ s1 (S (length rest)) s1) by (unfold py_len; by rewrite Hl).
  set (lg := logs s ++ duplicate_logs guid others).
  set (s2 := mkState (heap s1) lg).
  rewrite (bind_ok _ _ s1 tt s2).
  2:{ apply Forall2_length in Hrest. unfold s2, lg, duplicate_logs.
      destruct others as [|o others'], rest as [|r rest']; try done.
      by rewrite app_nil_r. }
  rewrite (bind_ok _ _ s2 (VStr user) s2) by done.
  unfold bind at 1, alloc at 1.
  set (context := ODict [("user", VStr user); ("ignore_auth", VBool true)]).
  set (s3 := mkState (heap s2 ++ [context]) (logs s2)).
  assert (Hl3 : heap s3 !! l = Some (OList (VRef l0 :: rest))) by (by apply lookup_app_l_Some).
  assert (Hl03 : heap s3 !! l0 = Some (OList (VStr id :: cs))) by (by apply lookup_app_l_Some).
  rewrite (bind_ok _ _ _ _ _ (getitem_first_run _ _ _ _ Hl3)).
  rewrite (bind_ok _ _ _ _ _ (getitem_first_run _ _ _ _ Hl03)).
  unfold bind at 1, alloc at 1.
  set (s4 := mkState (heap s3 ++ [ODict [("id", VStr id)]]) (logs s3)).
  assert (Hctx : repr (heap s4) (VRef (length (heap s2)))
                   (TDict [("user", TStr user); ("ignore_auth", TBool true)])).
  { econstructor.
    - cbn [heap s4 s3]. apply lookup_app_l_Some.
      by rewrite lookup_app_r, Nat.sub_diag by lia.
    - repeat constructor. }
  assert (Harg : repr (heap s4) (VRef (length (heap s3))) (TDict [("id", TStr id)])).
  { econstructor.
    - cbn [heap s4]. by rewrite lookup_app_r, Nat.sub_diag by lia.
    - repeat constructor. }
  assert (Hfuel : 1 <= recursion_limit) by (unfold recursion_limit; lia).
  rewrite (bind_ok _ _ s4 (TDict [("user", TStr user); ("ignore_auth", TBool true)]) s4).
  2:{ unfold content_of, tree_of. by rewrite (tree_of_repr _ _ _ _ Hctx). }
  rewrite (bind_ok _ _ s4 (TDict [("id", TStr id)]) s4).
  2:{ unfold content_of, tree_of. by rewrite (tree_of_repr _ _ _ _ Harg). }
  rewrite Hshow. rewrite (bind_ok _ _ s4 shown s4) by done.
  destruct (alloc_tree_good shown s4) as (v & ext' & Ealloc' & Hval' & Hclosed' & Hrepr').
  exists v, (mkState (heap s4 ++ ext') (logs s4)). split; [done|]. cbn [heap logs].
  split; [apply Hrepr', agrees_app_self'|]. split; [done|].
  intros l' Hl'. cbn [heap s4 s3 s2 s1]. rewrite <- !app_assoc. by rewrite lookup_app_l.
Qed.

End ExistingDatasetProperties.

(** ** From the validated configuration to the package *)

Lemma missing_groups_all dgs dids :
  length dgs = length dids -> missing_groups [] dgs dids = dgs.
Proof.
  unfold missing_groups. revert dids.
  induction dgs as [|g r IH]; intros [|i dids] [=]; [done|].
  cbn [zip zip_with]. rewrite filter_cons. cbn [existsb negb snd].
  rewrite decide_True by done. cbn [map fst]. f_equal. by apply IH.
Qed.

Section ValidatedGroups.
Context `{host : Host}.

Lemma repr_entry h v i nm :
  repr h v (TDict [("id", TStr i); ("name", TStr nm)]) ->
  exists l, v = VRef l /\ h !! l = Some (ODict [("id", VStr i); ("name", VStr nm)]).
Proof.
  intros H. inversion H as [| | | | |l kvs kts Hl Hkvs]; subst.
  apply Forall2_cons_inv_r in Hkvs as ([k1 v1] & kvs1 & [Hk1 Hv1] & Hkvs & ->).
  apply Forall2_cons_inv_r in Hkvs as ([k2 v2] & kvs2 & [Hk2 Hv2] & Hkvs & ->).
  apply Forall2_nil_inv_r in Hkvs as ->. cbn [fst snd] in *. subst.
  apply repr_str_inv in Hv1 as ->. apply repr_str_inv in Hv2 as ->. eauto.
Qed.

Lemma group_dicts_ids h dgs names :
  Forall group_found names ->
  Forall2 (repr h) dgs (map group_dict names) ->
  Forall2 (has_id h) dgs (map group_id names).
Proof.
  intros Hall. revert dgs. induction Hall as [|x r Hx _ IH]; intros dgs H.
  - apply Forall2_nil_inv_r in H as ->. constructor.
  - cbn [map] in H. apply Forall2_cons_inv_r in H as (g & gs & Hg & Hgs & ->).
    cbn [map]. constructor; [|by apply IH].
    destruct (group_found_dict x Hx) as (gk & i & nm & _ & _ & _ & Hd).
    unfold group_id. rewrite Hd in Hg |- *.
    apply repr_entry in Hg as (l & -> & Hl). by exists l, [("id", VStr i); ("name", VStr nm)].
Qed.

Lemma group_dicts_frame h h' dgs names :
  Forall group_found names ->
  Forall2 (repr h) dgs (map group_dict names) ->
  (forall l, VRef l ∈ dgs -> h' !! l = h !! l) ->
  Forall2 (repr h') dgs (map group_dict names).
Proof.
  intros Hall. revert dgs. induction Hall as [|x r Hx _ IH]; intros dgs H Hsame.
  - apply Forall2_nil_inv_r in H as ->. constructor.
  - cbn [map] in H. apply Forall2_cons_inv_r in H as (g & gs & Hg & Hgs & ->).
    cbn [map]. constructor.
    + destruct (group_found_dict x Hx) as (gk & i & nm & _ & _ & _ & Hd).
      rewrite Hd in Hg |- *. apply repr_entry in Hg as (l & -> & Hl).
      econstructor; [rewrite Hsame; [exact Hl|apply elem_of_cons; by left]|].
      repeat constructor.
    + apply IH; [done|]. intros l Hl. apply Hsame. apply elem_of_cons. by right.
Qed.

(** X26: the output of [validate_config] is what [set_default_group] needs:
    once a configuration validated for a non-empty list of groups the host
    knows is loaded, [set_default_group] on a package dict without groups
    returns, sets the category to the id of the first group, and sets the
    groups to a list that holds the id and name of each group, in their
    order. *)
Theorem validated_groups_reach_package config kts names s0 hc s p d :
  json_loads config = Some (validated kts names) ->
  Forall group_found names ->
  names <> [] ->
  py_json_loads (VStr config) s0 = (Ok hc, s) ->
  heap s0 !! p = Some (ODict d) ->
  assoc_get "groups" d = None ->
  exists s' lg gs,
    set_default_group hc (VRef p) s = (Ok tt, s') /\
    has_field (heap s') (VRef p) "category" (VStr (group_id (hd EmptyString names))) /\
    has_field (heap s') (VRef p) "groups" (VRef lg) /\
    heap s' !! lg = Some (OList gs) /\
    Forall2 (repr (heap s')) gs (map group_dict names).
Proof.
  intros Hloads Hall Hne Hrun Hp Hgroups.
  apply py_json_loads_inv in Hrun as (t & Ht & Halloc).
  rewrite Hloads in Ht. injection Ht as <-.
  apply alloc_tree_inv in Halloc as (ext & -> & Hval & Hclosed & Hrepr).
  set (s := mkState (heap s0 ++ ext) (logs s0)).
  pose proof (Hrepr (heap s) (agrees_app_self' _ _)) as Hr.
  inversion Hr as [| | | | |lh dh kts' Hlh Hdh]; subst.
  destruct (assoc_get_Forall2 _ "default_group_dicts" _ _ _ Hdh (assoc_get_set_eq _ _ _))
    as (vd & Evd & Hvd).
  inversion Hvd as [| | | |ld dgs ts Hld Hdgs|]; subst.
  pose proof (group_dicts_ids _ _ _ Hall Hdgs) as Hids.
  assert (Hp1 : heap s !! p = Some (ODict d)) by (by apply lookup_app_l_Some).
  assert (Hdne : dgs <> []).
  { intros ->. apply Forall2_nil_inv_l in Hdgs. by destruct names. }
  eexists _, (length (heap s)), dgs.
  split; [by eapply set_default_group_run_new|]. cbn [heap].
  assert (Hlt : p < length (heap s)) by (by eapply lookup_lt_Some).
  assert (Hhd : hd EmptyString (map group_id names) = group_id (hd EmptyString names)).
  { by destruct names. }
  rewrite missing_groups_all by (by eapply Forall2_length).
  assert (Hlast : <[length (heap s) := OList dgs]>
                    (<[p := ODict (assoc_set "groups" (VRef (length (heap s)))
                                     (assoc_set "category"
                                        (VStr (hd EmptyString (map group_id names))) d))]>
                       (heap s ++ [OList []])) !! length (heap s) = Some (OList dgs)).
  { apply list_lookup_insert_eq. rewrite length_insert, length_app. cbn. lia. }
  split.
  { eexists p, _. split; [done|]. split.
    - rewrite list_lookup_insert_ne by lia. apply list_lookup_insert_eq.
      rewrite length_app. lia.
    - rewrite assoc_get_set_ne by done. rewrite assoc_get_set_eq. by rewrite Hhd. }
  split.
  { eexists p, _. split; [done|]. split.
    - rewrite list_lookup_insert_ne by lia. apply list_lookup_insert_eq.
      rewrite length_app. lia.
    - apply assoc_get_set_eq. }
  split; [done|].
  (* the entries are objects of the configuration, which are unchanged *)
  assert (Hnew : forall l o l', length (heap s0) <= l -> heap s !! l = Some o ->
            VRef l' ∈ obj_values o -> length (heap s0) <= l').
  { intros l o l' Hl Ho Hin. cbn [heap s] in Ho. rewrite lookup_app_r in Ho by done.
    pose proof (Hclosed _ _ _ Ho Hin). lia. }
  assert (Hlhn : length (heap s0) <= lh) by (destruct (Hval lh eq_refl); lia).
  assert (Hldn : length (heap s0) <= ld).
  { apply (Hnew lh _ ld Hlhn Hlh). cbn [obj_values]. by eapply assoc_get_values. }
  apply lookup_lt_Some in Hp as Hp0.
  eapply group_dicts_frame; [done|exact Hdgs|]. intros l Hin.
  assert (Hln : length (heap s0) <= l).
  { apply (Hnew ld _ l Hldn Hld). by cbn [obj_values]. }
  assert (Hllt : l < length (heap s)).
  { assert (Forall (fun g => forall l, g = VRef l -> l < length (heap s)) dgs) as Hdom.
    { clear -Hids. induction Hids as [|g i dgs dids (l & kvs & -> & Hl & _)]; constructor;
        [|done]. intros ? [= <-]. by eapply lookup_lt_Some. }
    rewrite Forall_forall in Hdom. by eapply Hdom. }
  rewrite !list_lookup_insert_ne by lia. by rewrite lookup_app_l.
Qed.

End ValidatedGroups.

(** ** The further properties on concrete documents *)

Import Cases.

#[local] Existing Instance Variants.catalogue.

(** The run of [_get_package_dict] on the record has no extra with the key
    [f], when none of the three extras of its package dict has it. *)
Ltac no_such_extra :=
  let H := fresh in
  intros (p & d & le & xs & e & de & [= <-] & Hp & Hextras & Hle & He & Hde & Hkey);
  vm_compute in Hp; injection Hp as <-;
  vm_compute in Hextras; injection Hextras as <-;
  vm_compute in Hle; injection Hle as <-;
  repeat (apply elem_of_cons in He as [H|He];
          [injection H as ->; vm_compute in Hde; injection Hde as <-; discriminate Hkey|]);
  by apply elem_of_nil in He.

Lemma validate_config_stores_group_dicts_witness :
  exists s',
    validate_config (VStr entered) Reference.start
    = (Ok (VStr (json_dumps
                   (validated [("default_groups", TList [TStr "spatial-data"; TStr "g2"])]
                      ["spatial-data"; "g2"]))), s') /\
    logs s' = logs Reference.start /\
    length (heap Reference.start) <= length (heap s') /\
    (forall l, l < length (heap Reference.start) -> heap s' !! l = heap Reference.start !! l).
Proof.
  apply (validate_config_stores_group_dicts entered
           [("default_groups", TList [TStr "spatial-data"; TStr "g2"])]
           ["spatial-data"; "g2"] Reference.start).
  - discriminate.
  - vm_compute. reflexivity.
  - reflexivity.
  - repeat constructor; eexists _, _, _; split_and!; reflexivity.
  - unfold recursion_limit. cbn [depth fold_right snd]. lia.
Defined.

Lemma validate_config_idempotent_witness :
  exists out s1 s2,
    validate_config (VStr entered) Reference.start = (Ok (VStr out), s1) /\
    validate_config (VStr out) s1 = (Ok (VStr out), s2).
Proof.
  apply (validate_config_idempotent entered
           [("default_groups", TList [TStr "spatial-data"; TStr "g2"])]
           ["spatial-data"; "g2"] Reference.start).
  - discriminate.
  - vm_compute. reflexivity.
  - reflexivity.
  - repeat constructor; eexists _, _, _; split_and!; reflexivity.
  - unfold recursion_limit. cbn [depth fold_right snd]. lia.
  - vm_compute. reflexivity.
Defined.

Lemma validate_config_groups_not_list_witness :
  exists ext,
    validate_config (VStr (Reference.json_text "{'default_groups': 'g1'}")) Reference.start
    = (Raise (ValueError "default_groups must be a *list* of group names/ids"),
       mkState (heap Reference.start ++ ext) (logs Reference.start)).
Proof.
  apply (validate_config_groups_not_list (Reference.json_text "{'default_groups': 'g1'}")
           [("default_groups", TStr "g1")] (TStr "g1") Reference.start).
  - discriminate.
  - vm_compute. reflexivity.
  - reflexivity.
  - reflexivity.
Defined.

Lemma validate_config_first_group_not_string_witness :
  exists ext,
    validate_config (VStr (Reference.json_text "{'default_groups': [7, 'g1']}"))
      Reference.start
    = (Raise (ValueError "default_groups must be a list of group names/ids (i.e. strings)"),
       mkState (heap Reference.start ++ ext) (logs Reference.start)).
Proof.
  apply (validate_config_first_group_not_string
           (Reference.json_text "{'default_groups': [7, 'g1']}")
           [("default_groups", TList [TInt 7; TStr "g1"])] (TInt 7) [TStr "g1"]
           Reference.start).
  - discriminate.
  - vm_compute. reflexivity.
  - reflexivity.
  - reflexivity.
Defined.

Lemma validate_config_not_object_witness :
  exists ext,
    validate_config (VStr (Reference.json_text "['default_groups']")) Reference.start
    = (Raise TypeError, mkState (heap Reference.start ++ ext) (logs Reference.start)).
Proof.
  apply (validate_config_not_object (Reference.json_text "['default_groups']")
           (TList [TStr "default_groups"]) Reference.start).
  - discriminate.
  - vm_compute. reflexivity.
  - reflexivity.
  - vm_compute. discriminate.
Defined.

Lemma fix_erroneous_tags_idempotent_witness :
  exists s',
    fix_erroneous_tags (VRef 3) tagged = (Ok tt, s') /\
    fix_erroneous_tags (VRef 3) s' = (Ok tt, s').
Proof.
  apply (fix_erroneous_tags_idempotent tagged 3 [("tags", VRef 2)] 2 [VRef 0; VRef 1]);
    try reflexivity.
  repeat constructor.
  - eexists 0, _. split_and!; try reflexivity. intros v [= <-]. eauto.
  - eexists 1, _. split_and!; try reflexivity. intros v [=].
Defined.

Lemma fix_erroneous_tags_scalar_name_witness :
  exists s',
    fix_erroneous_tags (VRef 3) numbered = (Raise TypeError, s') /\
    (forall l, VRef l ∈ [VRef 0] -> heap s' !! l = fix_obj <$> heap numbered !! l) /\
    (forall l, VRef l ∉ [VRef 0] -> heap s' !! l = heap numbered !! l).
Proof.
  apply (fix_erroneous_tags_scalar_name numbered 3 [("tags", VRef 2)] 2 [VRef 0] 1
           [("name", VInt 2020)] (VInt 2020) []); try reflexivity.
  repeat constructor. eexists 0, _. split_and!; try reflexivity. intros v [= <-]. eauto.
Defined.

Lemma generate_extract_first_sentence_witness :
  generate_extract ("Street trees. Surveyed & mapped" : @Soup Reference.host) Reference.start
  = (Ok (VStr ("Street trees" ++ ".")), Reference.start).
Proof.
  apply (generate_extract_first_sentence (host := Reference.host)
           "Street trees. Surveyed & mapped" "Street trees" " Surveyed & mapped"
           Reference.start); reflexivity.
Defined.

Lemma set_description_and_extract_unbound_witness :
  exists s' v,
    set_description_and_extract (host := Variants.textless) (VRef 0) "Street trees" described
    = (Raise UnboundLocalError, s') /\
    heap s' !! 0 = Some (ODict (assoc_set "notes" v [("notes", VStr "Street trees")])) /\
    repr (heap s') v (TStr "Street trees") /\
    logs s' = logs described
              ++ [("Generate extract error for: "
                   ++ @soup_str Variants.textless "Street trees")%string;
                  exn_str (HostError "get_text")].
Proof.
  apply (set_description_and_extract_unbound (host := Variants.textless) described 0
           [("notes", VStr "Street trees")] "Street trees" "Street trees" "Street trees"
           (TStr "Street trees") "Street trees" (HostError "get_text")); reflexivity.
Defined.

Lemma set_description_and_extract_default_witness :
  set_description_and_extract (VRef 0) ("default.description" : @Soup Reference.host)
    defaulted
  = (Ok "default.description",
     mkState (<[0 := ODict (assoc_set "extract"
                              (VStr "No abstract has been entered for this dataset.")
                              (assoc_set "notes"
                                 (VStr "No description has been entered for this dataset.")
                                 [("notes", VStr "default.description");
                                  ("title", VStr "Trees")]))]> (heap defaulted))
       (logs defaulted)).
Proof.
  apply (set_description_and_extract_default (host := Reference.host) defaulted 0
           [("notes", VStr "default.description"); ("title", VStr "Trees")]
           "default.description" "default.description"); reflexivity.
Defined.

Lemma set_full_metadata_url_from_extras_witness :
  set_full_metadata_url_and_update_frequency VNone (VRef 3)
    ("Street trees." : @Soup Reference.host) with_extra
  = (Ok tt,
     mkState (<[3 := ODict (assoc_set "full_metadata_url" (VRef (length (heap with_extra)))
                              [("extras", VRef 2)])]>
                (heap with_extra
                 ++ [OList (extras_for (heap with_extra) "full_metadata_url"
                              [VRef 1; VRef 0])]))
       (logs with_extra)).
Proof.
  apply (set_full_metadata_url_from_extras (host := Reference.host) with_extra 3
           [("extras", VRef 2)] [VRef 1; VRef 0] VNone "Street trees.").
  - split; [reflexivity|]. exists 2. split_and!; try reflexivity.
    repeat constructor; eexists; reflexivity.
  - vm_compute. discriminate.
Defined.

Lemma set_full_metadata_url_unset_witness :
  set_full_metadata_url_and_update_frequency (VRef 3) (VRef 2)
    ("Street trees." : @Soup Reference.host) configured
  = (Ok tt, mkState (heap configured ++ [OList []]) (logs configured)).
Proof.
  apply (set_full_metadata_url_unset (host := Reference.host) configured 2
           [("extras", VRef 1)] [VRef 0] 3 [] "Street trees."); try reflexivity.
  split; [reflexivity|]. exists 1. split_and!; try reflexivity.
  repeat constructor; eexists; reflexivity.
Defined.

Lemma set_full_metadata_url_default_witness :
  set_full_metadata_url_and_update_frequency (VRef 4) (VRef 2)
    ("Street trees." : @Soup Reference.host) configured
  = (Ok tt,
     mkState (<[2 := ODict (assoc_set "full_metadata_url" (VStr "http://example.org/default")
                              [("extras", VRef 1)])]>
                (heap configured ++ [OList []]))
       (logs configured)).
Proof.
  apply (set_full_metadata_url_default (host := Reference.host) configured 2
           [("extras", VRef 1)] [VRef 0] 4
           [("default_full_metadata_url", VStr "http://example.org/default")]
           "http://example.org/default" "Street trees."); try reflexivity.
  - split; [reflexivity|]. exists 1. split_and!; try reflexivity.
    repeat constructor; eexists; reflexivity.
  - discriminate.
Defined.

Lemma set_full_metadata_url_from_description_witness :
  set_full_metadata_url_and_update_frequency (host := Variants.linked) (VRef 5) (VRef 2)
    "Street trees." configured
  = (Ok tt,
     mkState (<[2 := ODict (assoc_set "full_metadata_url"
                              (VStr "http://example.org/metadata/trees")
                              (assoc_set "update_frequency" (VStr "monthly")
                                 [("extras", VRef 1)]))]>
                (heap configured ++ [OList []]))
       (logs configured)).
Proof.
  apply (set_full_metadata_url_from_description (host := Variants.linked) configured 2
           [("extras", VRef 1)] [VRef 0] 5
           [("default_full_metadata_url", VStr "http://example.org/default");
            ("full_metadata_url_pattern", VStr "example.org/metadata")]
           "example.org/metadata" "http://example.org/metadata/trees" "monthly"
           "Street trees."); try reflexivity.
  - split; [reflexivity|]. exists 1. split_and!; try reflexivity.
    repeat constructor; eexists; reflexivity.
  - discriminate.
Defined.

Lemma set_default_group_without_defaults_witness :
  exists ext,
    set_default_group (VRef 3) (VRef 2) configured
    = (Ok tt, mkState (heap configured ++ ext) (logs configured)).
Proof.
  apply (set_default_group_without_defaults configured 3 [] (VRef 2)).
  - reflexivity.
  - intros v Hv. discriminate Hv.
Defined.

Lemma set_default_group_idempotent_witness :
  exists s',
    set_default_group (VRef 3) (VRef 6) grouped = (Ok tt, s') /\
    set_default_group (VRef 3) (VRef 6) s' = (Ok tt, s').
Proof.
  apply (set_default_group_idempotent grouped 3 [("default_group_dicts", VRef 2)] 2
           [VRef 0; VRef 1] ["g1"; "g2"] 6 [("groups", VRef 5)] [VRef 4] ["g2"]);
    try reflexivity.
  - discriminate.
  - repeat constructor; eexists _, _; split_and!; reflexivity.
  - discriminate.
  - exists 5. split_and!; [reflexivity | discriminate | reflexivity].
  - repeat constructor; eexists _, _; split_and!; reflexivity.
Defined.

Lemma set_required_fields_defaults_keeps_given_witness :
  exists d',
    heap (snd (set_required_fields_defaults (VRef 4) (VRef 3) (VRef 2) restricted)) !! 2
    = Some (ODict d') /\
    assoc_get "access" d'
    = assoc_get "access" [("extras", VRef 1); ("access", VStr "restricted")].
Proof.
  apply (set_required_fields_defaults_keeps_given (VRef 4) (VRef 3) 2
           [("extras", VRef 1); ("access", VStr "restricted")] "access" restricted).
  - vm_compute. reflexivity.
  - reflexivity.
  - apply (list_elem_of_lookup_2 _ 1). reflexivity.
  - exists 2, [("extras", VRef 1); ("access", VStr "restricted")], 1, [VRef 0], 0,
      [("key", VStr "access"); ("value", VStr "no")].
    split_and!; try reflexivity. apply (list_elem_of_lookup_2 _ 0); reflexivity.
Defined.

Lemma get_package_dict_landing_page_witness :
  has_field (heap (snd (_get_package_dict record Reference.start))) (VRef 10)
    "full_metadata_url" (VStr "http://example.org/trees").
Proof.
  apply (get_package_dict_landing_page record Reference.start (VRef 10) (VRef 1)
           (snd (_get_package_dict record Reference.start)) "http://example.org/trees").
  - vm_compute. reflexivity.
  - eexists 1, _. split_and!; [reflexivity | vm_compute; reflexivity | reflexivity].
  - discriminate.
  - no_such_extra.
Defined.

Lemma get_package_dict_record_dates_witness :
  has_field (heap (snd (_get_package_dict record Reference.start))) (VRef 10)
    "date_created_data_asset" (VStr "2020-01-01").
Proof.
  apply (get_package_dict_record_dates record Reference.start (VRef 10) (VRef 1)
           (snd (_get_package_dict record Reference.start))
           "issued" "date_created_data_asset" "2020-01-01" "2020-01-01").
  - vm_compute. reflexivity.
  - apply (list_elem_of_lookup_2 _ 0); reflexivity.
  - eexists 1, _. split_and!; [reflexivity | vm_compute; reflexivity | reflexivity].
  - discriminate.
  - no_such_extra.
  - reflexivity.
Defined.

Lemma get_package_dict_tag_string_witness :
  exists v,
    has_field (heap (snd (_get_package_dict record Reference.start))) (VRef 10)
      "tag_string" v /\
    (has_field (heap (snd (_get_package_dict record Reference.start))) (VRef 1) "keyword" v \/
     exists l, v = VRef l /\
       heap (snd (_get_package_dict record Reference.start)) !! l = Some (OList [])).
Proof.
  apply (get_package_dict_tag_string record Reference.start (VRef 10) (VRef 1)).
  vm_compute. reflexivity.
Defined.

Lemma set_required_fields_defaults_default_license_witness :
  has_field (heap (snd (set_required_fields_defaults (VRef 1) (VRef 5) (VRef 3) licensed)))
    (VRef 3) "license_id" (VStr "cc-by") /\
  has_field (heap (snd (set_required_fields_defaults (VRef 1) (VRef 5) (VRef 3) licensed)))
    (VRef 3) "custom_licence_text" (VStr "CC BY 4.0").
Proof.
  apply (set_required_fields_defaults_default_license licensed 1
           [("default_license", VRef 0)] 0
           [("id", VStr "cc-by"); ("title", VStr "CC BY 4.0")] "cc-by" "CC BY 4.0"
           (VRef 5) 3 [("extras", VRef 2)]); try reflexivity; discriminate.
Defined.

Lemma set_required_fields_defaults_keeps_license_witness :
  exists d',
    heap (snd (set_required_fields_defaults (VRef 1) (VRef 5) (VRef 4) licensed)) !! 4
    = Some (ODict d') /\
    assoc_get "license_id" d' = Some (VStr "odc-by") /\
    assoc_get "custom_licence_text" d'
    = assoc_get "custom_licence_text" [("extras", VRef 2); ("license_id", VStr "odc-by")].
Proof.
  apply (set_required_fields_defaults_keeps_license (VRef 1) (VRef 5) 4
           [("extras", VRef 2); ("license_id", VStr "odc-by")] "odc-by" licensed);
    try reflexivity; discriminate.
Defined.

Lemma get_package_dict_needs_config_witness : config_is_object record.
Proof.
  apply (get_package_dict_needs_config record Reference.start (VRef 10, VRef 1)
           (snd (_get_package_dict record Reference.start))).
  vm_compute. reflexivity.
Defined.

Lemma get_existing_dataset_none_witness :
  _get_existing_dataset "rivers" Reference.start
  = (Ok VNone, mkState (heap Reference.start ++ [OList []]) (logs Reference.start)).
Proof.
  apply (get_existing_dataset_none "rivers" Reference.start). reflexivity.
Defined.

Lemma get_existing_dataset_first_witness :
  exists v s',
    _get_existing_dataset "parks" Reference.start = (Ok v, s') /\
    repr (heap s') v (TDict [("id", TStr "dataset-2"); ("type", TStr "dataset")]) /\
    logs s' = logs Reference.start ++ duplicate_logs "parks" [TList [TStr "dataset-3"]] /\
    (forall l, l < length (heap Reference.start) -> heap s' !! l = heap Reference.start !! l).
Proof.
  apply (get_existing_dataset_first "parks" "dataset-2" [] [TList [TStr "dataset-3"]]
           "harvest" (TDict [("id", TStr "dataset-2"); ("type", TStr "dataset")])
           Reference.start); reflexivity.
Defined.

Lemma validated_groups_reach_package_witness :
  exists s' lg gs,
    set_default_group (VRef 5) (VRef 0)
      (snd (py_json_loads
              (VStr (json_dumps
                       (validated [("default_groups", TList [TStr "spatial-data"; TStr "g2"])]
                          ["spatial-data"; "g2"]))) ungrouped))
    = (Ok tt, s') /\
    has_field (heap s') (VRef 0) "category"
      (VStr (group_id (hd EmptyString ["spatial-data"; "g2"]))) /\
    has_field (heap s') (VRef 0) "groups" (VRef lg) /\
    heap s' !! lg = Some (OList gs) /\
    Forall2 (repr (heap s')) gs (map group_dict ["spatial-data"; "g2"]).
Proof.
  apply (validated_groups_reach_package
           (json_dumps (validated [("default_groups", TList [TStr "spatial-data"; TStr "g2"])]
                          ["spatial-data"; "g2"]))
           [("default_groups", TList [TStr "spatial-data"; TStr "g2"])]
           ["spatial-data"; "g2"] ungrouped (VRef 5)
           (snd (py_json_loads
                   (VStr (json_dumps
                            (validated
                               [("default_groups", TList [TStr "spatial-data"; TStr "g2"])]
                               ["spatial-data"; "g2"]))) ungrouped))
           0 [("title", VStr "Trees")]).
  - vm_compute. reflexivity.
  - repeat constructor; eexists _, _, _; split_and!; reflexivity.
  - discriminate.
  - vm_compute. reflexivity.
  - reflexivity.
  - reflexivity.
Defined.
